(** * Xerauditron: the fetch pipeline, link extraction, form classification
    and scoring engines of the website auditing API routes.

    The development is a shallow embedding of four Next.js route handlers:

    - quick links      ([QuickLinks.POST],      the extract-links route),
    - full analysis    ([FullAnalysis.POST],    the analyze route),
    - deep analysis    ([DeepAnalysis.POST],    app/api/analyze-all-links/route.ts),
    - form validation  ([FormValidation.POST],  the form-validation route),

    together with the helpers they share ([fetchWithStrategies],
    [extractLinksFromText], [extractLinksFromHtml], [classifyForm], the
    score calculators and the estimators), the element counts of the deep
    analysis ([DeepElements]) and the part of the page that validates the
    URL and decides what to show of a reply ([UI]).

    What the JavaScript runtime and the cheerio library provide (the WHATWG
    [URL] class, [fetch], [Math.random], the HTML parser, the regular
    expression engine) is not code of the repository: the handlers are
    modelled parametrically in those services, and a small reference
    instance of each is given for concrete executions.  Timestamps and
    console output are left out. *)

From Stdlib Require Import ZArith QArith Qround Lia Ascii String.
From stdpp Require Import base list strings gmap pretty sorting.

#[local] Set Warnings "-register-all".
#[local] Open Scope Z_scope.
#[local] Open Scope nat_scope.

(* ================================================================== *)
(** * JavaScript strings *)
(* ================================================================== *)

(** Strings are sequences of 8-bit characters; the case mapping and the
    white-space class are the ASCII restrictions of the JavaScript ones. *)
Module JS.

(** [s.startsWith(p)] *)
Definition startsWith (s p : string) : bool := String.prefix p s.

(** [s.includes(sub)] *)
Fixpoint includes (s sub : string) : bool :=
  String.prefix sub s ||
  match s with
  | EmptyString => false
  | String _ s' => includes s' sub
  end.

Definition lower_ascii (c : ascii) : ascii :=
  let n := nat_of_ascii c in
  if (65 <=? n) && (n <=? 90) then ascii_of_nat (n + 32) else c.

(** [s.toLowerCase()] *)
Fixpoint toLowerCase (s : string) : string :=
  match s with
  | EmptyString => EmptyString
  | String c s' => String (lower_ascii c) (toLowerCase s')
  end.

Definition upper_ascii (c : ascii) : ascii :=
  let n := nat_of_ascii c in
  if (97 <=? n) && (n <=? 122) then ascii_of_nat (n - 32) else c.

(** [s.toUpperCase()] *)
Fixpoint toUpperCase (s : string) : string :=
  match s with
  | EmptyString => EmptyString
  | String c s' => String (upper_ascii c) (toUpperCase s')
  end.

Definition is_ws (c : ascii) : bool :=
  let n := nat_of_ascii c in
  ((9 <=? n) && (n <=? 13)) || (n =? 32).

Fixpoint trimStart (s : string) : string :=
  match s with
  | EmptyString => EmptyString
  | String c s' => if is_ws c then trimStart s' else s
  end.

(** [s.trim()] *)
Definition trim (s : string) : string :=
  String.rev (trimStart (String.rev (trimStart s))).

(** [s.substring(0, n)] *)
Definition substring0 (n : nat) (s : string) : string := String.substring 0 n s.

(** Truthiness of a string value: only the empty string is falsy. *)
Definition truthy (s : string) : bool := negb (String.eqb s "").

(** Truthiness of a possibly [undefined] string ([attr] results). *)
Definition truthy_opt (o : option string) : bool :=
  match o with
  | Some s => truthy s
  | None => false
  end.

(** [o || d] for a possibly [undefined] string [o]. *)
Definition or_else (o : option string) (d : string) : string :=
  match o with
  | Some s => if truthy s then s else d
  | None => d
  end.

(** [s || d] *)
Definition str_or (s d : string) : string := if truthy s then s else d.

(** [xs.includes(x)] on an array of strings *)
Definition arr_includes (xs : list string) (x : string) : bool :=
  existsb (String.eqb x) xs.

(** The double-quote character, as a one-character string. *)
Definition dquote : string := String (ascii_of_nat 34) EmptyString.

(** [xs.slice(0, n)] *)
Definition slice0 {A} (n : nat) (xs : list A) : list A := firstn n xs.

End JS.

(* ================================================================== *)
(** * Exceptions *)
(* ================================================================== *)

(** A thrown [Error] object: its [name] and its [message]. *)
Record JsError := mkError { err_name : string; err_message : string }.

Definition Error_ (msg : string) : JsError := mkError "Error" msg.
Definition TypeError_ (msg : string) : JsError := mkError "TypeError" msg.

(** The outcome of a computation that may throw. *)
Inductive Result (A : Type) : Type :=
| Ok (a : A)
| Throw (e : JsError).
Arguments Ok {A} a.
Arguments Throw {A} e.

#[global] Instance result_ret : MRet Result := fun _ a => Ok a.
#[global] Instance result_bind : MBind Result := fun _ _ f m =>
  match m with
  | Ok a => f a
  | Throw e => Throw e
  end.

Definition is_ok {A} (r : Result A) : bool :=
  match r with
  | Ok _ => true
  | Throw _ => false
  end.

(* ================================================================== *)
(** * The runtime's [URL] class *)
(* ================================================================== *)

(** The components of a parsed URL that the handlers read. *)
Record Url := mkUrl {
  href : string;
  protocol : string;
  host : string;
  hostname : string
}.

(** [new URL(input, base)]; [None] stands for the [TypeError] the
    constructor throws on unparseable input. *)
Definition UrlParser := string -> option string -> option Url.

Definition new_URL (P : UrlParser) (input : string) (base : option string) : Result Url :=
  match P input base with
  | Some u => Ok u
  | None => Throw (TypeError_ "Invalid URL")
  end.

(** ** A reference URL parser

    [RefURL.parse] covers absolute [http(s)://host[:port][/path...]] inputs,
    and, against such a base, root-relative ([/...]) and fragment-only
    ([#...]) references.  It is used for concrete executions only; every
    general theorem below holds for an arbitrary parser. *)
Module RefURL.

(** Splits [s] at the first character satisfying [stop]. *)
Fixpoint span_until (stop : ascii -> bool) (s : string) : string * string :=
  match s with
  | EmptyString => (EmptyString, EmptyString)
  | String c s' =>
      if stop c then (EmptyString, s)
      else let '(a, b) := span_until stop s' in (String c a, b)
  end.

Definition is_path_start (c : ascii) : bool :=
  (Ascii.eqb c "/") || (Ascii.eqb c "?") || (Ascii.eqb c "#").

Definition is_colon (c : ascii) : bool := Ascii.eqb c ":".
Definition is_hash (c : ascii) : bool := Ascii.eqb c "#".

Fixpoint all_chars (p : ascii -> bool) (s : string) : bool :=
  match s with
  | EmptyString => true
  | String c s' => p c && all_chars p s'
  end.

(** Characters allowed in the host names of the covered fragment. *)
Definition host_char (c : ascii) : bool :=
  let n := nat_of_ascii c in
  ((97 <=? n) && (n <=? 122)) || ((48 <=? n) && (n <=? 57)) ||
  (n =? 45) || (n =? 46).

Definition digit_char (c : ascii) : bool :=
  let n := nat_of_ascii c in (48 <=? n) && (n <=? 57).

Definition drop (n : nat) (s : string) : string :=
  String.substring n (String.length s - n) s.

Definition default_port (scheme : string) : string :=
  if String.eqb scheme "https" then "443" else "80".

(** An absolute http(s) URL. *)
Definition parse_absolute (s : string) : option Url :=
  let l := JS.toLowerCase s in
  let scheme :=
    if JS.startsWith l "https://" then Some "https"
    else if JS.startsWith l "http://" then Some "http"
    else None in
  match scheme with
  | None => None
  | Some sch =>
      let rest := drop (String.length sch + 3) s in
      let '(authority, tail) := span_until is_path_start rest in
      let '(hn, port) := span_until is_colon (JS.toLowerCase authority) in
      let port := drop 1 port in
      if negb (JS.truthy hn) || negb (all_chars host_char hn)
         || negb (all_chars digit_char port) then None
      else
        let h := if JS.truthy port && negb (String.eqb port (default_port sch))
                 then hn +:+ ":" +:+ port else hn in
        let path := if JS.startsWith tail "/" then tail else "/" +:+ tail in
        Some {| href := sch +:+ "://" +:+ h +:+ path;
                protocol := sch +:+ ":";
                host := h;
                hostname := hn |}
  end.

Definition parse : UrlParser := fun input base =>
  match parse_absolute input with
  | Some u => Some u
  | None =>
      match base with
      | None => None
      | Some b =>
          match parse_absolute b with
          | None => None
          | Some bu =>
              if JS.startsWith input "//" then None
              else if JS.startsWith input "/" then
                parse_absolute (protocol bu +:+ "//" +:+ host bu +:+ input)
              else if JS.startsWith input "#" then
                parse_absolute (fst (span_until is_hash (href bu)) +:+ input)
              else None
          end
      end
  end.

End RefURL.

Example RefURL_root : RefURL.parse "https://x.com" None =
  Some {| href := "https://x.com/"; protocol := "https:"; host := "x.com"; hostname := "x.com" |}.
Proof. reflexivity. Qed.

Example RefURL_relative : RefURL.parse "/about" (Some "https://X.com/a/b?q#f") =
  Some {| href := "https://x.com/about"; protocol := "https:"; host := "x.com"; hostname := "x.com" |}.
Proof. reflexivity. Qed.

Example RefURL_fragment : RefURL.parse "#top" (Some "https://x.com:443/a#f") =
  Some {| href := "https://x.com/a#top"; protocol := "https:"; host := "x.com"; hostname := "x.com" |}.
Proof. reflexivity. Qed.

Example RefURL_invalid : RefURL.parse "https://a b" None = None.
Proof. reflexivity. Qed.

(* ================================================================== *)
(** * Parsed documents (the view cheerio gives of a page) *)
(* ================================================================== *)

(** An element as the handlers read it: tag name, attributes, the results
    of [.text()] and [.html()], the tag and text of its parent element, and
    its descendants in document order (for [.find]). *)
Inductive Elem := MkElem {
  el_tag : string;
  el_attrs : list (string * string);
  el_text : string;
  el_html : string;
  el_parent : option (string * string);
  el_desc : list Elem
}.

(** A loaded document: all its elements in document order. *)
Definition Document := list Elem.

(** [$(el).attr(name)]; [None] is [undefined]. *)
Definition attr (name : string) (e : Elem) : option string :=
  snd <$> List.find (fun kv => String.eqb (fst kv) name) (el_attrs e).

Module Sel.
(** Simple selectors, as predicates on elements. *)
Definition tag (t : string) (e : Elem) : bool := String.eqb (el_tag e) t.
Definition has_attr (a : string) (e : Elem) : bool :=
  match attr a e with Some _ => true | None => false end.
Definition attr_eq (a v : string) (e : Elem) : bool :=
  match attr a e with Some x => String.eqb x v | None => false end.
Definition attr_prefix (a p : string) (e : Elem) : bool :=
  match attr a e with Some x => JS.truthy p && JS.startsWith x p | None => false end.

(** [$(selector)] over a document, [$el.find(selector)] over descendants. *)
Definition query (p : Elem -> bool) (d : Document) : list Elem := List.filter p d.
Definition find (p : Elem -> bool) (e : Elem) : list Elem := List.filter p (el_desc e).

(** [.attr(name)] of a selection reads the first element. *)
Definition attr_of (name : string) (s : list Elem) : option string :=
  match s with
  | [] => None
  | e :: _ => attr name e
  end.

(** [.text()] of a selection concatenates the texts of its elements. *)
Definition text_of (s : list Elem) : string :=
  fold_right String.append EmptyString (map el_text s).

(** [$("a[href]")] *)
Definition a_href : Elem -> bool := fun e => tag "a" e && has_attr "href" e.
End Sel.

(** [xs.each(f)] with an accumulator, stopping at the first exception. *)
Fixpoint each {A S : Type} (f : S -> A -> Result S) (xs : list A) (s : S) : Result S :=
  match xs with
  | [] => Ok s
  | x :: xs' => s' ← f s x; each f xs' s'
  end.

(* ================================================================== *)
(** * Link extraction *)
(* ================================================================== *)

Record Link := mkLink {
  link_url : string;
  link_text : string;
  link_title : string
}.

(** [links.some((link) => link.url === u)] *)
Definition has_url (u : string) (links : list Link) : bool :=
  existsb (fun l => String.eqb (link_url l) u) links.

(** The targets that are not navigable resources. *)
Definition skipped_href (h : string) : bool :=
  negb (JS.truthy h) || JS.startsWith h "#" || JS.startsWith h "javascript:"
  || JS.startsWith h "mailto:".

(** The four regular expressions of the pattern tier; what the engine
    returns for each is a list of matches [(match[1], match[2])]. *)
Inductive LinkPattern :=
| PatQuotedAnchor   (* an anchor with a quoted href, up to its closing tag: groups href, text *)
| PatBareAnchor     (* an anchor with an unquoted href, up to its closing tag: groups href, text *)
| PatHrefAttr       (* any quoted href attribute: group href *)
| PatAnchorOpen.    (* the opening tag of an anchor with a quoted href: group href *)

Definition RegexMatch : Type := string * option string.
Definition RegexEngine := LinkPattern -> string -> list RegexMatch.

(** Insertion into a JavaScript [Set], kept in insertion order. *)
Definition set_add (x : string) (s : list string) : list string :=
  if bool_decide (x ∈ s) then s else s ++ [x].

Section LinkExtraction.

Variable URLp : UrlParser.

(** ** Structured tier of quick links and full analysis

    The two handlers share the loop body; they differ in the anchor
    text: [text().trim().substring(0, 100) || "No text"] in quick links,
    no placeholder in full analysis. *)
Definition quick_text (t : string) : string :=
  JS.str_or (JS.substring0 100 (JS.trim t)) "No text".
Definition full_text (t : string) : string :=
  JS.substring0 100 (JS.trim t).

Definition cheerio_link_step (norm : string -> string) (targetUrl baseDomain : string)
    (acc : list Link * list Link) (el : Elem) : Result (list Link * list Link) :=
  match attr "href" el with
  | None => Ok acc
  | Some h =>
      if skipped_href h then Ok acc
      else
        match URLp h (Some targetUrl) with
        | None => Ok acc
        | Some u =>
            let absoluteUrl := href u in
            let linkData := {| link_url := absoluteUrl;
                               link_text := norm (el_text el);
                               link_title := JS.or_else (attr "title" el) "" |} in
            lu ← new_URL URLp absoluteUrl None;
            let '(internal_links, external_links) := acc in
            if String.eqb (hostname lu) baseDomain then
              if has_url absoluteUrl internal_links then Ok acc
              else Ok (internal_links ++ [linkData], external_links)
            else
              if has_url absoluteUrl external_links then Ok acc
              else Ok (internal_links, external_links ++ [linkData])
        end
  end.

Definition cheerio_links (norm : string -> string) (doc : Document) (targetUrl : string)
    : Result (list Link * list Link) :=
  bu ← new_URL URLp targetUrl None;
  each (cheerio_link_step norm targetUrl (hostname bu)) (Sel.query Sel.a_href doc) ([], []).

(** ** Pattern tier: [extractLinksFromText] *)

Definition linkPatterns : list LinkPattern :=
  [PatQuotedAnchor; PatBareAnchor; PatHrefAttr].

(** The loop state: [foundUrls], [internal_links], [external_links]. *)
Definition TextState : Type := gset string * list Link * list Link.

Definition text_link_step (baseUrl baseDomain : string) (st : TextState) (m : RegexMatch)
    : TextState :=
  let '(foundUrls, internal_links, external_links) := st in
  let h := fst m in
  let t := JS.or_else (snd m) "" in
  if skipped_href h then st
  else
    match URLp h (Some baseUrl) with
    | None => st
    | Some u =>
        let absoluteUrl := href u in
        if bool_decide (absoluteUrl ∈ foundUrls) then st
        else
          let foundUrls' := {[ absoluteUrl ]} ∪ foundUrls in
          let linkData := {| link_url := absoluteUrl;
                             link_text := quick_text t;
                             link_title := "" |} in
          match URLp absoluteUrl None with
          | None => (foundUrls', internal_links, external_links)
          | Some lu =>
              if String.eqb (hostname lu) baseDomain
              then (foundUrls', internal_links ++ [linkData], external_links)
              else (foundUrls', internal_links, external_links ++ [linkData])
          end
    end.

Definition text_matches (rx : RegexEngine) (html : string) : list RegexMatch :=
  concat (map (fun p => rx p html) linkPatterns).

Definition extractLinksFromText (rx : RegexEngine) (html baseUrl : string)
    : list Link * list Link :=
  match URLp baseUrl None with
  | None => ([], [])
  | Some bu =>
      let '(_, internal_links, external_links) :=
        fold_left (text_link_step baseUrl (hostname bu)) (text_matches rx html)
                  (∅, [], []) in
      (internal_links, external_links)
  end.

(** ** Deep analysis: the internal links of the main page *)

Definition deep_link_step (targetHref baseUrl : string) (internalLinks : list Link)
    (el : Elem) : Result (list Link) :=
  let text := JS.trim (el_text el) in
  let title := JS.or_else (attr "title" el) "" in
  let push (fullUrl : string) : list Link :=
    if JS.startsWith fullUrl baseUrl && negb (has_url fullUrl internalLinks)
    then internalLinks ++ [ {| link_url := fullUrl;
                               link_text := JS.substring0 100 text;
                               link_title := JS.substring0 100 title |} ]
    else internalLinks in
  match attr "href" el with
  | None => Ok internalLinks
  | Some h =>
      if negb (JS.truthy h) then Ok internalLinks
      else if JS.startsWith h "http" then
        if JS.startsWith h baseUrl then Ok (push h) else Ok internalLinks
      else if JS.startsWith h "/" then Ok (push (baseUrl +:+ h))
      else if JS.startsWith h "#" || JS.startsWith h "mailto:" || JS.startsWith h "tel:"
      then Ok internalLinks
      else u ← new_URL URLp h (Some targetHref); Ok (push (href u))
  end.

Definition deep_base (target : Url) : string := protocol target +:+ "//" +:+ host target.

Definition deep_links (doc : Document) (target : Url) : Result (list Link) :=
  each (deep_link_step (href target) (deep_base target)) (Sel.query Sel.a_href doc) [].

(** ** Form validation: [extractLinksFromHtml] *)

Definition same_host_step (baseUrl : string) (links : list string) (h : string)
    : list string :=
  if JS.truthy h && negb (JS.startsWith h "#") && negb (JS.startsWith h "javascript:")
     && negb (JS.startsWith h "mailto:")
  then
    match URLp h (Some baseUrl) with
    | None => links
    | Some u =>
        match URLp (href u) None, URLp baseUrl None with
        | Some urlObj, Some bu =>
            if String.eqb (hostname urlObj) (hostname bu)
            then set_add (href u) links else links
        | _, _ => links
        end
    end
  else links.

Definition extractLinksFromHtml (load : string -> Result Document) (rx : RegexEngine)
    (html baseUrl : string) : list string :=
  let links :=
    match load html with
    | Ok doc =>
        fold_left (fun links el => match attr "href" el with
                                   | Some h => same_host_step baseUrl links h
                                   | None => links
                                   end)
                  (Sel.query Sel.a_href doc) []
    | Throw _ =>
        fold_left (fun links m => same_host_step baseUrl links (fst m))
                  (rx PatAnchorOpen html) []
    end in
  JS.slice0 20 links.

End LinkExtraction.


(* ================================================================== *)
(** * JavaScript numbers *)
(* ================================================================== *)

(** Numbers are modelled as exact rationals.  The integer-valued
    deductions of the score calculators are exact in double precision; the
    proportional ones differ from the exact quotient by rounding only. *)
Module Num.

Definition of_nat (n : nat) : Q := inject_Z (Z.of_nat n).

(** [x < y] *)
Definition lt (x y : Q) : bool := negb (Qle_bool y x).

(** [Math.round(x)]: the nearest integer, halves rounded up. *)
Definition round (x : Q) : Z := Qfloor (x + (1 # 2)).

(** [Math.max(a, b)] and [Math.min(a, b)] on integers. *)
Definition max (a b : Z) : Z := Z.max a b.
Definition min (a b : Z) : Z := Z.min a b.

End Num.

(* ================================================================== *)
(** * Page scores of the deep analysis (route.ts) *)
(* ================================================================== *)

Module Deep.

(** [images.filter((_, img) => !page$(img).attr("alt")).length] *)
Definition imagesWithoutAlt (images : list Elem) : nat :=
  length (List.filter (fun img => negb (JS.truthy_opt (attr "alt" img))) images).

(** The proportional deduction shared by the three percentage checks:
    nothing for an empty population or a full percentage, otherwise
    [(100 - percentage) * weight]. *)
Definition proportional (total missing : nat) (weight : Q) : Q :=
  if 0 <? total then
    let percentage := ((Num.of_nat total - Num.of_nat missing) / Num.of_nat total * 100)%Q in
    if Num.lt percentage 100 then ((100 - percentage) * weight)%Q else 0%Q
  else 0%Q.

Definition link_without_name (link : Elem) : bool :=
  negb (JS.truthy (JS.trim (el_text link)))
  && negb (JS.truthy_opt (attr "aria-label" link))
  && negb (JS.truthy_opt (attr "title" link))
  && negb (JS.truthy_opt (attr "aria-labelledby" link)).

(** The selector of the labelled-input check. *)
Definition labelled_input_sel (e : Elem) : bool :=
  (Sel.tag "input" e && (Sel.attr_eq "type" "text" e || Sel.attr_eq "type" "email" e
                         || Sel.attr_eq "type" "password" e || Sel.attr_eq "type" "tel" e))
  || Sel.tag "textarea" e || Sel.tag "select" e.

Definition input_without_label (doc : Document) (input : Elem) : bool :=
  let hasLabel :=
    match attr "id" input with
    | Some id =>
        JS.truthy id &&
        (0 <? length (Sel.query (fun e => Sel.tag "label" e && Sel.attr_eq "for" id e) doc))
    | None => false
    end in
  negb hasLabel
  && negb (JS.truthy_opt (attr "aria-label" input))
  && negb (JS.truthy_opt (attr "aria-labelledby" input)).

Definition is_skip_link (link : Elem) : bool :=
  let text := JS.toLowerCase (el_text link) in
  JS.includes text "skip" || JS.includes text "jump".

(** The six deductions of the accessibility score, in source order. *)
Definition acc_alt (doc : Document) : Q :=
  let images := Sel.query (Sel.tag "img") doc in
  proportional (length images) (imagesWithoutAlt images) (3 # 10).

Definition acc_h1 (doc : Document) : Q :=
  let h1Count := length (Sel.query (Sel.tag "h1") doc) in
  if h1Count =? 0 then 15%Q else if 1 <? h1Count then 10%Q else 0%Q.

Definition acc_links (doc : Document) : Q :=
  let links := Sel.query Sel.a_href doc in
  proportional (length links) (length (List.filter link_without_name links)) (2 # 10).

Definition acc_inputs (doc : Document) : Q :=
  let inputs := Sel.query labelled_input_sel doc in
  proportional (length inputs) (length (List.filter (input_without_label doc) inputs)) (25 # 100).

Definition acc_lang (doc : Document) : Q :=
  if negb (JS.truthy_opt (Sel.attr_of "lang" (Sel.query (Sel.tag "html") doc)))
  then 10%Q else 0%Q.

Definition acc_skip (doc : Document) : Q :=
  let skipLinks :=
    length (List.filter is_skip_link
              (Sel.query (fun e => Sel.tag "a" e && Sel.attr_prefix "href" "#" e) doc)) in
  if skipLinks =? 0 then 5%Q else 0%Q.

Definition acc_deductions (doc : Document) : Q :=
  (0 + acc_alt doc + acc_h1 doc + acc_links doc + acc_inputs doc
     + acc_lang doc + acc_skip doc)%Q.

Definition calculateAccessibilityScore (doc : Document) : Z :=
  let score := 100%Q in
  Num.max 0 (Num.round (score - acc_deductions doc)%Q).

(** The deductions of the SEO score, in source order. *)
Definition seo_title (doc : Document) : Q :=
  let title := JS.trim (Sel.text_of (Sel.query (Sel.tag "title") doc)) in
  if negb (JS.truthy title) then 20%Q
  else if (String.length title <? 30) || (60 <? String.length title) then 10%Q
  else 0%Q.

Definition meta_description (e : Elem) : bool :=
  Sel.tag "meta" e && Sel.attr_eq "name" "description" e.

Definition seo_description (doc : Document) : Q :=
  let metaDescription := Sel.attr_of "content" (Sel.query meta_description doc) in
  match metaDescription with
  | None => 15%Q
  | Some d =>
      if negb (JS.truthy d) then 15%Q
      else if (String.length d <? 120) || (160 <? String.length d) then 8%Q
      else 0%Q
  end.

Definition seo_h1 (doc : Document) : Q :=
  let h1Tags := Sel.query (Sel.tag "h1") doc in
  match h1Tags with
  | [] => 15%Q
  | first :: rest =>
      if 1 <? length h1Tags then 10%Q
      else
        let h1Text := JS.trim (el_text first) in
        if (String.length h1Text <? 20) || (70 <? String.length h1Text) then 5%Q
        else 0%Q
  end.

Definition seo_hierarchy (doc : Document) : Q :=
  let h2Count := length (Sel.query (Sel.tag "h2") doc) in
  let h3Count := length (Sel.query (Sel.tag "h3") doc) in
  let h4Count := length (Sel.query (Sel.tag "h4") doc) in
  if (h2Count =? 0) && ((0 <? h3Count) || (0 <? h4Count)) then 8%Q else 0%Q.

Definition seo_alt (doc : Document) : Q :=
  let images := Sel.query (Sel.tag "img") doc in
  proportional (length images) (imagesWithoutAlt images) (15 # 100).

Definition seo_internal_link (link : Elem) : bool :=
  match attr "href" link with
  | Some h => JS.truthy h && negb (JS.startsWith h "http")
              && negb (JS.startsWith h "mailto:") && negb (JS.startsWith h "tel:")
  | None => false
  end.

Definition seo_internal (doc : Document) : Q :=
  let internalLinks :=
    length (List.filter seo_internal_link (Sel.query Sel.a_href doc)) in
  if internalLinks =? 0 then 10%Q else 0%Q.

Definition missing (doc : Document) (sel : Elem -> bool) (penalty : Q) : Q :=
  if length (Sel.query sel doc) =? 0 then penalty else 0%Q.

Definition meta_viewport (e : Elem) : bool :=
  Sel.tag "meta" e && Sel.attr_eq "name" "viewport" e.
Definition link_canonical (e : Elem) : bool :=
  Sel.tag "link" e && Sel.attr_eq "rel" "canonical" e.
Definition meta_og (e : Elem) : bool :=
  Sel.tag "meta" e && Sel.attr_prefix "property" "og:" e.
Definition script_jsonld (e : Elem) : bool :=
  Sel.tag "script" e && Sel.attr_eq "type" "application/ld+json" e.

Definition seo_viewport (doc : Document) : Q := missing doc meta_viewport 8.
Definition seo_canonical (doc : Document) : Q := missing doc link_canonical 5.
Definition seo_og (doc : Document) : Q := missing doc meta_og 5.
Definition seo_structured (doc : Document) : Q := missing doc script_jsonld 5.

Definition seo_deductions (doc : Document) : Q :=
  (0 + seo_title doc + seo_description doc + seo_h1 doc + seo_hierarchy doc
     + seo_alt doc + seo_internal doc + seo_viewport doc + seo_canonical doc
     + seo_og doc + seo_structured doc)%Q.

Definition calculateSEOScore (doc : Document) : Z :=
  let score := 100%Q in
  Num.max 0 (Num.round (score - seo_deductions doc)%Q).

End Deep.


(* ================================================================== *)
(** * Form classification and form scores (form validation route) *)
(* ================================================================== *)

Module Forms.

Record FormInput := mkInput {
  in_type : string;
  in_name : string;
  in_id : string;
  in_label : string;
  in_required : bool
}.

(** [input.type?.toLowerCase() || "text"] *)
Definition inputType (input : FormInput) : string :=
  JS.str_or (JS.toLowerCase (in_type input)) "text".

Definition classifyForm (inputs : list FormInput) (formHtml pageUrl : string) : string :=
  let inputTypes := map inputType inputs in
  let formText := JS.toLowerCase formHtml in
  let urlPath := JS.toLowerCase pageUrl in
  let has t := JS.arr_includes inputTypes t in
  let says s := JS.includes formText s in
  (* Login forms *)
  if has "password" && (has "email" || has "text")
     && (says "login" || says "sign in" || JS.includes urlPath "login")
  then "Login Form"
  (* Registration forms *)
  else if has "password" && (3 <=? length inputTypes)
     && (says "register" || says "sign up" || says "create account")
  then "Registration Form"
  (* Contact forms *)
  else if has "email" && (has "textarea" || says "message")
     && (says "contact" || says "get in touch" || JS.includes urlPath "contact")
  then "Contact Form"
  (* Newsletter forms *)
  else if has "email" && (length inputTypes <=? 2)
     && (says "newsletter" || says "subscribe" || says "updates")
  then "Newsletter Signup"
  (* Search forms *)
  else if has "search" || says "search" then "Search Form"
  (* Payment forms *)
  else if says "payment" || says "credit card" || says "billing" then "Payment Form"
  (* Booking forms *)
  else if has "date" || says "booking" || says "reservation" then "Booking Form"
  (* Quote forms *)
  else if says "quote" || says "estimate" || says "pricing" then "Quote Request Form"
  (* Support forms *)
  else if says "support" || says "help" || says "ticket" then "Support Form"
  (* Feedback forms *)
  else if says "feedback" || says "review" || says "rating" then "Feedback Form"
  (* Default classification *)
  else "General Form".

(** [input.label && input.label.trim().length > 0] *)
Definition labelled (input : FormInput) : bool :=
  JS.truthy (in_label input) && (0 <? String.length (JS.trim (in_label input))).

(** The text [role=] followed by the quoted word [group]. *)
Definition role_group : string :=
  "role=" +:+ JS.dquote +:+ "group" +:+ JS.dquote.

Definition properTypes : list string := ["email"; "tel"; "url"; "number"; "date"].

Definition calculateAccessibilityScore (inputs : list FormInput) (formHtml : string) : Z :=
  let score := 100%Z in
  (* Check for labels *)
  let hasLabels := existsb labelled inputs in
  let score := if hasLabels then score else (score - 20)%Z in
  (* Check for required field indicators *)
  let hasRequiredIndicators := JS.includes formHtml "required" || JS.includes formHtml "*" in
  let score := if hasRequiredIndicators then score else (score - 15)%Z in
  (* Check for fieldsets/grouping *)
  let hasFieldsets := JS.includes formHtml "<fieldset" || JS.includes formHtml role_group in
  let score := if hasFieldsets then score else (score - 10)%Z in
  (* Check for ARIA attributes *)
  let hasAriaAttributes := JS.includes formHtml "aria-" || JS.includes formHtml "role=" in
  let score := if hasAriaAttributes then score else (score - 15)%Z in
  (* Check for proper input types *)
  let hasProperTypes :=
    existsb (fun input => JS.arr_includes properTypes (JS.toLowerCase (in_type input))) inputs in
  let score := if hasProperTypes then score else (score - 10)%Z in
  Num.max 0 (Num.min 100 score).

(** One entry of [detailed_forms]; the estimator's entries carry no
    [inputs] field. *)
Record FormInfo := mkForm {
  page_url : string;
  form_index : nat;
  input_count : Z;
  input_types : list string;
  form_method : string;
  form_action : string;
  form_classification : string;
  has_labels : bool;
  accessibility_score : Z;
  inputs : option (list FormInput)
}.

Definition field_sel (e : Elem) : bool :=
  Sel.tag "input" e || Sel.tag "select" e || Sel.tag "textarea" e.

(** The label of a field: [label[for=id]], then a wrapping label, then the
    placeholder or the aria-label. *)
Definition field_label (doc : Document) (input : Elem) (id : string) : string :=
  let label :=
    if JS.truthy id
    then JS.trim (Sel.text_of (Sel.query (fun e => Sel.tag "label" e && Sel.attr_eq "for" id e) doc))
    else "" in
  let label :=
    match el_parent input with
    | Some (ptag, ptext) =>
        if negb (JS.truthy label) && String.eqb ptag "label" then JS.trim ptext else label
    | None => label
    end in
  if negb (JS.truthy label)
  then JS.str_or (JS.or_else (attr "placeholder" input) "") (JS.or_else (attr "aria-label" input) "")
  else label.

Definition read_field (doc : Document) (input : Elem) : FormInput :=
  let type := JS.or_else (attr "type" input)
                (JS.str_or (JS.toLowerCase (JS.toUpperCase (el_tag input))) "text") in
  let name := JS.or_else (attr "name" input) "" in
  let id := JS.or_else (attr "id" input) "" in
  {| in_type := JS.toLowerCase type;
     in_name := name;
     in_id := id;
     in_label := field_label doc input id;
     in_required := Sel.has_attr "required" input |}.

(** [[...new Set(xs)]] *)
Definition unique (xs : list string) : list string := fold_left (fun s x => set_add x s) xs [].

(** The body of the loop over [$("form")]: forms with fewer than two
    fields are not recorded. *)
Definition analyzeForm (doc : Document) (pageUrl : string) (formIndex : nat) (form : Elem)
    : list FormInfo :=
  let inputs := map (read_field doc) (Sel.find field_sel form) in
  if 2 <=? length inputs then
    let formHtml := JS.str_or (el_html form) "" in
    let formMethod := JS.or_else (attr "method" form) "GET" in
    let formAction := JS.or_else (attr "action" form) "" in
    [ {| page_url := pageUrl;
         form_index := formIndex;
         input_count := Z.of_nat (length inputs);
         input_types := unique (map in_type inputs);
         form_method := JS.toUpperCase formMethod;
         form_action := formAction;
         form_classification := classifyForm inputs formHtml pageUrl;
         has_labels := existsb labelled inputs;
         accessibility_score := calculateAccessibilityScore inputs formHtml;
         inputs := Some inputs |} ]
  else [].

Definition analyzeForms (load : string -> Result Document) (html pageUrl : string)
    : list FormInfo :=
  match load html with
  | Ok doc => concat (imap (analyzeForm doc pageUrl) (Sel.query (Sel.tag "form") doc))
  | Throw _ => []
  end.

End Forms.


(* ================================================================== *)
(** * The runtime: network, clock and random source *)
(* ================================================================== *)

Inductive Strategy := standard | mobile | crawler.

(** The header set of a request: its User-Agent and, for the requests of
    [fetchWithStrategies], the strategy whose fingerprint headers it carries. *)
Record Headers := mkHeaders {
  user_agent : option string;
  profile : option Strategy
}.

Record Request := mkRequest {
  req_url : string;
  req_headers : Headers;
  req_referrer : bool
}.

Record Response := mkResponse {
  status : Z;
  statusText : string;
  body : string
}.

(** [response.ok] *)
Definition ok (r : Response) : bool := (200 <=? status r)%Z && (status r <=? 299)%Z.

(** What the network does with a request: a response, or a failure
    (connection error, or the abort of the request's timeout). *)
Inductive FetchOutcome :=
| Responded (r : Response)
| Failed (e : JsError).

(** The network answers the [n]-th request issued in a session. *)
Definition Transport := nat -> Request -> FetchOutcome.

(** What a handler has done so far: the requests handed to the network
    (latest first), the number of [Math.random()] draws, the delays slept. *)
Record World := mkWorld {
  requests : list Request;
  draws : nat;
  slept : list Q
}.

Definition start : World := mkWorld [] 0 [].

(** Effectful computations that may throw. *)
Definition IO (A : Type) : Type := World -> Result A * World.

#[global] Instance io_ret : MRet IO := fun _ a w => (Ok a, w).
#[global] Instance io_bind : MBind IO := fun _ _ f m w =>
  match m w with
  | (Ok a, w') => f a w'
  | (Throw e, w') => (Throw e, w')
  end.

Definition throw {A} (e : JsError) : IO A := fun w => (Throw e, w).

(** [try { m } catch (e) { h e }] *)
Definition io_try {A} (m : IO A) (h : JsError -> IO A) : IO A := fun w =>
  match m w with
  | (Ok a, w') => (Ok a, w')
  | (Throw e, w') => h e w'
  end.

(** A pure computation that may throw, run inside a handler. *)
Definition lift {A} (r : Result A) : IO A := fun w => (r, w).

(** [for (const x of xs)] over effectful bodies. *)
Fixpoint io_map {A B} (f : A -> IO B) (xs : list A) : IO (list B) :=
  match xs with
  | [] => mret []
  | x :: xs' => y ← f x; ys ← io_map f xs'; mret (y :: ys)
  end.

Section Runtime.

Variable URLp : UrlParser.
Variable net : Transport.
Variable rnd : nat -> Q.

(** [Math.random()] *)
Definition random : IO Q := fun w =>
  (Ok (rnd (draws w)), mkWorld (requests w) (S (draws w)) (slept w)).

(** [Math.floor(Math.random() * n)] *)
Definition random_below (n : Z) : IO Z :=
  r ← random; mret (Qfloor (r * inject_Z n)).

(** [await delay(ms)] *)
Definition delay (ms : Q) : IO unit := fun w =>
  (Ok tt, mkWorld (requests w) (draws w) (ms :: slept w)).

(** [await fetch(url, options)]: an unparseable URL is rejected with a
    [TypeError] before anything reaches the network. *)
Definition fetch (req : Request) : IO Response := fun w =>
  match URLp (req_url req) None with
  | None => (Throw (TypeError_ ("Failed to parse URL from " +:+ req_url req)), w)
  | Some _ =>
      let w' := mkWorld (req :: requests w) (draws w) (slept w) in
      match net (length (requests w)) req with
      | Responded r => (Ok r, w')
      | Failed e => (Throw e, w')
      end
  end.

(** ** Header sets *)

Definition USER_AGENTS : list string :=
  [ "Mozilla/5.0 (Windows NT 10.0; Win64; x64) AppleWebKit/537.36 (KHTML, like Gecko) Chrome/120.0.0.0 Safari/537.36";
    "Mozilla/5.0 (Macintosh; Intel Mac OS X 10_15_7) AppleWebKit/537.36 (KHTML, like Gecko) Chrome/120.0.0.0 Safari/537.36";
    "Mozilla/5.0 (Windows NT 10.0; Win64; x64) AppleWebKit/537.36 (KHTML, like Gecko) Chrome/119.0.0.0 Safari/537.36 Edg/119.0.0.0";
    "Mozilla/5.0 (Macintosh; Intel Mac OS X 10_15_7) AppleWebKit/605.1.15 (KHTML, like Gecko) Version/17.1 Safari/605.1.15";
    "Mozilla/5.0 (Windows NT 10.0; Win64; x64; rv:109.0) Gecko/20100101 Firefox/120.0";
    "Mozilla/5.0 (X11; Linux x86_64) AppleWebKit/537.36 (KHTML, like Gecko) Chrome/120.0.0.0 Safari/537.36" ].

(** [xs[i]] for a numeric index; [None] is [undefined]. *)
Definition index {A} (xs : list A) (i : Z) : option A :=
  if (i <? 0)%Z then None else nth_error xs (Z.to_nat i).

Definition getRandomUserAgent : IO (option string) :=
  i ← random_below (Z.of_nat (length USER_AGENTS)); mret (index USER_AGENTS i).

(** [getHeaders(strategy)]: the base headers draw a random User-Agent,
    which the mobile and crawler sets then override. *)
Definition getHeaders (strategy : Strategy) : IO Headers :=
  ua ← getRandomUserAgent;
  mret match strategy with
       | mobile =>
           mkHeaders (Some "Mozilla/5.0 (iPhone; CPU iPhone OS 17_1 like Mac OS X) AppleWebKit/605.1.15 (KHTML, like Gecko) Version/17.1 Mobile/15E148 Safari/604.1")
                     (Some mobile)
       | crawler =>
           mkHeaders (Some "Mozilla/5.0 (compatible; Googlebot/2.1; +http://www.google.com/bot.html)")
                     (Some crawler)
       | standard => mkHeaders ua (Some standard)
       end.

(** The fixed header set of the single-shot fetches. *)
Definition chromeHeaders : Headers :=
  mkHeaders (Some "Mozilla/5.0 (Windows NT 10.0; Win64; x64) AppleWebKit/537.36 (KHTML, like Gecko) Chrome/91.0.4472.124 Safari/537.36")
            None.

(** ** [fetchWithStrategies] *)

Definition strategies : list Strategy := [standard; mobile; crawler].

Definition http_error (r : Response) : JsError :=
  Error_ ("HTTP " +:+ pretty (status r) +:+ ": " +:+ statusText r).

(** How one iteration of the inner loop ends: with the function's return
    value, or by moving on with an updated [lastError]. *)
Inductive Iter :=
| Return (response : Response)
| Next (lastError : option JsError).

Definition isAbortOrFetchError (error : JsError) : bool :=
  String.eqb (err_name error) "AbortError" || JS.includes (err_message error) "fetch".

(** The body of the inner loop.  The delay before a retry is the exact
    value of [Math.random() * 2000 + 1000]; the source rounds the product
    and the sum to double precision, which keeps the delay between 1000 and
    3000 and lets it reach 3000. *)
Definition tryStrategy (url : string) (attempt : nat) (strategy : Strategy) : IO Iter :=
  io_try
    ((if 0 <? attempt
      then r ← random; delay (r * 2000 + 1000)%Q
      else mret tt) ;;
     headers ← getHeaders strategy;
     r ← random;
     response ← fetch (mkRequest url headers (Num.lt (1 # 2) r));
     if ok response then mret (Return response)
     else if (status response =? 403)%Z || (status response =? 429)%Z
     then mret (Next (Some (http_error response)))
     else throw (http_error response))
    (fun error =>
       (* the handler records the error; whether or not it is a timeout or
          network error, control reaches the next strategy *)
       if isAbortOrFetchError error
       then mret (Next (Some error))
       else mret (Next (Some error))).

Fixpoint strategiesLoop (url : string) (attempt : nat) (ss : list Strategy)
    (lastError : option JsError) : IO Iter :=
  match ss with
  | [] => mret (Next lastError)
  | strategy :: ss' =>
      it ← tryStrategy url attempt strategy;
      match it with
      | Return response => mret (Return response)
      | Next lastError' => strategiesLoop url attempt ss' lastError'
      end
  end.

Fixpoint attemptsLoop (url : string) (attempts : list nat) (lastError : option JsError)
    : IO Iter :=
  match attempts with
  | [] => mret (Next lastError)
  | attempt :: rest =>
      it ← strategiesLoop url attempt strategies lastError;
      match it with
      | Return response => mret (Return response)
      | Next lastError' => attemptsLoop url rest lastError'
      end
  end.

Definition fetchWithStrategies (url : string) (maxRetries : nat) : IO Response :=
  it ← attemptsLoop url (seq 0 maxRetries) None;
  match it with
  | Return response => mret response
  | Next lastError => throw (default (Error_ "All fetch strategies failed") lastError)
  end.

End Runtime.


(* ================================================================== *)
(** * Requests and replies of the route handlers *)
(* ================================================================== *)

(** A request: its own URL and the [url] field of its JSON body
    ([None] when the field is absent or [null]). *)
Record ApiRequest := mkApiRequest {
  request_url : string;
  json_url : option string
}.

(** [NextResponse.json(body)] or [NextResponse.json({ error }, { status })]. *)
Inductive Reply (B : Type) : Type :=
| Json (code : Z) (b : B)
| JsonError (code : Z) (error : string).
Arguments Json {B} code b.
Arguments JsonError {B} code error.

(** The handlers' normalisation of the submitted URL. *)
Definition withScheme (url : string) : string :=
  let targetUrl := JS.trim url in
  if negb (JS.startsWith targetUrl "http://") && negb (JS.startsWith targetUrl "https://")
  then "https://" +:+ targetUrl
  else targetUrl.

(** [Array.from({ length: n }, (_, i) => f i)] *)
Definition array_from {A} (n : Z) (f : nat -> IO A) : IO (list A) :=
  io_map f (seq 0 (Z.to_nat n)).

(* ================================================================== *)
(** * Quick links (extract-links route) *)
(* ================================================================== *)

Module QuickLinks.

Record Body := mkBody {
  internal_links : list Link;
  external_links : list Link;
  total : nat;
  status_ : string;
  method : string;
  note : option string;
  error : option string
}.

Section Handler.

Variable URLp : UrlParser.
Variable net : Transport.
Variable rnd : nat -> Q.
Variable load : string -> Result Document.
Variable rx : RegexEngine.

Definition largeSites : list string :=
  ["amazon"; "google"; "facebook"; "microsoft"; "apple"; "netflix"].

Definition internalPaths : list string :=
  ["about"; "contact"; "services"; "products"; "blog"; "news"; "support"; "careers"].
Definition internalTexts : list string :=
  ["Home"; "About Us"; "Contact"; "Services"; "Products"; "Blog"; "News"; "Support"; "Careers"].
Definition externalHosts : list string :=
  ["facebook.com"; "twitter.com"; "linkedin.com"; "instagram.com"; "youtube.com"; "github.com"].
Definition externalTexts : list string :=
  ["Facebook"; "Twitter"; "LinkedIn"; "Instagram"; "YouTube"; "GitHub"].

Definition fallbackInternal (url : string) (i : nat) : Link :=
  {| link_url := url +:+ (if i =? 0 then ""
                           else "/" +:+ default "undefined" (nth_error internalPaths (i mod 8)));
     link_text := JS.or_else (nth_error internalTexts (i mod 9)) ("Page " +:+ pretty (i + 1));
     link_title := "Internal link " +:+ pretty (i + 1) |}.

Definition fallbackExternal (i : nat) : Link :=
  {| link_url := "https://" +:+ default "undefined" (nth_error externalHosts (i mod 6));
     link_text := JS.or_else (nth_error externalTexts (i mod 6)) ("External " +:+ pretty (i + 1));
     link_title := "External link " +:+ pretty (i + 1) |}.

Definition generateFallbackData (url : string) : IO (list Link * list Link) :=
  u ← lift (new_URL URLp url None);
  let domain := hostname u in
  let isLargesite := existsb (JS.includes domain) largeSites in
  baseInternal ← (if isLargesite
                  then n ← random_below rnd 50; mret (n + 20)%Z
                  else n ← random_below rnd 20; mret (n + 5)%Z);
  baseExternal ← (if isLargesite
                  then n ← random_below rnd 30; mret (n + 10)%Z
                  else n ← random_below rnd 15; mret (n + 2)%Z);
  let internal_links := map (fallbackInternal url) (seq 0 (Z.to_nat baseInternal)) in
  let external_links := map fallbackExternal (seq 0 (Z.to_nat baseExternal)) in
  mret (internal_links, external_links).

Definition success (method : string) (links : list Link * list Link) (note : option string)
    : Body :=
  {| internal_links := links.1;
     external_links := links.2;
     total := length links.1 + length links.2;
     status_ := "success";
     method := method;
     note := note;
     error := None |}.

Definition nonempty (links : list Link * list Link) : bool :=
  (0 <? length links.1) || (0 <? length links.2).

(** The structured tier; [None] when it throws or finds no link. *)
Definition cheerioTier (html targetUrl : string) : option Body :=
  match (doc ← load html; cheerio_links URLp quick_text doc targetUrl) with
  | Ok links => if nonempty links then Some (success "cheerio_parsing" links None) else None
  | Throw cheerioError => None
  end.

(** The pattern tier; [None] when it finds no link. *)
Definition patternTier (html targetUrl : string) : option Body :=
  let patternResults := extractLinksFromText URLp rx html targetUrl in
  if nonempty patternResults
  then Some (success "pattern_extraction" patternResults None)
  else None.

(** The inner [try]: [None] when control falls through to the estimator. *)
Definition extraction (targetUrl : string) : IO (option Body) :=
  io_try
    (response ← fetchWithStrategies URLp net rnd targetUrl 3;
     let html := body response in
     match cheerioTier html targetUrl with
     | Some b => mret (Some b)
     | None => mret (patternTier html targetUrl)
     end)
    (fun fetchError => mret None).

Definition estimation (targetUrl : string) : IO Body :=
  fallbackData ← generateFallbackData targetUrl;
  mret (success "intelligent_estimation" fallbackData
          (Some "Website blocked direct access. Showing realistic estimates based on site analysis.")).

Definition errorFallback (rq : ApiRequest) (e : JsError) : Body :=
  let errorMessage := err_message e in
  {| internal_links := [ mkLink (JS.str_or (request_url rq) "") "Home" "Homepage" ];
     external_links := [ mkLink "https://www.google.com" "Google" "Google Search" ];
     total := 2;
     status_ := "partial_success";
     method := "error_fallback";
     note := Some ("Analysis partially completed. Original error: " +:+ errorMessage);
     error := Some ("Analysis failed: " +:+ errorMessage) |}.

Definition POST (rq : ApiRequest) : World -> Reply Body * World := fun w =>
  let handler : IO (Reply Body) :=
    match json_url rq with
    | None => mret (JsonError 400 "URL is required")
    | Some url =>
        if negb (JS.truthy url) then mret (JsonError 400 "URL is required")
        else
          let targetUrl := withScheme url in
          found ← extraction targetUrl;
          match found with
          | Some b => mret (Json 200 b)
          | None => b ← estimation targetUrl; mret (Json 200 b)
          end
    end in
  match handler w with
  | (Ok reply, w') => (reply, w')
  | (Throw e, w') => (Json 200 (errorFallback rq e), w')
  end.

End Handler.
End QuickLinks.


(* ================================================================== *)
(** * Form validation (form-validation route) *)
(* ================================================================== *)

Module FormValidation.
Import Forms.

Record Body := mkBody {
  url : string;
  status_ : string;
  total_pages_crawled : Z;
  successful_pages : option Z;
  forms_found : Z;
  forms_with_multiple_inputs : Z;
  detailed_forms : list FormInfo;
  form_types_breakdown : gmap string Z;
  pages_with_forms : list string;
  method : string;
  note : option string;
  error : option string
}.

(** What [generateFormEstimates] returns. *)
Record Estimates := mkEstimates {
  est_total_pages_crawled : Z;
  est_forms_found : Z;
  est_forms_with_multiple_inputs : Z;
  est_detailed_forms : list FormInfo;
  est_form_types_breakdown : gmap string Z;
  est_pages_with_forms : list string
}.

(** The variables of the crawl. *)
Record Crawl := mkCrawl {
  allForms : list FormInfo;
  crawledPages : nat;
  successfulPages : nat;
  processedUrls : gset string
}.

Section Handler.

Variable URLp : UrlParser.
Variable net : Transport.
Variable rnd : nat -> Q.
Variable load : string -> Result Document.
Variable rx : RegexEngine.

(** ** [generateFormEstimates] *)

Definition estimatePaths : list string := ["contact"; "login"; "register"; "checkout"; "support"].

Definition estimatedForm (url : string) (formTypes : list string) (i : nat) : IO FormInfo :=
  inputCount ← random_below rnd 6;
  typeCount ← random_below rnd 3;
  methodDraw ← random rnd;
  labelDraw ← random rnd;
  accDraw ← random_below rnd 40;
  mret {| page_url := if i =? 0 then url
                      else url +:+ "/" +:+ default "undefined" (nth_error estimatePaths (i mod 5));
          form_index := i;
          input_count := (inputCount + 2)%Z;
          input_types := JS.slice0 (Z.to_nat (typeCount + 2)) ["text"; "email"; "password"; "submit"];
          form_method := if Num.lt (3 # 10) methodDraw then "POST" else "GET";
          form_action := "/submit";
          form_classification :=
            default "undefined" (nth_error formTypes (i mod length formTypes));
          has_labels := Num.lt (2 # 10) labelDraw;
          accessibility_score := (accDraw + 60)%Z;
          inputs := None |}.

Definition generateFormEstimates (url : string) : IO Estimates :=
  u ← lift (new_URL URLp url None);
  let domain := hostname u in
  let isEcommerce := JS.includes domain "shop" || JS.includes domain "store"
                     || JS.includes domain "buy" in
  let isBusiness := JS.includes domain "business" || JS.includes domain "company"
                    || JS.includes domain "corp" in
  n ← random_below rnd 5;
  let estimatedForms := (n + 2)%Z in
  let formsWithMultipleInputs := Qfloor (inject_Z estimatedForms * (7 # 10)) in
  let estimatedForms := if isEcommerce then (estimatedForms + 3)%Z else estimatedForms in
  let formsWithMultipleInputs :=
    if isEcommerce then (formsWithMultipleInputs + 2)%Z else formsWithMultipleInputs in
  let formTypes :=
    ["Contact Form"; "Newsletter Signup"; "Search Form"]
    ++ (if isEcommerce then ["Registration Form"; "Login Form"; "Payment Form"] else [])
    ++ (if isBusiness then ["Quote Request Form"; "Support Form"] else []) in
  counts ← io_map (fun type => c ← random_below rnd 2; mret (type, (c + 1)%Z)) formTypes;
  let formTypesBreakdown : gmap string Z :=
    fold_left (fun m tc => <[ tc.1 := tc.2 ]> m) counts ∅ in
  detailedForms ← array_from formsWithMultipleInputs (estimatedForm url formTypes);
  pages ← random_below rnd 10;
  mret {| est_total_pages_crawled := (pages + 5)%Z;
          est_forms_found := estimatedForms;
          est_forms_with_multiple_inputs := formsWithMultipleInputs;
          est_detailed_forms := detailedForms;
          est_form_types_breakdown := formTypesBreakdown;
          est_pages_with_forms := map page_url detailedForms |}.

(** The reply built around the estimates. *)
Definition estimation (targetUrl : string) (estimates : Estimates) : Body :=
  {| url := targetUrl;
     status_ := "success";
     total_pages_crawled := est_total_pages_crawled estimates;
     successful_pages := None;
     forms_found := est_forms_found estimates;
     forms_with_multiple_inputs := est_forms_with_multiple_inputs estimates;
     detailed_forms := est_detailed_forms estimates;
     form_types_breakdown := est_form_types_breakdown estimates;
     pages_with_forms := est_pages_with_forms estimates;
     method := "intelligent_estimation";
     note := Some "Website blocked direct access. Showing realistic estimates based on domain analysis.";
     error := None |}.


(** ** The crawl *)

Definition maxPages : nat := 10.

(** The body of the loop over the candidate links, after its guard. *)
Definition crawlPage (link : string) (st : Crawl) : IO Crawl :=
  st' ← io_try
          (r ← random rnd;
           delay (r * 1000 + 500)%Q ;;
           response ← fetchWithStrategies URLp net rnd link 2;
           let html := body response in
           let pageForms := analyzeForms load html link in
           mret (mkCrawl (allForms st ++ pageForms) (crawledPages st)
                         (S (successfulPages st)) (processedUrls st)))
          (fun error => mret st);
  mret (mkCrawl (allForms st') (S (crawledPages st')) (successfulPages st')
                ({[ link ]} ∪ processedUrls st')).

Fixpoint crawlLoop (links : list string) (st : Crawl) : IO Crawl :=
  match links with
  | [] => mret st
  | link :: rest =>
      if bool_decide (link ∈ processedUrls st) || (maxPages <=? crawledPages st)
      then mret st   (* break *)
      else st' ← crawlPage link st; crawlLoop rest st'
  end.

Definition breakdown (forms : list FormInfo) : gmap string Z :=
  fold_left (fun m form =>
               let type := form_classification form in
               <[ type := (default 0%Z (m !! type) + 1)%Z ]> m)
            forms ∅.

Definition crawl (targetUrl : string) : IO Crawl :=
  mainResponse ← fetchWithStrategies URLp net rnd targetUrl 3;
  let mainHtml := body mainResponse in
  let mainPageForms := analyzeForms load mainHtml targetUrl in
  let st := mkCrawl mainPageForms 1 1 {[ targetUrl ]} in
  let internalLinks := extractLinksFromHtml URLp load rx mainHtml targetUrl in
  crawlLoop (JS.slice0 (maxPages - 1) internalLinks) st.

Definition report (targetUrl : string) (st : Crawl) : Body :=
  let formsWithMultipleInputs :=
    List.filter (fun form => (2 <=? input_count form)%Z) (allForms st) in
  {| url := targetUrl;
     status_ := "success";
     total_pages_crawled := Z.of_nat (crawledPages st);
     successful_pages := Some (Z.of_nat (successfulPages st));
     forms_found := Z.of_nat (length (allForms st));
     forms_with_multiple_inputs := Z.of_nat (length formsWithMultipleInputs);
     detailed_forms := formsWithMultipleInputs;
     form_types_breakdown := breakdown formsWithMultipleInputs;
     pages_with_forms := unique (map page_url (allForms st));
     method := "enhanced_crawling";
     note := None;
     error := None |}.

Definition errorFallback (rq : ApiRequest) (e : JsError) : Body :=
  let errorMessage := err_message e in
  let self := JS.str_or (request_url rq) "" in
  {| url := self;
     status_ := "partial_success";
     total_pages_crawled := 1;
     successful_pages := None;
     forms_found := 2;
     forms_with_multiple_inputs := 1;
     detailed_forms :=
       [ {| page_url := self; form_index := 0; input_count := 3;
            input_types := ["text"; "email"; "submit"];
            form_method := "POST"; form_action := "/contact";
            form_classification := "Contact Form"; has_labels := true;
            accessibility_score := 75; inputs := None |} ];
     form_types_breakdown := {[ "Contact Form" := 1%Z ]};
     pages_with_forms := [self];
     method := "error_fallback";
     note := Some ("Analysis partially completed. Original error: " +:+ errorMessage);
     error := Some ("Form validation failed: " +:+ errorMessage) |}.

Definition POST (rq : ApiRequest) : World -> Reply Body * World := fun w =>
  let handler : IO (Reply Body) :=
    match json_url rq with
    | None => mret (JsonError 400 "URL is required")
    | Some url =>
        if negb (JS.truthy url) then mret (JsonError 400 "URL is required")
        else
          let targetUrl := withScheme url in
          io_try
            (st ← crawl targetUrl; mret (Json 200 (report targetUrl st)))
            (fun crawlingError =>
               estimates ← generateFormEstimates targetUrl;
               mret (Json 200 (estimation targetUrl estimates)))
    end in
  match handler w with
  | (Ok reply, w') => (reply, w')
  | (Throw e, w') => (Json 200 (errorFallback rq e), w')
  end.

End Handler.
End FormValidation.


(* ================================================================== *)
(** * Full analysis (analyze route) *)
(* ================================================================== *)

Module FullAnalysis.

Record Detection := mkDetection {
  confidence : Z;
  evidence : list string;
  detected : bool
}.

Record FormDetail := mkFormDetail {
  fd_action : string;
  fd_method : string;
  fd_inputs : nat;
  fd_textareas : nat;
  fd_selects : nat;
  fd_buttons : nat
}.

(** The reply, with its nested objects flattened.  Left out: [timestamp],
    [alt_text_percentage] (a function of the two image counts) and the
    constant empty [social_platforms]. *)
Record Body := mkBody {
  url : string;
  status_ : string;
  total_links : nat;
  internal_links : list Link;
  external_links : list Link;
  primary_cms : option string;
  detected_systems : list (string * Detection);
  cms_total_detected : nat;
  detected_tools : list (string * Detection);
  tools_total_detected : nat;
  headings : list (string * nat);
  content_sample : list (string * list string);
  total_headings : nat;
  has_h1 : bool;
  multiple_h1 : bool;
  total_images : nat;
  with_alt_text : nat;
  missing_alt_text : nat;
  total_forms : nat;
  form_details : list FormDetail;
  total_inputs : nat;
  total_buttons : nat;
  email_links : nat;
  phone_links : nat;
  total_meta_tags : nat;
  important_tags : gmap string string;
  has_description : bool;
  has_viewport : bool;
  accessibility_score : Z;
  issues_found : nat;
  images_without_alt : nat;
  links_without_text : nat
}.

Definition when {A} (b : bool) (x : A) : list A := if b then [x] else [].

(** WordPress is detected by weighted signals. *)
Definition wordpress (htmlLower : string) (doc : Document) : list (string * Detection) :=
  let generator :=
    Sel.attr_of "content"
      (Sel.query (fun e => Sel.tag "meta" e && Sel.attr_eq "name" "generator" e) doc) in
  let signals :=
    when (JS.includes htmlLower "wp-content") (30%Z, "wp-content path found")
    ++ when (JS.includes htmlLower "wp-includes") (25%Z, "wp-includes path found")
    ++ when (match generator with
             | Some g => JS.includes (JS.toLowerCase g) "wordpress"
             | None => false
             end) (40%Z, "WordPress generator meta tag") in
  let wp_score := fold_left Z.add (map fst signals) 0%Z in
  when (0 <? wp_score)%Z
       ("WordPress", mkDetection (Z.min wp_score 100) (map snd signals) (30 <=? wp_score)%Z).

Definition detectCms (htmlLower : string) (doc : Document) : list (string * Detection) :=
  wordpress htmlLower doc
  ++ when (JS.includes htmlLower "shopify" || JS.includes htmlLower "cdn.shopify")
          ("Shopify", mkDetection 85 ["Shopify platform detected"] true)
  ++ when (JS.includes htmlLower "drupal")
          ("Drupal", mkDetection 80 ["Drupal references found"] true).

Definition detectAnalytics (htmlLower : string) : list (string * Detection) :=
  when (JS.includes htmlLower "google-analytics" || JS.includes htmlLower "gtag("
        || JS.includes htmlLower "ga(")
       ("Google Analytics", mkDetection 90 ["Google Analytics script detected"] true)
  ++ when (JS.includes htmlLower "googletagmanager")
          ("Google Tag Manager", mkDetection 90 ["GTM script detected"] true)
  ++ when (JS.includes htmlLower "facebook.net" || JS.includes htmlLower "fbq(")
          ("Facebook Pixel", mkDetection 85 ["Facebook tracking detected"] true).

Definition headingTags : list string := ["h1"; "h2"; "h3"; "h4"; "h5"; "h6"].

Definition importantNames : list string :=
  ["description"; "keywords"; "author"; "viewport"; "robots"].

Definition important_meta (doc : Document) : gmap string string :=
  fold_left
    (fun m meta =>
       let name := JS.str_or (JS.or_else (attr "name" meta) "") (JS.or_else (attr "property" meta) "") in
       let content := JS.or_else (attr "content" meta) "" in
       if JS.truthy name && JS.truthy content
          && JS.arr_includes importantNames (JS.toLowerCase name)
       then <[ JS.toLowerCase name := JS.substring0 100 content ]> m
       else m)
    (Sel.query (Sel.tag "meta") doc) ∅.

Definition formDetail (form : Elem) : FormDetail :=
  {| fd_action := JS.or_else (attr "action" form) "";
     fd_method := JS.or_else (attr "method" form) "GET";
     fd_inputs := length (Sel.find (Sel.tag "input") form);
     fd_textareas := length (Sel.find (Sel.tag "textarea") form);
     fd_selects := length (Sel.find (Sel.tag "select") form);
     fd_buttons := length (Sel.find (fun e => Sel.tag "button" e
                                     || (Sel.tag "input" e && Sel.attr_eq "type" "submit" e)) form) |}.

(** [Math.max(0, 100 - accessibility_issues * 5)] *)
Definition accessibilityScore (issues : nat) : Z :=
  Num.max 0 (100 - Z.of_nat issues * 5)%Z.

Definition analyze (URLp : UrlParser) (html : string) (doc : Document) (targetUrl : string)
    : Result Body :=
  links ← cheerio_links URLp full_text doc targetUrl;
  let htmlLower := JS.toLowerCase html in
  let systems := detectCms htmlLower doc in
  let tools := detectAnalytics htmlLower in
  let counts := map (fun h => (h, length (Sel.query (Sel.tag h) doc))) headingTags in
  let h1 := length (Sel.query (Sel.tag "h1") doc) in
  let images := Sel.query (Sel.tag "img") doc in
  let without_alt := Deep.imagesWithoutAlt images in
  let details := map formDetail (Sel.query (Sel.tag "form") doc) in
  let anchors := Sel.query (Sel.tag "a") doc in
  let unnamed :=
    length (List.filter (fun link => negb (JS.truthy (JS.trim (el_text link)))
                                   && negb (JS.truthy_opt (attr "aria-label" link))) anchors) in
  let issues := without_alt + unnamed in
  let meta := important_meta doc in
  Ok {| url := targetUrl;
        status_ := "success";
        total_links := length links.1 + length links.2;
        internal_links := links.1;
        external_links := links.2;
        primary_cms := fst <$> List.find (fun s => detected (snd s)) systems;
        detected_systems := systems;
        cms_total_detected := length (List.filter (fun s => detected (snd s)) systems);
        detected_tools := tools;
        tools_total_detected := length (List.filter (fun s => detected (snd s)) tools);
        headings := counts;
        content_sample :=
          map (fun h => (h, JS.slice0 3 (map (fun el => JS.substring0 50 (JS.trim (el_text el)))
                                            (Sel.query (Sel.tag h) doc)))) headingTags;
        total_headings := fold_left Nat.add (map snd counts) 0;
        has_h1 := 0 <? h1;
        multiple_h1 := 1 <? h1;
        total_images := length images;
        with_alt_text := length images - without_alt;
        missing_alt_text := without_alt;
        total_forms := length details;
        form_details := details;
        total_inputs := fold_left Nat.add (map fd_inputs details) 0;
        total_buttons := fold_left Nat.add (map fd_buttons details) 0;
        email_links := length (List.filter (Sel.attr_prefix "href" "mailto:") anchors);
        phone_links := length (List.filter (Sel.attr_prefix "href" "tel:") anchors);
        total_meta_tags := length (Sel.query (Sel.tag "meta") doc);
        important_tags := meta;
        has_description := bool_decide (is_Some (meta !! "description"));
        has_viewport := bool_decide (is_Some (meta !! "viewport"));
        accessibility_score := accessibilityScore issues;
        issues_found := issues;
        images_without_alt := without_alt;
        links_without_text :=
          length (List.filter (fun link => negb (JS.truthy (JS.trim (el_text link)))) anchors) |}.

Section Handler.

Variable URLp : UrlParser.
Variable net : Transport.
Variable load : string -> Result Document.

Definition POST (rq : ApiRequest) : World -> Reply Body * World := fun w =>
  let handler : IO (Reply Body) :=
    match json_url rq with
    | None => mret (JsonError 400 "URL is required")
    | Some url =>
        if negb (JS.truthy url) then mret (JsonError 400 "URL is required")
        else
          let targetUrl := withScheme url in
          response ← fetch URLp net (mkRequest targetUrl chromeHeaders false);
          if negb (ok response) then throw (http_error response)
          else
            results ← lift (doc ← load (body response);
                            analyze URLp (body response) doc targetUrl);
            mret (Json 200 results)
    end in
  match handler w with
  | (Ok reply, w') => (reply, w')
  | (Throw e, w') => (JsonError 500 ("Analysis failed: " +:+ err_message e), w')
  end.

End Handler.
End FullAnalysis.

(* ================================================================== *)
(** * Deep analysis (app/api/analyze-all-links/route.ts) *)
(* ================================================================== *)

Module DeepAnalysis.

(** An entry of [analyzed_data], without its element counts. *)
Record PageData := mkPage {
  pd_url : string;
  pd_text : string;
  pd_title : string;
  accessibility_score : Z;
  seo_score : Z
}.

(** An entry of [failed_data]. *)
Record Failure := mkFailure {
  fl_url : string;
  fl_text : string;
  fl_error : string
}.

(** The reply, without its [timestamp] and the element totals of its
    [summary]. *)
Record Body := mkBody {
  base_url : string;
  url : string;
  status_ : string;
  total_internal_links : nat;
  analyzed_links : nat;
  failed_links : nat;
  analyzed_data : list PageData;
  failed_data : list Failure;
  average_accessibility_score : Q;
  average_seo_score : Q
}.

Definition average (scores : list Z) : Q :=
  if 0 <? length scores
  then (inject_Z (fold_left Z.add scores 0%Z) / Num.of_nat (length scores))%Q
  else 0%Q.

Section Handler.

Variable URLp : UrlParser.
Variable net : Transport.
Variable load : string -> Result Document.

Definition maxLinksToAnalyze : nat := 15.

(** The body of the loop over [linksToAnalyze]. *)
Definition analyzeLink (acc : list PageData * list Failure) (link : Link)
    : IO (list PageData * list Failure) :=
  io_try
    (response ← fetch URLp net (mkRequest (link_url link) chromeHeaders false);
     if negb (ok response)
     then mret (acc.1, acc.2 ++ [ mkFailure (link_url link) (link_text link)
                                    ("HTTP " +:+ pretty (status response)) ])
     else
       doc ← lift (load (body response));
       mret (acc.1 ++ [ mkPage (link_url link) (link_text link) (link_title link)
                          (Deep.calculateAccessibilityScore doc)
                          (Deep.calculateSEOScore doc) ],
             acc.2))
    (fun error =>
       mret (acc.1, acc.2 ++ [ mkFailure (link_url link) (link_text link) (err_message error) ])).

Fixpoint analyzeLinks (links : list Link) (acc : list PageData * list Failure)
    : IO (list PageData * list Failure) :=
  match links with
  | [] => mret acc
  | link :: rest => acc' ← analyzeLink acc link; analyzeLinks rest acc'
  end.

Definition POST (rq : ApiRequest) : World -> Reply Body * World := fun w =>
  let handler : IO (Reply Body) :=
    match json_url rq with
    | None => mret (JsonError 400 "URL is required")
    | Some url =>
        if negb (JS.truthy url) then mret (JsonError 400 "URL is required")
        else
          match URLp url None with
          | None => mret (JsonError 400 "Invalid URL format")
          | Some targetUrl =>
              mainPageResponse ← fetch URLp net (mkRequest (href targetUrl) chromeHeaders false);
              if negb (ok mainPageResponse)
              then mret (JsonError 400 ("Failed to fetch main page: "
                                        +:+ pretty (status mainPageResponse) +:+ " "
                                        +:+ statusText mainPageResponse))
              else
                internalLinks ← lift (doc ← load (body mainPageResponse);
                                      deep_links URLp doc targetUrl);
                let linksToAnalyze := JS.slice0 maxLinksToAnalyze internalLinks in
                '(analyzedData, failedData) ← analyzeLinks linksToAnalyze ([], []);
                mret (Json 200
                        {| base_url := deep_base targetUrl;
                           url := href targetUrl;
                           status_ := "completed";
                           total_internal_links := length internalLinks;
                           analyzed_links := length analyzedData;
                           failed_links := length failedData;
                           analyzed_data := analyzedData;
                           failed_data := failedData;
                           average_accessibility_score :=
                             average (map accessibility_score analyzedData);
                           average_seo_score := average (map seo_score analyzedData) |})
          end
    end in
  match handler w with
  | (Ok reply, w') => (reply, w')
  | (Throw e, w') => (JsonError 500 ("Analysis failed: " +:+ err_message e), w')
  end.

End Handler.
End DeepAnalysis.


(* ================================================================== *)
(** * The element counts of the deep analysis (route.ts) *)
(* ================================================================== *)

Module DeepElements.

(** The selectors the handler hands to cheerio. *)
Inductive Selector :=
| SelButtons       (* button, input of type button or submit, .btn, role button *)
| SelForms         (* form *)
| SelImages        (* img *)
| SelHeadings      (* h1 to h6 *)
| SelVideos        (* video, iframes of the three video hosts *)
| SelNumberInputs  (* input of type number or range *)
| SelBanners       (* the nine banner selectors, joined *)
| SelCarousels.    (* the eleven carousel selectors, joined *)

(** [elements] of an entry of [analyzed_data]. *)
Record Elements := mkElements {
  buttons : nat;
  forms : nat;
  images : nat;
  headings : nat;
  videos : nat;
  calculators : nat;
  banners : nat;
  carousels : nat
}.

(** The element totals of [summary]. *)
Record Summary := mkSummary {
  total_buttons : nat;
  total_forms : nat;
  total_images : nat;
  total_headings : nat;
  total_videos : nat;
  total_calculators : nat;
  total_banners : nat;
  total_carousels : nat;
  pages_with_forms : nat;
  pages_with_images : nat
}.

Section Page.

(** [page$(selector)] and [page$(el).find(selector)]. *)
Variable select : Selector -> Document -> list Elem.
Variable find : Selector -> Elem -> list Elem.

Definition calculatorKeywords : list string :=
  ["calculat"; "compute"; "estimate"; "rate"; "loan"; "mortgage"; "tax"; "budget"; "cost"].

Definition bannerWords : list string := ["banner"; "hero"; "header"].

(** A case-insensitive match of one of the words. *)
Definition mentions (words : list string) (s : string) : bool :=
  existsb (JS.includes (JS.toLowerCase s)) words.

Definition isCalculator (form : Elem) : bool :=
  let numberInputs := length (find SelNumberInputs form) in
  let hasCalculatorKeywords := mentions calculatorKeywords (JS.toLowerCase (el_text form)) in
  (2 <=? numberInputs) || hasCalculatorKeywords.

Definition isBannerImage (img : Elem) : bool :=
  let src := JS.or_else (attr "src" img) "" in
  let alt := JS.or_else (attr "alt" img) "" in
  let className := JS.or_else (attr "class" img) "" in
  mentions bannerWords src || mentions bannerWords alt || mentions bannerWords className.

Definition elements (doc : Document) : Elements :=
  let forms := select SelForms doc in
  {| buttons := length (select SelButtons doc);
     forms := length forms;
     images := length (select SelImages doc);
     headings := length (select SelHeadings doc);
     videos := length (select SelVideos doc);
     calculators := length (List.filter isCalculator forms);
     banners := length (select SelBanners doc)
                + length (List.filter isBannerImage (select SelImages doc));
     carousels := length (select SelCarousels doc) |}.

End Page.

(** [analyzedData.reduce((sum, page) => sum + (page.elements?.f || 0), 0)] *)
Definition total (f : Elements -> nat) (pages : list Elements) : nat :=
  fold_left (fun sum page => sum + f page) pages 0.

(** [analyzedData.filter((page) => (page.elements?.f || 0) > 0).length] *)
Definition pages_with (f : Elements -> nat) (pages : list Elements) : nat :=
  length (List.filter (fun page => 0 <? f page) pages).

Definition summary (pages : list Elements) : Summary :=
  {| total_buttons := total buttons pages;
     total_forms := total forms pages;
     total_images := total images pages;
     total_headings := total headings pages;
     total_videos := total videos pages;
     total_calculators := total calculators pages;
     total_banners := total banners pages;
     total_carousels := total carousels pages;
     pages_with_forms := pages_with forms pages;
     pages_with_images := pages_with images pages |}.

End DeepElements.

(* ================================================================== *)
(** * The page: URL validation and the outcome of an analysis *)
(* ================================================================== *)

Module UI.

(** What the page reads of a reply to decide what to show: the [error]
    field, the [internal_links] array and the [forms_found] number, each
    [None] when the reply has no such field. *)
Record Data := mkData {
  error : option string;
  internal_links : option (list Link);
  forms_found : option Z
}.

Inductive AnalysisType := quick | full | deep | form.

Definition type_name (type : AnalysisType) : string :=
  match type with
  | quick => "quick"
  | full => "full"
  | deep => "deep"
  | form => "form"
  end.

Definition endpoint (type : AnalysisType) : string :=
  match type with
  | quick => "/api/quick-links"
  | full => "/api/analyze"
  | deep => "/api/analyze-all-links"
  | form => "/api/form-validation"
  end.

(** The state of the component that [handleAnalysis] reads and writes. *)
Record State := mkState {
  url : string;
  loading : bool;
  loadingType : string;
  error_ : string;
  results : option Data;
  activeTab : string;
  progress : Q
}.

Section Page.

Variable URLp : UrlParser.

(** The API: what [fetch(endpoint, ...)] followed by [response.json()]
    yields for an endpoint and the submitted URL. *)
Variable server : string -> string -> Result Data.

(** [validateUrl]: the same normalisation as the handlers', then a parse
    and a check of the host name. *)
Definition validateUrl (inputUrl : string) : option string :=
  let processedUrl := withScheme inputUrl in
  match new_URL URLp processedUrl None with
  | Ok urlObj =>
      if negb (JS.truthy (hostname urlObj)) || (String.length (hostname urlObj) <? 3)
      then None
      else Some processedUrl
  | Throw _ => None
  end.

(** Truthiness of a possibly absent number. *)
Definition truthy_num (n : option Z) : bool :=
  match n with
  | Some z => negb (z =? 0)%Z
  | None => false
  end.

(** [data.error && !data.internal_links && !data.forms_found] *)
Definition shows_error (data : Data) : bool :=
  JS.truthy_opt (error data) && negb (bool_decide (is_Some (internal_links data)))
  && negb (truthy_num (forms_found data)).

Definition invalidUrlMessage : string :=
  "Please enter a valid URL (e.g., example.com or https://example.com)".

(** The state after [handleAnalysis(type)] has run to completion.  The
    progress timer only writes [progress], which the [finally] block
    resets. *)
Definition handleAnalysis (type : AnalysisType) (st : State) : State :=
  match validateUrl (url st) with
  | Some validatedUrl =>
      if negb (JS.truthy validatedUrl)
      then mkState (url st) (loading st) (loadingType st) invalidUrlMessage
                   (results st) (activeTab st) (progress st)
      else
        (* setLoading(true) ... setProgress(0) *)
        let st := mkState (url st) true (type_name type) "" None (activeTab st) 0 in
        let st :=
          match server (endpoint type) validatedUrl with
          | Ok data =>
              if shows_error data
              then mkState (url st) (loading st) (loadingType st)
                           (default "" (error data)) (results st) (activeTab st) (progress st)
              else
                let st := mkState (url st) (loading st) (loadingType st) (error_ st)
                                  (Some data) "overview" 100 in
                if bool_decide (is_Some (internal_links data))
                   || bool_decide (is_Some (forms_found data))
                then mkState (url st) (loading st) (loadingType st) ""
                             (results st) (activeTab st) (progress st)
                else st
          | Throw err =>
              mkState (url st) (loading st) (loadingType st)
                      ("Analysis failed: " +:+ err_message err)
                      (results st) (activeTab st) (progress st)
          end in
        (* finally *)
        mkState (url st) false "" (error_ st) (results st) (activeTab st) 0
  | None =>
      mkState (url st) (loading st) (loadingType st) invalidUrlMessage
              (results st) (activeTab st) (progress st)
  end.

End Page.

(** The replies of the four handlers as the page reads them. *)
Definition view_quick (r : Reply QuickLinks.Body) : Data :=
  match r with
  | Json _ b => mkData (QuickLinks.error b) (Some (QuickLinks.internal_links b)) None
  | JsonError _ msg => mkData (Some msg) None None
  end.

Definition view_full (r : Reply FullAnalysis.Body) : Data :=
  match r with
  | Json _ b => mkData None (Some (FullAnalysis.internal_links b)) None
  | JsonError _ msg => mkData (Some msg) None None
  end.

Definition view_deep (r : Reply DeepAnalysis.Body) : Data :=
  match r with
  | Json _ b => mkData None None None
  | JsonError _ msg => mkData (Some msg) None None
  end.

Definition view_form (r : Reply FormValidation.Body) : Data :=
  match r with
  | Json _ b => mkData (FormValidation.error b) None (Some (FormValidation.forms_found b))
  | JsonError _ msg => mkData (Some msg) None None
  end.

End UI.

(* ================================================================== *)
(** * Reference instances of the runtime services *)
(* ================================================================== *)

Module Ref.

(** An element with a tag, attributes and text only. *)
Definition el (tag : string) (attrs : list (string * string)) (text : string) : Elem :=
  MkElem tag attrs text text None [].

(** An anchor. *)
Definition a (h text : string) : Elem := el "a" [("href", h)] text.

(** A form field of the given type. *)
Definition field (type : string) : Elem := el "input" [("type", type)] "".

(** A form with the given inner HTML and fields. *)
Definition form (html : string) (fields : list Elem) : Elem :=
  MkElem "form" [] "" html None fields.

(** A network on which every request is answered with the same status. *)
Definition answering (code : Z) (reason page : string) : Transport :=
  fun _ _ => Responded (mkResponse code reason page).

(** A network that refuses the first [n] requests with HTTP 403 and serves
    [page] afterwards. *)
Definition blockedThen (n : nat) (page : string) : Transport :=
  fun i _ => if i <? n then Responded (mkResponse 403 "Forbidden" "")
             else Responded (mkResponse 200 "OK" page).

(** A network on which every connection fails. *)
Definition unreachable : Transport :=
  fun _ _ => Failed (TypeError_ "fetch failed").

(** A random source that always returns the same number. *)
Definition constant (q : Q) : nat -> Q := fun _ => q.

(** A parser that maps every page to the same document. *)
Definition loading (doc : Document) : string -> Result Document := fun _ => Ok doc.

(** A regular expression engine that finds nothing. *)
Definition noMatch : RegexEngine := fun _ _ => [].

(** A regular expression engine with the same matches for every pattern. *)
Definition matching (ms : list RegexMatch) : RegexEngine :=
  fun p _ => match p with PatQuotedAnchor | PatAnchorOpen => ms | _ => [] end.

Definition request (url : string) : ApiRequest :=
  mkApiRequest "http://localhost:3000/api" (Some url).

(** A home page whose first link leads back to itself, followed by ten
    links to other pages of the site. *)
Definition homePage : Document :=
  a "/" "Home"
  :: map (fun i => a ("/page" +:+ pretty i) ("Page " +:+ pretty i)) (seq 1 10).

(** The same page without the link back to itself. *)
Definition innerPage : Document :=
  map (fun i => a ("/page" +:+ pretty i) ("Page " +:+ pretty i)) (seq 1 10).

(** The scenario of the specification: a relative link and a link to
    another site. *)
Definition twoLinks : Document :=
  [ a "/about" "About"; a "https://other.com" "Other" ].

(** Two anchors for the same place: a fragment-only link, then a link that
    spells out the path. *)
Definition fragmentFirst : Document :=
  [ a "#top" "Skip"; a "/#top" "Top" ].

(** Two anchors for the home page of [https://x.com]: its absolute URL
    without the final slash, then the root path. *)
Definition homeTwice : Document :=
  [ a "https://x.com" "Home"; a "/" "Start" ].

(** A link to a look-alike host and a link to the site over plain http. *)
Definition lookAlike : Document :=
  [ a "https://x.com.evil.org/" "Evil"; a "http://x.com/about" "About" ].

(** A page with one login form that fails every accessibility check but
    the one on input types. *)
Definition loginPage : Document :=
  [ form "Login to your account" [ field "email"; field "password" ] ].

(** A page without [h1], meta description and viewport tag that passes
    the other SEO checks. *)
Definition seoPage : Document :=
  [ el "html" [("lang", "en")] "";
    el "title" [] "Xerauditron: website audit reports";
    el "link" [("rel", "canonical"); ("href", "https://x.com/")] "";
    el "meta" [("property", "og:title"); ("content", "Xerauditron")] "";
    el "script" [("type", "application/ld+json")] "{}";
    el "h2" [] "Reports";
    el "img" [("src", "/logo.png"); ("alt", "Logo")] "";
    a "/about" "About" ].

End Ref.

(* ================================================================== *)
(** * Specification vocabulary *)
(* ================================================================== *)

(** The host name of [u] equals the host name of [base]. *)
Definition same_hostname (URLp : UrlParser) (u base : string) : Prop :=
  exists lu bu, URLp u None = Some lu /\ URLp base None = Some bu
                /\ hostname lu = hostname bu.

(** The absolute URL an anchor's [href] resolves to, when the anchor passes
    the guard against non-navigable targets. *)
Definition resolved (URLp : UrlParser) (base : string) (h : string) : option string :=
  if skipped_href h then None else href <$> URLp h (Some base).

Definition anchor_target (URLp : UrlParser) (base : string) (el : Elem) : option string :=
  h ← attr "href" el; resolved URLp base h.

(** The entry recorded for an anchor that resolves to [u]. *)
Definition link_of (norm : string -> string) (el : Elem) (u : string) : Link :=
  {| link_url := u;
     link_text := norm (el_text el);
     link_title := JS.or_else (attr "title" el) "" |}.

(** The hostname partition of a pair of link lists: the URLs of the first
    list have the host name [bd], those of the second list another one, and
    no list holds a URL twice. *)
Definition partitioned (URLp : UrlParser) (bd : string) (acc : list Link * list Link) : Prop :=
  Forall (fun l => exists lu, URLp (link_url l) None = Some lu /\ hostname lu = bd) acc.1
  /\ Forall (fun l => exists lu, URLp (link_url l) None = Some lu /\ hostname lu <> bd) acc.2
  /\ NoDup (link_url <$> acc.1)
  /\ NoDup (link_url <$> acc.2).

(** The entry the pattern tier records for a match that resolves to [u]. *)
Definition link_of_match (m : RegexMatch) (u : string) : Link :=
  {| link_url := u;
     link_text := quick_text (JS.or_else (snd m) "");
     link_title := "" |}.

(** The absolute URL a match of the pattern tier resolves to. *)
Definition match_target (URLp : UrlParser) (base : string) (m : RegexMatch) : option string :=
  resolved URLp base (fst m).

(** The string the deep analysis keeps for an [href]: an absolute one on the
    site as it is written, a root-relative one appended to the base, any
    other one resolved against the page; none for the targets it skips. *)
Definition deep_stored (URLp : UrlParser) (targetHref baseUrl h : string) : option string :=
  if negb (JS.truthy h) then None
  else if JS.startsWith h "http" then (if JS.startsWith h baseUrl then Some h else None)
  else if JS.startsWith h "/" then Some (baseUrl +:+ h)
  else if JS.startsWith h "#" || JS.startsWith h "mailto:" || JS.startsWith h "tel:"
       then None
  else href <$> URLp h (Some targetHref).

(** The string under which the deep analysis records an anchor, when it
    records one: the stored string has to begin with the base. *)
Definition deep_target (URLp : UrlParser) (targetHref baseUrl : string) (el : Elem)
    : option string :=
  h ← attr "href" el;
  u ← deep_stored URLp targetHref baseUrl h;
  if JS.startsWith u baseUrl then Some u else None.

(** The entry the deep analysis records for an anchor stored as [u]. *)
Definition deep_link_of (el : Elem) (u : string) : Link :=
  {| link_url := u;
     link_text := JS.substring0 100 (JS.trim (el_text el));
     link_title := JS.substring0 100 (JS.or_else (attr "title" el) "") |}.

(** The invariant of the pattern tier's loop: the lists are partitioned by
    host name and every recorded URL is in [foundUrls]. *)
Definition text_inv (URLp : UrlParser) (bd : string) (st : TextState) : Prop :=
  partitioned URLp bd (st.1.2, st.2)
  /\ (forall u, u ∈ link_url <$> (st.1.2 ++ st.2) -> u ∈ st.1.1).

(** The state of the pattern tier after its loops. *)
Definition text_run (URLp : UrlParser) (rx : RegexEngine) (html baseUrl bd : string)
    : TextState :=
  fold_left (text_link_step URLp baseUrl bd) (text_matches rx html) (∅, [], []).

(** The hostname partition invariant of a pair of extracted lists: they
    share no link, and a link is internal exactly when the host name of its
    URL is the host name of the base URL. *)
Definition hostname_partition (URLp : UrlParser) (base : string)
    (internal external : list Link) : Prop :=
  (forall l, l ∈ internal -> l ∉ external)
  /\ (forall l, l ∈ internal ++ external ->
                (l ∈ internal <-> same_hostname URLp (link_url l) base)).

(** [x] is the first element of [xs] whose key is [k]. *)
Definition first_with {A K} (key : A -> option K) (k : K) (x : A) (xs : list A) : Prop :=
  exists pre post, xs = pre ++ x :: post /\ key x = Some k
                   /\ Forall (fun y => key y <> Some k) pre.

(** The number of requests handed to the network. *)
Definition sent (w : World) : nat := length (requests w).

(** How an iteration of [fetchWithStrategies] ends, given what the network
    did with its request. *)
Definition settle (out : FetchOutcome) : Iter :=
  match out with
  | Responded r => if ok r then Return r else Next (Some (http_error r))
  | Failed e => Next (Some e)
  end.

(** A computation that returns normally from every state. *)
Definition total_io {A} (m : IO A) : Prop :=
  forall w, exists a w', m w = (Ok a, w').

(** A reply of the quick links that carries the estimator's data: HTTP 200,
    labelled as an estimate, with a total that matches its lists. *)
Definition quick_estimate (r : Reply QuickLinks.Body) : Prop :=
  exists b, r = Json 200 b
            /\ QuickLinks.method b = "intelligent_estimation"
            /\ QuickLinks.status_ b = "success"
            /\ QuickLinks.error b = None
            /\ QuickLinks.total b
               = length (QuickLinks.internal_links b) + length (QuickLinks.external_links b).

(** A reply of the form validation that carries the estimator's data. *)
Definition forms_estimate (r : Reply FormValidation.Body) : Prop :=
  exists b, r = Json 200 b
            /\ FormValidation.method b = "intelligent_estimation"
            /\ FormValidation.status_ b = "success"
            /\ FormValidation.error b = None.

(** A reply that is an error object under one of the given status codes. *)
Definition error_reply {B} (codes : list Z) (r : Reply B) : Prop :=
  exists code msg, r = JsonError code msg /\ In code codes.

(** The request carries no URL: the field is absent, [null] or empty. *)
Definition missing_url (rq : ApiRequest) : Prop :=
  JS.truthy_opt (json_url rq) = false.

(** The request carries a URL that the [URL] constructor rejects. *)
Definition unparseable_url (URLp : UrlParser) (rq : ApiRequest) : Prop :=
  exists url, json_url rq = Some url /\ JS.truthy url = true /\ URLp url None = None.

(** A request for [url] that carries the header set of strategy [s]. *)
Definition request_of (url : string) (s : Strategy) (req : Request) : Prop :=
  req_url req = url /\ profile (req_headers req) = Some s.

(** The strategy of the [i]-th iteration of [fetchWithStrategies], counting
    through the retries. *)
Definition strategy_at (i : nat) : option Strategy := strategies !! (i mod 3).

(** The network did not answer with a 2xx response. *)
Definition unsuccessful (out : FetchOutcome) : Prop :=
  match out with
  | Responded r => ok r = false
  | Failed _ => True
  end.


(** ** Effects, invariants and reports *)

(** [w'] extends [w] by at most [k] requests, each satisfying [P]. *)
Definition sends (P : Request -> Prop) (k : nat) (w w' : World) : Prop :=
  exists new, requests w' = new ++ requests w /\ length new <= k /\ Forall P new.

(** [w'] extends [w] by at most [k] delays, each satisfying [P]. *)
Definition sleeps (P : Q -> Prop) (k : nat) (w w' : World) : Prop :=
  exists ds, slept w' = ds ++ slept w /\ length ds <= k /\ Forall P ds.

(** A delay drawn as [Math.random() * width + floor]. *)
Definition jitter (rnd : nat -> Q) (width floor : Q) (d : Q) : Prop :=
  exists n, d = (rnd n * width + floor)%Q.

(** A random source that stays within [0, 1). *)
Definition unit_interval (rnd : nat -> Q) : Prop :=
  forall n, (0 <= rnd n)%Q /\ (rnd n < 1)%Q.

(** A computation that neither uses the network nor sleeps. *)
Definition quiet {A} (m : IO A) : Prop :=
  forall w res w', m w = (res, w') -> requests w' = requests w /\ slept w' = slept w.

(** A computation that returns, whatever the world, with a result that
    satisfies [post]. *)
Definition returns {A} (m : IO A) (post : A -> Prop) : Prop :=
  forall w, exists a w', m w = (Ok a, w') /\ post a.

(** A record of the form extraction that is consistent with the fields it
    was read from. *)
Definition recorded_form (pageUrl : string) (f : Forms.FormInfo) : Prop :=
  Forms.page_url f = pageUrl
  /\ (2 <= Forms.input_count f)%Z
  /\ NoDup (Forms.input_types f)
  /\ (Forms.has_labels f = false -> (Forms.accessibility_score f <= 80)%Z)
  /\ exists fields,
       Forms.inputs f = Some fields
       /\ Forms.input_count f = Z.of_nat (length fields)
       /\ (forall t, t ∈ Forms.input_types f <-> t ∈ Forms.in_type <$> fields).

(** The eleven names the classifier can return. *)
Definition classifications : list string :=
  ["Login Form"; "Registration Form"; "Contact Form"; "Newsletter Signup"; "Search Form";
   "Payment Form"; "Booking Form"; "Quote Request Form"; "Support Form"; "Feedback Form";
   "General Form"].

(** A request to the page under analysis or to a URL on its host. *)
Definition on_site (URLp : UrlParser) (targetUrl : string) (r : Request) : Prop :=
  req_url r = targetUrl \/ same_hostname URLp (req_url r) targetUrl.

(** A delay of the crawl: the politeness delay before a page, or the delay
    before a retry. *)
Definition crawl_delay (rnd : nat -> Q) (d : Q) : Prop :=
  jitter rnd 1000 500 d \/ jitter rnd 2000 1000 d.

(** What holds of the variables of the crawl after the main page and
    between two candidates. *)
Definition crawl_inv (st : FormValidation.Crawl) : Prop :=
  1 <= FormValidation.successfulPages st <= FormValidation.crawledPages st
  /\ FormValidation.crawledPages st <= FormValidation.maxPages
  /\ size (FormValidation.processedUrls st) = FormValidation.crawledPages st
  /\ exists pages,
       NoDup pages /\ length pages = FormValidation.successfulPages st
       /\ (forall p, p ∈ pages -> p ∈ FormValidation.processedUrls st)
       /\ Forall (fun f => exists p, p ∈ pages /\ recorded_form p f)
                 (FormValidation.allForms st).

(** An entry of the estimated [detailed_forms]. *)
Definition estimated_form (url : string) (formTypes : list string) (i : nat)
    (f : Forms.FormInfo) : Prop :=
  Forms.form_index f = i
  /\ JS.startsWith (Forms.page_url f) url = true
  /\ (2 <= Forms.input_count f <= 7)%Z
  /\ 2 <= length (Forms.input_types f) <= 4
  /\ (Forms.form_method f = "POST" \/ Forms.form_method f = "GET")
  /\ Forms.form_classification f ∈ formTypes
  /\ (60 <= Forms.accessibility_score f <= 99)%Z
  /\ Forms.inputs f = None.

(** The host names the form estimator takes for shops. *)
Definition is_ecommerce (domain : string) : bool :=
  JS.includes domain "shop" || JS.includes domain "store" || JS.includes domain "buy".

(** The host names the form estimator takes for companies. *)
Definition is_business (domain : string) : bool :=
  JS.includes domain "business" || JS.includes domain "company" || JS.includes domain "corp".

(** The form types the estimator draws from, by host name. *)
Definition form_types (domain : string) : list string :=
  ["Contact Form"; "Newsletter Signup"; "Search Form"]
  ++ (if is_ecommerce domain then ["Registration Form"; "Login Form"; "Payment Form"] else [])
  ++ (if is_business domain then ["Quote Request Form"; "Support Form"] else []).

(** What the form estimator returns on a URL that parses: the breakdown has
    exactly the form types of the host as keys, and the entry at position [i]
    of [detailed_forms] is an estimated form of index [i] over these types. *)
Definition estimated (url : string) (u : Url) (est : FormValidation.Estimates) : Prop :=
  (if is_ecommerce (hostname u)
   then (5 <= FormValidation.est_forms_found est <= 9)%Z
        /\ (3 <= FormValidation.est_forms_with_multiple_inputs est <= 6)%Z
   else (2 <= FormValidation.est_forms_found est <= 6)%Z
        /\ (1 <= FormValidation.est_forms_with_multiple_inputs est <= 4)%Z)
  /\ (FormValidation.est_forms_with_multiple_inputs est
      < FormValidation.est_forms_found est)%Z
  /\ Z.of_nat (length (FormValidation.est_detailed_forms est))
     = FormValidation.est_forms_with_multiple_inputs est
  /\ (5 <= FormValidation.est_total_pages_crawled est <= 14)%Z
  /\ FormValidation.est_pages_with_forms est
     = map Forms.page_url (FormValidation.est_detailed_forms est)
  /\ map_Forall (fun _ c => (1 <= c <= 2)%Z) (FormValidation.est_form_types_breakdown est)
  /\ (forall t, is_Some (FormValidation.est_form_types_breakdown est !! t)
                 <-> t ∈ form_types (hostname u))
  /\ Forall2 (estimated_form url (form_types (hostname u)))
             (seq 0 (length (FormValidation.est_detailed_forms est)))
             (FormValidation.est_detailed_forms est).

(** The number of forms of a type. *)
Definition count_type (t : string) (forms : list Forms.FormInfo) : nat :=
  length (List.filter (fun f => String.eqb (Forms.form_classification f) t) forms).

(** The report of a crawl whose variables satisfy the invariant. *)
Definition consistent_report (b : FormValidation.Body) : Prop :=
  FormValidation.forms_found b = Z.of_nat (length (FormValidation.detailed_forms b))
  /\ FormValidation.forms_with_multiple_inputs b = FormValidation.forms_found b
  /\ (exists s, FormValidation.successful_pages b = Some s
                /\ (1 <= s <= FormValidation.total_pages_crawled b)%Z
                /\ (Z.of_nat (length (FormValidation.pages_with_forms b)) <= s)%Z)
  /\ (FormValidation.total_pages_crawled b <= 10)%Z
  /\ NoDup (FormValidation.pages_with_forms b)
  /\ (forall p, p ∈ FormValidation.pages_with_forms b
                <-> p ∈ Forms.page_url <$> FormValidation.detailed_forms b)
  /\ (forall t, FormValidation.form_types_breakdown b !! t
                = if count_type t (FormValidation.detailed_forms b) =? 0 then None
                  else Some (Z.of_nat (count_type t (FormValidation.detailed_forms b))))
  /\ Forall (fun f => (2 <= Forms.input_count f)%Z) (FormValidation.detailed_forms b).

(** The URLs of the pages a run of the loop has handled. *)
Definition handled (acc : list DeepAnalysis.PageData * list DeepAnalysis.Failure)
    : list string :=
  (DeepAnalysis.pd_url <$> acc.1) ++ (DeepAnalysis.fl_url <$> acc.2).

(** An analysed page whose two scores lie between 0 and 100. *)
Definition scored (p : DeepAnalysis.PageData) : Prop :=
  (0 <= DeepAnalysis.accessibility_score p <= 100)%Z
  /\ (0 <= DeepAnalysis.seo_score p <= 100)%Z.

(** A request of the deep analysis: to the page under analysis, or to a
    URL that begins with its origin. *)
Definition deep_request (target : Url) (r : Request) : Prop :=
  req_url r = href target \/ JS.startsWith (req_url r) (deep_base target) = true.

(** The accounting of a completed deep analysis. *)
Definition deep_accounting (target : Url) (b : DeepAnalysis.Body) : Prop :=
  DeepAnalysis.base_url b = deep_base target
  /\ DeepAnalysis.url b = href target
  /\ DeepAnalysis.status_ b = "completed"
  /\ DeepAnalysis.analyzed_links b = length (DeepAnalysis.analyzed_data b)
  /\ DeepAnalysis.failed_links b = length (DeepAnalysis.failed_data b)
  /\ DeepAnalysis.analyzed_links b + DeepAnalysis.failed_links b
     = Nat.min DeepAnalysis.maxLinksToAnalyze (DeepAnalysis.total_internal_links b)
  /\ NoDup (handled (DeepAnalysis.analyzed_data b, DeepAnalysis.failed_data b))
  /\ Forall (fun u => JS.startsWith u (deep_base target) = true)
            (handled (DeepAnalysis.analyzed_data b, DeepAnalysis.failed_data b))
  /\ Forall scored (DeepAnalysis.analyzed_data b)
  /\ (0 <= DeepAnalysis.average_accessibility_score b)%Q
  /\ (DeepAnalysis.average_accessibility_score b <= 100)%Q
  /\ (0 <= DeepAnalysis.average_seo_score b)%Q
  /\ (DeepAnalysis.average_seo_score b <= 100)%Q.

(** A detection entry with a confidence in (0, 100], some evidence, and a
    confidence of at least 30 when it counts as detected. *)
Definition sound_detection (s : string * FullAnalysis.Detection) : Prop :=
  (0 < FullAnalysis.confidence s.2 <= 100)%Z
  /\ FullAnalysis.evidence s.2 <> []
  /\ (FullAnalysis.detected s.2 = true <-> (30 <= FullAnalysis.confidence s.2)%Z).

(** What holds of every report of the full analysis. *)
Definition consistent_analysis (b : FullAnalysis.Body) : Prop :=
  FullAnalysis.status_ b = "success"
  /\ FullAnalysis.total_links b
     = length (FullAnalysis.internal_links b) + length (FullAnalysis.external_links b)
  /\ FullAnalysis.with_alt_text b + FullAnalysis.missing_alt_text b
     = FullAnalysis.total_images b
  /\ FullAnalysis.images_without_alt b = FullAnalysis.missing_alt_text b
  /\ (FullAnalysis.multiple_h1 b = true -> FullAnalysis.has_h1 b = true)
  /\ FullAnalysis.images_without_alt b <= FullAnalysis.issues_found b
  /\ FullAnalysis.issues_found b
     <= FullAnalysis.images_without_alt b + FullAnalysis.links_without_text b
  /\ FullAnalysis.accessibility_score b
     = (if Nat.leb (FullAnalysis.issues_found b) 20
        then 100 - 5 * Z.of_nat (FullAnalysis.issues_found b) else 0)%Z
  /\ (FullAnalysis.primary_cms b = None <-> FullAnalysis.cms_total_detected b = 0)
  /\ FullAnalysis.cms_total_detected b <= length (FullAnalysis.detected_systems b) <= 3
  /\ FullAnalysis.tools_total_detected b = length (FullAnalysis.detected_tools b)
  /\ length (FullAnalysis.detected_tools b) <= 3
  /\ Forall sound_detection (FullAnalysis.detected_systems b)
  /\ Forall sound_detection (FullAnalysis.detected_tools b)
  /\ FullAnalysis.total_forms b = length (FullAnalysis.form_details b)
  /\ map_Forall (fun name content =>
                   name ∈ FullAnalysis.importantNames /\ String.length content <= 100)
                (FullAnalysis.important_tags b).

(** A link whose anchor text is not empty and has at most 100 characters. *)
Definition texted (l : Link) : Prop := 0 < String.length (link_text l) <= 100.

(** A candidate of the crawl that stems from the target [h] of an anchor. *)
Definition candidate_of (URLp : UrlParser) (baseUrl h u : string) : Prop :=
  skipped_href h = false
  /\ exists pu, URLp h (Some baseUrl) = Some pu /\ href pu = u.

(** The User-Agent of a strategy: one of the six browser agents for the
    standard set, the fixed phone or crawler agent otherwise. *)
Definition known_agent (r : Request) : Prop :=
  exists ua, user_agent (req_headers r) = Some ua
             /\ match profile (req_headers r) with
                | Some standard => ua ∈ USER_AGENTS
                | Some mobile =>
                    ua = "Mozilla/5.0 (iPhone; CPU iPhone OS 17_1 like Mac OS X) AppleWebKit/605.1.15 (KHTML, like Gecko) Version/17.1 Mobile/15E148 Safari/604.1"
                | Some crawler =>
                    ua = "Mozilla/5.0 (compatible; Googlebot/2.1; +http://www.google.com/bot.html)"
                | None => False
                end.

(** A string that neither begins nor ends with white space. *)
Definition trimmed (s : string) : Prop :=
  JS.trimStart s = s /\ JS.trimStart (String.rev s) = String.rev s.

(** A reply that carries only an error. *)
Definition is_error {B} (r : Reply B) : bool :=
  match r with
  | Json _ _ => false
  | JsonError _ _ => true
  end.

(* ================================================================== *)
(** * Properties of the score calculators *)
(* ================================================================== *)

Section ScoreBounds.

(** Closes an inequality between rational constants. *)
Ltac qconst := apply Qle_bool_imp_le; reflexivity.

Lemma nonneg_plus (a b : Q) : (0 <= a)%Q -> (0 <= b)%Q -> (0 <= a + b)%Q.
Proof.
  intros Ha Hb. apply Qle_trans with (0 + 0)%Q; [qconst|].
  apply Qplus_le_compat; assumption.
Qed.

Lemma lt_true (x y : Q) : Num.lt x y = true -> (x < y)%Q.
Proof.
  unfold Num.lt. intros H. apply negb_true_iff in H.
  apply Qnot_le_lt. intros Hle. apply Qle_bool_iff in Hle. congruence.
Qed.

Lemma proportional_nonneg (total missing : nat) (weight : Q) :
  (0 <= weight)%Q -> (0 <= Deep.proportional total missing weight)%Q.
Proof.
  intros Hw. unfold Deep.proportional.
  destruct (0 <? total); [|apply Qle_refl].
  destruct (Num.lt _ 100) eqn:Hlt; [|apply Qle_refl].
  apply lt_true in Hlt. apply Qmult_le_0_compat; [|exact Hw].
  apply Qlt_le_weak. apply Qlt_minus_iff in Hlt. exact Hlt.
Qed.

Lemma acc_deductions_nonneg (doc : Document) : (0 <= Deep.acc_deductions doc)%Q.
Proof.
  unfold Deep.acc_deductions.
  assert (0 <= Deep.acc_alt doc)%Q by (apply proportional_nonneg; qconst).
  assert (0 <= Deep.acc_h1 doc)%Q
    by (unfold Deep.acc_h1; repeat case_match; qconst).
  assert (0 <= Deep.acc_links doc)%Q by (apply proportional_nonneg; qconst).
  assert (0 <= Deep.acc_inputs doc)%Q by (apply proportional_nonneg; qconst).
  assert (0 <= Deep.acc_lang doc)%Q
    by (unfold Deep.acc_lang; repeat case_match; qconst).
  assert (0 <= Deep.acc_skip doc)%Q
    by (unfold Deep.acc_skip; repeat case_match; qconst).
  repeat apply nonneg_plus; trivial. qconst.
Qed.

Lemma missing_nonneg (doc : Document) (sel : Elem -> bool) (penalty : Q) :
  (0 <= penalty)%Q -> (0 <= Deep.missing doc sel penalty)%Q.
Proof. intros H. unfold Deep.missing. case_match; [exact H|qconst]. Qed.

Lemma seo_deductions_nonneg (doc : Document) : (0 <= Deep.seo_deductions doc)%Q.
Proof.
  unfold Deep.seo_deductions.
  assert (0 <= Deep.seo_title doc)%Q
    by (unfold Deep.seo_title; repeat case_match; qconst).
  assert (0 <= Deep.seo_description doc)%Q
    by (unfold Deep.seo_description; repeat case_match; qconst).
  assert (0 <= Deep.seo_h1 doc)%Q
    by (unfold Deep.seo_h1; repeat case_match; qconst).
  assert (0 <= Deep.seo_hierarchy doc)%Q
    by (unfold Deep.seo_hierarchy; repeat case_match; qconst).
  assert (0 <= Deep.seo_alt doc)%Q by (apply proportional_nonneg; qconst).
  assert (0 <= Deep.seo_internal doc)%Q
    by (unfold Deep.seo_internal; repeat case_match; qconst).
  assert (0 <= Deep.seo_viewport doc)%Q by (apply missing_nonneg; qconst).
  assert (0 <= Deep.seo_canonical doc)%Q by (apply missing_nonneg; qconst).
  assert (0 <= Deep.seo_og doc)%Q by (apply missing_nonneg; qconst).
  assert (0 <= Deep.seo_structured doc)%Q by (apply missing_nonneg; qconst).
  repeat apply nonneg_plus; trivial. qconst.
Qed.

(** Rounding a score after non-negative deductions stays within bounds. *)
Lemma clamp_round_bounds (d : Q) :
  (0 <= d)%Q -> (0 <= Num.max 0 (Num.round (100 - d)%Q) <= 100)%Z.
Proof.
  intros Hd. unfold Num.max, Num.round. split; [lia|].
  apply Z.max_lub; [lia|].
  change 100%Z with (Qfloor (100 + (1 # 2))%Q).
  apply Qfloor_resp_le. apply Qplus_le_l.
  apply Qle_trans with (100 - 0)%Q; [|qconst].
  unfold Qminus. apply Qplus_le_r. apply Qopp_le_compat. exact Hd.
Qed.

Lemma form_score_bounds (inputs : list Forms.FormInput) (formHtml : string) :
  (30 <= Forms.calculateAccessibilityScore inputs formHtml <= 100)%Z.
Proof.
  unfold Forms.calculateAccessibilityScore, Num.max, Num.min.
  repeat case_match; lia.
Qed.

End ScoreBounds.

(** C9. Score boundedness: for every page, the accessibility score and the
    SEO score of the deep analysis are integers between 0 and 100, and so
    are the per-form accessibility score of the form validation and the
    accessibility score of the full analysis. *)
Theorem scores_bounded (doc : Document) (inputs : list Forms.FormInput)
    (formHtml : string) (issues : nat) :
  (0 <= Deep.calculateAccessibilityScore doc <= 100)%Z /\
  (0 <= Deep.calculateSEOScore doc <= 100)%Z /\
  (0 <= Forms.calculateAccessibilityScore inputs formHtml <= 100)%Z /\
  (0 <= FullAnalysis.accessibilityScore issues <= 100)%Z.
Proof.
  repeat split.
  - apply clamp_round_bounds, acc_deductions_nonneg.
  - apply clamp_round_bounds, acc_deductions_nonneg.
  - apply clamp_round_bounds, seo_deductions_nonneg.
  - apply clamp_round_bounds, seo_deductions_nonneg.
  - pose proof (form_score_bounds inputs formHtml). lia.
  - pose proof (form_score_bounds inputs formHtml). lia.
  - unfold FullAnalysis.accessibilityScore, Num.max. lia.
  - unfold FullAnalysis.accessibilityScore, Num.max. lia.
Qed.

Lemma analyzeForm_scores (doc : Document) (pageUrl : string) (i : nat) (form : Elem) :
  Forall (fun f => (30 <= Forms.accessibility_score f <= 100)%Z)
         (Forms.analyzeForm doc pageUrl i form).
Proof.
  unfold Forms.analyzeForm. case_match; [|constructor].
  constructor; [|constructor]. apply form_score_bounds.
Qed.

Lemma Forall_concat_imap {A B} (P : B -> Prop) (f : nat -> A -> list B) (xs : list A) :
  (forall i x, Forall P (f i x)) -> Forall P (concat (imap f xs)).
Proof.
  revert f. induction xs as [|x xs IH]; intros f Hf; cbn; [constructor|].
  apply Forall_app. split; [apply Hf|]. apply IH. intros i y. apply Hf.
Qed.

(** C10. Every form recorded by the extraction of the form validation has
    a per-form accessibility score between 30 and 100: the five deductions
    (20, 15, 10, 15, 10) add up to at most 70. *)
Theorem form_score_at_least_30 (load : string -> Result Document) (html pageUrl : string) :
  (forall inputs formHtml,
     (30 <= Forms.calculateAccessibilityScore inputs formHtml <= 100)%Z) /\
  Forall (fun f => (30 <= Forms.accessibility_score f <= 100)%Z)
         (Forms.analyzeForms load html pageUrl).
Proof.
  split; [apply form_score_bounds|].
  unfold Forms.analyzeForms. destruct (load html) as [doc|e]; [|constructor].
  apply Forall_concat_imap. intros i x. apply analyzeForm_scores.
Qed.

(** The lower bound is attained by a form that fails all five checks. *)
Example form_score_30 :
  Forms.calculateAccessibilityScore [Forms.mkInput "text" "q" "" "" false] "<input>" = 30%Z.
Proof. reflexivity. Qed.

Lemma arr_includes_In (xs : list string) (x : string) :
  In x xs -> JS.arr_includes xs x = true.
Proof.
  intros H. unfold JS.arr_includes. apply existsb_exists.
  exists x. split; [exact H|apply String.eqb_refl].
Qed.

Lemma prefix_append (sub s t : string) :
  String.prefix sub s = true -> String.prefix sub (s +:+ t) = true.
Proof.
  revert sub. induction s as [|d s IH]; intros sub.
  - destruct sub; [intros _; destruct t; reflexivity|discriminate].
  - destruct sub as [|c sub]; [intros _; reflexivity|].
    change (String d s +:+ t) with (String d (s +:+ t)). cbn [String.prefix].
    destruct (ascii_dec c d); [apply IH|discriminate].
Qed.

Lemma includes_append_r (s t sub : string) :
  JS.includes s sub = true -> JS.includes (s +:+ t) sub = true.
Proof.
  induction s as [|c s IH]; intros H.
  - cbn in H. rewrite orb_false_r in H. destruct sub; [|discriminate].
    destruct t; reflexivity.
  - change (String c s +:+ t) with (String c (s +:+ t)).
    cbn [JS.includes] in *. apply orb_true_iff in H. apply orb_true_iff.
    destruct H as [H|H]; [left|right; apply IH, H].
    apply (prefix_append sub (String c s) t H).
Qed.

Lemma includes_append_l (s t sub : string) :
  JS.includes t sub = true -> JS.includes (s +:+ t) sub = true.
Proof.
  intros H. induction s as [|c s IH]; [exact H|].
  change (String c s +:+ t) with (String c (s +:+ t)).
  cbn [JS.includes]. rewrite IH. apply orb_true_r.
Qed.

Lemma toLowerCase_append (s t : string) :
  JS.toLowerCase (s +:+ t) = JS.toLowerCase s +:+ JS.toLowerCase t.
Proof.
  induction s as [|c s IH]; [reflexivity|].
  change (String c s +:+ t) with (String c (s +:+ t)).
  cbn [JS.toLowerCase]. rewrite IH. reflexivity.
Qed.

(** A page URL whose path contains a word contains it. *)
Lemma url_includes_path (pre path suf sub : string) :
  JS.includes (JS.toLowerCase path) sub = true ->
  JS.includes (JS.toLowerCase (pre +:+ path +:+ suf)) sub = true.
Proof.
  intros H. rewrite !toLowerCase_append.
  apply includes_append_l, includes_append_r, H.
Qed.

(** C8. A form with an email input and a password input whose text
    contains login (case-insensitively), or the path of whose page URL
    does, is classified as a login form, whatever later rules it also
    matches. *)
Theorem login_form_classified (inputs : list Forms.FormInput)
    (formHtml pageUrl : string)
    (Hemail : In "email" (map Forms.inputType inputs))
    (Hpassword : In "password" (map Forms.inputType inputs))
    (Hlogin : JS.includes (JS.toLowerCase formHtml) "login" = true
              \/ exists origin path rest,
                   pageUrl = origin +:+ path +:+ rest
                   /\ JS.includes (JS.toLowerCase path) "login" = true) :
  Forms.classifyForm inputs formHtml pageUrl = "Login Form".
Proof.
  unfold Forms.classifyForm.
  rewrite (arr_includes_In _ _ Hemail), (arr_includes_In _ _ Hpassword).
  destruct Hlogin as [H|(origin & path & rest & -> & H)].
  - rewrite H. reflexivity.
  - rewrite (url_includes_path origin path rest "login" H).
    cbn [andb orb]. rewrite !orb_true_r. reflexivity.
Qed.

(** The scenario of the specification: an email and a password input
    under the text [Login to your account], on the page [/login]. *)
Lemma login_form_classified_witness :
  Forms.classifyForm [Forms.mkInput "email" "user" "" "" false;
                      Forms.mkInput "password" "pw" "" "" false]
                     "Login to your account" "https://x.com/login" = "Login Form".
Proof.
  apply login_form_classified.
  - cbn. left. reflexivity.
  - cbn. right. left. reflexivity.
  - right. exists "https://x.com", "/login", "". split; reflexivity.
Defined.

(** The login rule wins over the search rule that the same form matches. *)
Example login_before_search :
  Forms.classifyForm [Forms.mkInput "email" "" "" "" false;
                      Forms.mkInput "password" "" "" "" false;
                      Forms.mkInput "search" "" "" "" false]
                     "Search or sign in: login" "https://x.com/" = "Login Form".
Proof. reflexivity. Qed.

Lemma proportional_none (total : nat) (weight : Q) :
  Deep.proportional total 0 weight = 0%Q.
Proof.
  unfold Deep.proportional. destruct (0 <? total) eqn:Ht; [|reflexivity].
  apply Nat.ltb_lt in Ht.
  destruct (Num.lt _ 100) eqn:Hlt; [|reflexivity].
  apply lt_true in Hlt. exfalso. revert Hlt. apply Qle_not_lt.
  assert (Hnz : ~ (Num.of_nat total == 0)%Q).
  { unfold Num.of_nat, Qeq. cbn. lia. }
  apply Qle_lteq. right. symmetry.
  unfold Qminus. change (- Num.of_nat 0)%Q with (- 0)%Q.
  field. exact Hnz.
Qed.

Lemma truthy_of_length (s : string) (n : nat) :
  S n <= String.length s -> JS.truthy s = true.
Proof. destruct s; cbn; [lia|reflexivity]. Qed.

(** C7. A page with no [h1], no meta description and no viewport tag that
    passes every other SEO check scores 100 - 15 - 15 - 8 = 62. *)
Theorem seo_score_62 (doc : Document)
    (Htitle : 30 <= String.length (JS.trim (Sel.text_of (Sel.query (Sel.tag "title") doc))) <= 60)
    (Hdescription :
       JS.truthy_opt (Sel.attr_of "content" (Sel.query Deep.meta_description doc)) = false)
    (Hh1 : Sel.query (Sel.tag "h1") doc = [])
    (Hhierarchy : Sel.query (Sel.tag "h2") doc <> []
                  \/ (Sel.query (Sel.tag "h3") doc = [] /\ Sel.query (Sel.tag "h4") doc = []))
    (Himages : Deep.imagesWithoutAlt (Sel.query (Sel.tag "img") doc) = 0)
    (Hinternal : List.filter Deep.seo_internal_link (Sel.query Sel.a_href doc) <> [])
    (Hviewport : Sel.query Deep.meta_viewport doc = [])
    (Hcanonical : Sel.query Deep.link_canonical doc <> [])
    (Hog : Sel.query Deep.meta_og doc <> [])
    (Hjsonld : Sel.query Deep.script_jsonld doc <> []) :
  Deep.calculateSEOScore doc = 62%Z.
Proof.
  assert (Hnz : forall (A : Type) (l : list A), l <> [] -> (length l =? 0) = false).
  { intros A [|x l] H; [congruence|reflexivity]. }
  assert (E1 : Deep.seo_title doc = 0%Q).
  { unfold Deep.seo_title. destruct Htitle as [Hlo Hhi].
    rewrite (truthy_of_length _ 29 Hlo). cbn [negb].
    destruct (Nat.ltb_spec (String.length (JS.trim (Sel.text_of (Sel.query (Sel.tag "title") doc)))) 30);
      [lia|].
    destruct (Nat.ltb_spec 60 (String.length (JS.trim (Sel.text_of (Sel.query (Sel.tag "title") doc)))));
      [lia|reflexivity]. }
  assert (E2 : Deep.seo_description doc = 15%Q).
  { unfold Deep.seo_description.
    destruct (Sel.attr_of "content" (Sel.query Deep.meta_description doc)) as [d|];
      [|reflexivity].
    cbn in Hdescription. rewrite Hdescription. reflexivity. }
  assert (E3 : Deep.seo_h1 doc = 15%Q) by (unfold Deep.seo_h1; rewrite Hh1; reflexivity).
  assert (E4 : Deep.seo_hierarchy doc = 0%Q).
  { unfold Deep.seo_hierarchy. destruct Hhierarchy as [H2|[H3 H4]].
    - rewrite (Hnz _ _ H2). reflexivity.
    - rewrite H3, H4. cbn. rewrite andb_false_r. reflexivity. }
  assert (E5 : Deep.seo_alt doc = 0%Q).
  { unfold Deep.seo_alt. rewrite Himages. apply proportional_none. }
  assert (E6 : Deep.seo_internal doc = 0%Q).
  { unfold Deep.seo_internal. rewrite (Hnz _ _ Hinternal). reflexivity. }
  assert (E7 : Deep.seo_viewport doc = 8%Q).
  { unfold Deep.seo_viewport, Deep.missing. rewrite Hviewport. reflexivity. }
  assert (E8 : Deep.seo_canonical doc = 0%Q).
  { unfold Deep.seo_canonical, Deep.missing. rewrite (Hnz _ _ Hcanonical). reflexivity. }
  assert (E9 : Deep.seo_og doc = 0%Q).
  { unfold Deep.seo_og, Deep.missing. rewrite (Hnz _ _ Hog). reflexivity. }
  assert (E10 : Deep.seo_structured doc = 0%Q).
  { unfold Deep.seo_structured, Deep.missing. rewrite (Hnz _ _ Hjsonld). reflexivity. }
  unfold Deep.calculateSEOScore, Deep.seo_deductions.
  rewrite E1, E2, E3, E4, E5, E6, E7, E8, E9, E10. reflexivity.
Qed.

Lemma seo_score_62_witness : Deep.calculateSEOScore Ref.seoPage = 62%Z.
Proof.
  apply seo_score_62.
  - vm_compute. split; lia.
  - reflexivity.
  - reflexivity.
  - left. discriminate.
  - reflexivity.
  - discriminate.
  - reflexivity.
  - discriminate.
  - discriminate.
  - discriminate.
Defined.

(* ================================================================== *)
(** * Properties of the resilient fetch *)
(* ================================================================== *)

(** Unfolds the primitives of the runtime. *)
Ltac run_io :=
  unfold tryStrategy, io_try, getHeaders, getRandomUserAgent, random_below,
    random, delay, fetch, throw, lift;
  unfold mbind, io_bind, mret, io_ret.

(** Splits on every conditional of the goal. *)
Ltac branches :=
  repeat match goal with
         | |- context [if ?b then _ else _] => destruct b; cbn
         end;
  reflexivity.

Section FetchFacts.

Variable URLp : UrlParser.
Variable net : Transport.
Variable rnd : nat -> Q.

(** One iteration hands exactly one request to the network, for the URL
    and strategy of the iteration, and ends as the outcome dictates. *)
Lemma tryStrategy_sends (url : string) (attempt : nat) (strategy : Strategy)
    (w : World) (u : Url) :
  URLp url None = Some u ->
  exists req w',
    req_url req = url /\ profile (req_headers req) = Some strategy
    /\ requests w' = req :: requests w
    /\ tryStrategy URLp net rnd url attempt strategy w
       = (Ok (settle (net (length (requests w)) req)), w').
Proof.
  intros Hu. run_io.
  destruct (0 <? attempt); cbn -[USER_AGENTS index pretty Qfloor]; rewrite Hu;
    match goal with |- context [net _ ?r] => set (req := r) end;
    exists req; eexists; (split; [reflexivity|]);
    (split; [destruct strategy; reflexivity|]);
    (split; [|destruct (net _ req) as [r|e]; cbn; branches]);
    reflexivity.
Qed.

(** With an unparseable URL an iteration fails before the network. *)
Lemma tryStrategy_unparseable (url : string) (attempt : nat) (strategy : Strategy)
    (w : World) :
  URLp url None = None ->
  exists e w',
    requests w' = requests w
    /\ tryStrategy URLp net rnd url attempt strategy w = (Ok (Next (Some e)), w').
Proof.
  intros Hu. run_io.
  destruct (0 <? attempt); cbn -[USER_AGENTS index pretty Qfloor]; rewrite Hu;
    eexists; eexists; (split; [|branches]); reflexivity.
Qed.

Lemma strategiesLoop_unparseable (url : string) (attempt : nat) (ss : list Strategy) :
  URLp url None = None ->
  forall lastError w,
  exists lastError' w',
    requests w' = requests w
    /\ strategiesLoop URLp net rnd url attempt ss lastError w = (Ok (Next lastError'), w').
Proof.
  intros Hu. induction ss as [|s ss IH]; intros lastError w.
  - exists lastError, w. split; reflexivity.
  - destruct (tryStrategy_unparseable url attempt s w Hu) as (e & w1 & Hw1 & Hrun).
    destruct (IH (Some e) w1) as (l2 & w2 & Hw2 & Hrun2).
    exists l2, w2. split; [congruence|].
    cbn [strategiesLoop]. unfold mbind, io_bind. rewrite Hrun. exact Hrun2.
Qed.

Lemma attemptsLoop_unparseable (url : string) (attempts : list nat) :
  URLp url None = None ->
  forall lastError w,
  exists lastError' w',
    requests w' = requests w
    /\ attemptsLoop URLp net rnd url attempts lastError w = (Ok (Next lastError'), w').
Proof.
  intros Hu. induction attempts as [|a rest IH]; intros lastError w.
  - exists lastError, w. split; reflexivity.
  - destruct (strategiesLoop_unparseable url a strategies Hu lastError w)
      as (l1 & w1 & Hw1 & Hrun).
    destruct (IH l1 w1) as (l2 & w2 & Hw2 & Hrun2).
    exists l2, w2. split; [congruence|].
    cbn [attemptsLoop]. unfold mbind, io_bind. rewrite Hrun. exact Hrun2.
Qed.

(** With an unparseable URL the resilient fetch throws, and nothing has
    reached the network. *)
Lemma fetchWithStrategies_unparseable (url : string) (maxRetries : nat) (w : World) :
  URLp url None = None ->
  exists e w',
    requests w' = requests w
    /\ fetchWithStrategies URLp net rnd url maxRetries w = (Throw e, w').
Proof.
  intros Hu.
  destruct (attemptsLoop_unparseable url (seq 0 maxRetries) Hu None w)
    as (l & w' & Hw' & Hrun).
  exists (default (Error_ "All fetch strategies failed") l), w'. split; [exact Hw'|].
  unfold fetchWithStrategies, mbind, io_bind. rewrite Hrun. reflexivity.
Qed.

End FetchFacts.

Section FirstSuccess.

Variable URLp : UrlParser.
Variable net : Transport.
Variable rnd : nat -> Q.
Variable url : string.
Variable u : Url.
Hypothesis Hu : URLp url None = Some u.

#[local] Abbreviation request_of := (request_of url).

(** The inner loop, when the request of position [k] is the first one
    answered successfully. *)
Lemma strategiesLoop_success (attempt : nat) (ss : list Strategy) (r : Response) :
  forall k w lastError s,
    ss !! k = Some s ->
    (forall j sj req, j < k -> ss !! j = Some sj -> request_of sj req ->
                      unsuccessful (net (sent w + j) req)) ->
    (forall req, request_of s req -> net (sent w + k) req = Responded r) ->
    ok r = true ->
    exists w', strategiesLoop URLp net rnd url attempt ss lastError w = (Ok (Return r), w')
               /\ sent w' = sent w + k + 1.
Proof.
  induction ss as [|s0 ss IH]; intros k w lastError s Hk Hbefore Hat Hok; [discriminate|].
  destruct (tryStrategy_sends URLp net rnd url attempt s0 w u Hu)
    as (req & w1 & Hurl & Hprof & Hreq & Hrun).
  cbn [strategiesLoop]. unfold mbind, io_bind. rewrite Hrun.
  assert (Hsent : sent w1 = S (sent w)) by (unfold sent; rewrite Hreq; reflexivity).
  destruct k as [|k].
  - injection Hk as <-.
    pose proof (Hat req (conj Hurl Hprof)) as Hnet.
    unfold sent in Hnet. rewrite Nat.add_0_r in Hnet. rewrite Hnet. cbn [settle].
    rewrite Hok. exists w1. split; [reflexivity|]. lia.
  - pose proof (Hbefore 0 s0 req ltac:(lia) eq_refl (conj Hurl Hprof)) as Hfail.
    unfold sent in Hfail. rewrite Nat.add_0_r in Hfail.
    assert (Hnext : exists l, settle (net (length (requests w)) req) = Next l).
    { unfold settle. destruct (net (length (requests w)) req) as [r1|e1]; cbn in Hfail;
        [rewrite Hfail|]; eauto. }
    destruct Hnext as [l ->].
    destruct (IH k w1 l s Hk) as (w' & Hrun' & Hsent').
    + intros j sj req' Hj Hsj Hreq'. rewrite Hsent.
      replace (S (sent w) + j) with (sent w + S j) by lia.
      apply (Hbefore (S j) sj req'); [lia|exact Hsj|exact Hreq'].
    + intros req' Hreq'. rewrite Hsent.
      replace (S (sent w) + k) with (sent w + S k) by lia. apply Hat, Hreq'.
    + exact Hok.
    + exists w'. split; [exact Hrun'|]. lia.
Qed.

(** The inner loop, when no request is answered successfully. *)
Lemma strategiesLoop_failure (attempt : nat) (ss : list Strategy) :
  forall w lastError,
    (forall j sj req, ss !! j = Some sj -> request_of sj req ->
                      unsuccessful (net (sent w + j) req)) ->
    exists l w', strategiesLoop URLp net rnd url attempt ss lastError w = (Ok (Next l), w')
                 /\ sent w' = sent w + length ss.
Proof.
  induction ss as [|s0 ss IH]; intros w lastError Hall.
  - exists lastError, w. split; [reflexivity|]. cbn [length]. lia.
  - destruct (tryStrategy_sends URLp net rnd url attempt s0 w u Hu)
      as (req & w1 & Hurl & Hprof & Hreq & Hrun).
    cbn [strategiesLoop]. unfold mbind, io_bind. rewrite Hrun.
    assert (Hsent : sent w1 = S (sent w)) by (unfold sent; rewrite Hreq; reflexivity).
    pose proof (Hall 0 s0 req eq_refl (conj Hurl Hprof)) as Hfail.
    unfold sent in Hfail. rewrite Nat.add_0_r in Hfail.
    assert (Hnext : exists l, settle (net (length (requests w)) req) = Next l).
    { unfold settle. destruct (net (length (requests w)) req) as [r1|e1]; cbn in Hfail;
        [rewrite Hfail|]; eauto. }
    destruct Hnext as [l ->].
    destruct (IH w1 l) as (l' & w' & Hrun' & Hsent').
    + intros j sj req' Hsj Hreq'. rewrite Hsent.
      replace (S (sent w) + j) with (sent w + S j) by lia.
      apply (Hall (S j) sj req'); [exact Hsj|exact Hreq'].
    + exists l', w'. split; [exact Hrun'|]. cbn [length]. lia.
Qed.

(** The outer loop, when the request of iteration [3 * q + rem] is the
    first one answered successfully. *)
Lemma attemptsLoop_success (r : Response) :
  forall q rem attempts w lastError s,
    rem < 3 -> q < length attempts ->
    strategies !! rem = Some s ->
    (forall i si req, i < 3 * q + rem -> strategy_at i = Some si -> request_of si req ->
                      unsuccessful (net (sent w + i) req)) ->
    (forall req, request_of s req -> net (sent w + (3 * q + rem)) req = Responded r) ->
    ok r = true ->
    exists w', attemptsLoop URLp net rnd url attempts lastError w = (Ok (Return r), w')
               /\ sent w' = sent w + (3 * q + rem) + 1.
Proof.
  induction q as [|q IH]; intros rem attempts w lastError s Hrem Hq Hs Hbefore Hat Hok;
    (destruct attempts as [|a rest]; [cbn in Hq; lia|]); cbn [attemptsLoop];
    unfold mbind, io_bind.
  - destruct (strategiesLoop_success a strategies r rem w lastError s Hs) as (w' & Hrun & Hsent).
    + intros j sj req Hj Hsj Hreq. apply (Hbefore j sj req); [lia| |exact Hreq].
      unfold strategy_at. rewrite Nat.mod_small by lia. exact Hsj.
    + intros req Hreq. rewrite <- (Hat req Hreq). f_equal; lia.
    + exact Hok.
    + rewrite Hrun. exists w'. split; [reflexivity|]. lia.
  - destruct (strategiesLoop_failure a strategies w lastError) as (l & w1 & Hrun & Hsent).
    + intros j sj req Hsj Hreq.
      assert (Hj : j < 3) by (apply lookup_lt_Some in Hsj; exact Hsj).
      apply (Hbefore j sj req); [lia| |exact Hreq].
      unfold strategy_at. rewrite Nat.mod_small by lia. exact Hsj.
    + rewrite Hrun. cbn [length strategies] in Hsent.
      destruct (IH rem rest w1 l s Hrem ltac:(cbn in Hq; lia) Hs) as (w' & Hrun' & Hsent').
      * intros i si req Hi Hsi Hreq. rewrite Hsent.
        replace (sent w + 3 + i) with (sent w + (i + 3)) by lia.
        apply (Hbefore (i + 3) si req); [lia| |exact Hreq].
        unfold strategy_at in *.
        replace (i + 3) with (i + 1 * 3) by lia. rewrite Nat.Div0.mod_add. exact Hsi.
      * intros req Hreq. rewrite Hsent. rewrite <- (Hat req Hreq). f_equal; lia.
      * exact Hok.
      * exists w'. split; [exact Hrun'|]. lia.
Qed.

End FirstSuccess.

(** C5. Fetch success short-circuit: the resilient fetch returns the first
    2xx response at once.  When the requests of the first [k] iterations
    are not answered with a 2xx response and the request of the next
    iteration is, that response is returned after exactly [k + 1] requests;
    for the second strategy of the first attempt ([k = 1]) that makes
    exactly two requests. *)
Theorem fetch_short_circuit (URLp : UrlParser) (net : Transport) (rnd : nat -> Q)
    (url : string) (maxRetries : nat) (w : World) (r : Response)
    (q rem : nat) (s : Strategy)
    (Hurl : is_Some (URLp url None))
    (Hstrategy : strategies !! rem = Some s)
    (Hretries : q < maxRetries)
    (Hbefore : forall i si req,
                 i < 3 * q + rem -> strategy_at i = Some si -> request_of url si req ->
                 unsuccessful (net (sent w + i) req))
    (Hfirst : forall req, request_of url s req ->
                net (sent w + (3 * q + rem)) req = Responded r)
    (Hok : ok r = true) :
  exists w', fetchWithStrategies URLp net rnd url maxRetries w = (Ok r, w')
             /\ sent w' = sent w + (3 * q + rem) + 1.
Proof.
  destruct Hurl as [u Hu].
  assert (Hrem : rem < 3) by (apply lookup_lt_Some in Hstrategy; exact Hstrategy).
  destruct (attemptsLoop_success URLp net rnd url u Hu r q rem (seq 0 maxRetries) w None s)
    as (w' & Hrun & Hsent); try assumption.
  - rewrite length_seq. exact Hretries.
  - exists w'. split; [|exact Hsent].
    unfold fetchWithStrategies, mbind, io_bind. rewrite Hrun. reflexivity.
Qed.

(** The first strategy of the first attempt is refused with HTTP 403, the
    second one is served: two requests. *)
Lemma fetch_short_circuit_witness :
  exists w',
    fetchWithStrategies RefURL.parse (Ref.blockedThen 1 "<html></html>") (Ref.constant 0)
      "https://x.com/" 3 start
    = (Ok (mkResponse 200 "OK" "<html></html>"), w')
    /\ sent w' = 2.
Proof.
  apply (fetch_short_circuit RefURL.parse (Ref.blockedThen 1 "<html></html>") (Ref.constant 0)
           "https://x.com/" 3 start (mkResponse 200 "OK" "<html></html>") 0 1 mobile).
  - eexists. reflexivity.
  - reflexivity.
  - lia.
  - intros i si req Hi _ _. assert (i = 0) as -> by lia. reflexivity.
  - intros req _. reflexivity.
  - reflexivity.
Defined.

(* ================================================================== *)
(** * The handlers when the network never answers successfully *)
(* ================================================================== *)

Section Blocked.

Variable URLp : UrlParser.
Variable net : Transport.
Variable rnd : nat -> Q.
Variable load : string -> Result Document.
Variable rx : RegexEngine.

Hypothesis blocked : forall n req, unsuccessful (net n req).

Lemma settle_blocked (n : nat) (req : Request) : exists l, settle (net n req) = Next l.
Proof.
  specialize (blocked n req). unfold settle.
  destruct (net n req) as [r|e]; cbn in blocked; [rewrite blocked|]; eauto.
Qed.

Lemma tryStrategy_blocked (url : string) (attempt : nat) (strategy : Strategy) (w : World) :
  exists l w', tryStrategy URLp net rnd url attempt strategy w = (Ok (Next l), w').
Proof.
  destruct (URLp url None) as [u|] eqn:Hu.
  - destruct (tryStrategy_sends URLp net rnd url attempt strategy w u Hu)
      as (req & w' & _ & _ & _ & Hrun).
    destruct (settle_blocked (length (requests w)) req) as [l Hl].
    exists l, w'. rewrite Hrun, Hl. reflexivity.
  - destruct (tryStrategy_unparseable URLp net rnd url attempt strategy w Hu)
      as (e & w' & _ & Hrun).
    eauto.
Qed.

Lemma strategiesLoop_blocked (url : string) (attempt : nat) (ss : list Strategy) :
  forall lastError w,
  exists l w', strategiesLoop URLp net rnd url attempt ss lastError w = (Ok (Next l), w').
Proof.
  induction ss as [|s ss IH]; intros lastError w; [cbn; eauto|].
  destruct (tryStrategy_blocked url attempt s w) as (l1 & w1 & Hrun).
  destruct (IH l1 w1) as (l2 & w2 & Hrun2).
  exists l2, w2. cbn [strategiesLoop]. unfold mbind, io_bind. rewrite Hrun. exact Hrun2.
Qed.

Lemma attemptsLoop_blocked (url : string) (attempts : list nat) :
  forall lastError w,
  exists l w', attemptsLoop URLp net rnd url attempts lastError w = (Ok (Next l), w').
Proof.
  induction attempts as [|a rest IH]; intros lastError w; [cbn; eauto|].
  destruct (strategiesLoop_blocked url a strategies lastError w) as (l1 & w1 & Hrun).
  destruct (IH l1 w1) as (l2 & w2 & Hrun2).
  exists l2, w2. cbn [attemptsLoop]. unfold mbind, io_bind. rewrite Hrun. exact Hrun2.
Qed.

(** Every strategy and retry is exhausted: the resilient fetch throws. *)
Lemma fetchWithStrategies_exhausted (url : string) (maxRetries : nat) (w : World) :
  exists e w', fetchWithStrategies URLp net rnd url maxRetries w = (Throw e, w').
Proof.
  destruct (attemptsLoop_blocked url (seq 0 maxRetries) None w) as (l & w' & Hrun).
  exists (default (Error_ "All fetch strategies failed") l), w'.
  unfold fetchWithStrategies, mbind, io_bind. rewrite Hrun. reflexivity.
Qed.

(** A single-shot fetch throws or returns a response that is not ok. *)
Lemma fetch_blocked (req : Request) (w : World) :
  exists w', (exists e, fetch URLp net req w = (Throw e, w'))
             \/ (exists r, fetch URLp net req w = (Ok r, w') /\ ok r = false).
Proof.
  unfold fetch. destruct (URLp (req_url req) None); [|eauto].
  specialize (blocked (length (requests w)) req).
  destruct (net (length (requests w)) req) as [r|e]; cbn in blocked; eauto.
Qed.

End Blocked.

Lemma total_ret {A} (a : A) : total_io (mret a).
Proof. intros w. exists a, w. reflexivity. Qed.

Lemma total_bind {A B} (m : IO A) (f : A -> IO B) :
  total_io m -> (forall a, total_io (f a)) -> total_io (m ≫= f).
Proof.
  intros Hm Hf w. destruct (Hm w) as (a & w1 & Hrun).
  destruct (Hf a w1) as (b & w2 & Hrun2).
  exists b, w2. unfold mbind, io_bind. rewrite Hrun. exact Hrun2.
Qed.

Lemma total_random (rnd : nat -> Q) : total_io (random rnd).
Proof. intros w. eexists. eexists. reflexivity. Qed.

Lemma total_random_below (rnd : nat -> Q) (n : Z) : total_io (random_below rnd n).
Proof. apply total_bind; [apply total_random|intros a; apply total_ret]. Qed.

Lemma total_io_map {A B} (f : A -> IO B) (xs : list A) :
  (forall x, total_io (f x)) -> total_io (io_map f xs).
Proof.
  intros Hf. induction xs as [|x xs IH]; [apply total_ret|].
  cbn [io_map]. apply total_bind; [apply Hf|]. intros y.
  apply total_bind; [apply IH|]. intros ys. apply total_ret.
Qed.

Create HintDb total.
#[local] Hint Resolve total_ret total_random total_random_below : total.

Lemma total_estimatedForm (rnd : nat -> Q) (url : string) (formTypes : list string) (i : nat) :
  total_io (FormValidation.estimatedForm rnd url formTypes i).
Proof.
  unfold FormValidation.estimatedForm.
  repeat (apply total_bind; [auto with total|intros ?]). apply total_ret.
Qed.

(** The estimator of the form validation returns whenever the URL parses;
    it throws otherwise. *)
Lemma generateFormEstimates_total (URLp : UrlParser) (rnd : nat -> Q) (url : string) :
  is_Some (URLp url None) ->
  total_io (FormValidation.generateFormEstimates URLp rnd url).
Proof.
  intros [u Hu]. unfold FormValidation.generateFormEstimates.
  apply total_bind.
  { intros w. exists u, w. unfold lift, new_URL. rewrite Hu. reflexivity. }
  intros u'. apply total_bind; [auto with total|intros n].
  apply total_bind.
  { apply total_io_map. intros type.
    apply total_bind; [auto with total|intros c; apply total_ret]. }
  intros counts. apply total_bind.
  { apply total_io_map. intros i. apply total_estimatedForm. }
  intros forms. apply total_bind; [auto with total|intros pages; apply total_ret].
Qed.

Lemma generateFormEstimates_throws (URLp : UrlParser) (rnd : nat -> Q) (url : string) (w : World) :
  URLp url None = None ->
  FormValidation.generateFormEstimates URLp rnd url w = (Throw (TypeError_ "Invalid URL"), w).
Proof.
  intros Hu. unfold FormValidation.generateFormEstimates, lift, new_URL, mbind, io_bind.
  rewrite Hu. reflexivity.
Qed.

(** The estimator of the quick links returns whenever the URL parses, with
    lists whose lengths add up; it throws otherwise. *)
Lemma generateFallbackData_total (URLp : UrlParser) (rnd : nat -> Q) (url : string) :
  is_Some (URLp url None) ->
  total_io (QuickLinks.generateFallbackData URLp rnd url).
Proof.
  intros [u Hu]. unfold QuickLinks.generateFallbackData.
  apply total_bind.
  { intros w. exists u, w. unfold lift, new_URL. rewrite Hu. reflexivity. }
  intros u'.
  destruct (existsb _ QuickLinks.largeSites);
    repeat (apply total_bind; [auto with total|intros ?]); apply total_ret.
Qed.

Lemma generateFallbackData_throws (URLp : UrlParser) (rnd : nat -> Q) (url : string) (w : World) :
  URLp url None = None ->
  QuickLinks.generateFallbackData URLp rnd url w = (Throw (TypeError_ "Invalid URL"), w).
Proof.
  intros Hu. unfold QuickLinks.generateFallbackData, lift, new_URL, mbind, io_bind.
  rewrite Hu. reflexivity.
Qed.

Section AfterExhaustion.

Variable URLp : UrlParser.
Variable net : Transport.
Variable rnd : nat -> Q.
Variable load : string -> Result Document.
Variable rx : RegexEngine.

(** Quick links, once the resilient fetch has thrown: the reply is built
    from the estimator, or is the error fallback when the estimator throws. *)
Lemma quick_links_after_exhaustion (rq : ApiRequest) (url : string) (w w1 : World)
    (e : JsError) :
  json_url rq = Some url -> JS.truthy url = true ->
  fetchWithStrategies URLp net rnd (withScheme url) 3 w = (Throw e, w1) ->
  QuickLinks.POST URLp net rnd load rx rq w =
  match QuickLinks.generateFallbackData URLp rnd (withScheme url) w1 with
  | (Ok links, w2) =>
      (Json 200 (QuickLinks.success "intelligent_estimation" links
                   (Some "Website blocked direct access. Showing realistic estimates based on site analysis.")),
       w2)
  | (Throw e', w2) => (Json 200 (QuickLinks.errorFallback rq e'), w2)
  end.
Proof.
  intros Hjson Htruthy Hfetch.
  unfold QuickLinks.POST. rewrite Hjson, Htruthy. cbn [negb].
  unfold QuickLinks.extraction, QuickLinks.estimation, io_try, mbind, io_bind.
  rewrite Hfetch. unfold mret, io_ret. cbv beta iota.
  destruct (QuickLinks.generateFallbackData URLp rnd (withScheme url) w1) as [[links|e'] w2];
    reflexivity.
Qed.

(** Form validation, once the resilient fetch of the main page has thrown. *)
Lemma form_validation_after_exhaustion (rq : ApiRequest) (url : string) (w w1 : World)
    (e : JsError) :
  json_url rq = Some url -> JS.truthy url = true ->
  fetchWithStrategies URLp net rnd (withScheme url) 3 w = (Throw e, w1) ->
  FormValidation.POST URLp net rnd load rx rq w =
  match FormValidation.generateFormEstimates URLp rnd (withScheme url) w1 with
  | (Ok estimates, w2) =>
      (Json 200 (FormValidation.estimation (withScheme url) estimates), w2)
  | (Throw e', w2) => (Json 200 (FormValidation.errorFallback rq e'), w2)
  end.
Proof.
  intros Hjson Htruthy Hfetch.
  unfold FormValidation.POST. rewrite Hjson, Htruthy. cbn [negb].
  unfold FormValidation.crawl, io_try, mbind, io_bind.
  rewrite Hfetch. unfold mret, io_ret. cbv beta iota.
  destruct (FormValidation.generateFormEstimates URLp rnd (withScheme url) w1)
    as [[estimates|e'] w2]; reflexivity.
Qed.

(** Full analysis has no estimator: a failed fetch ends in HTTP 500. *)
Lemma full_analysis_fetch_failure (rq : ApiRequest) (url : string) (w w1 : World) :
  json_url rq = Some url -> JS.truthy url = true ->
  (exists e, fetch URLp net (mkRequest (withScheme url) chromeHeaders false) w = (Throw e, w1))
  \/ (exists r, fetch URLp net (mkRequest (withScheme url) chromeHeaders false) w = (Ok r, w1)
                /\ ok r = false) ->
  exists msg, FullAnalysis.POST URLp net load rq w = (JsonError 500 msg, w1).
Proof.
  intros Hjson Htruthy Hfetch.
  unfold FullAnalysis.POST. rewrite Hjson, Htruthy. cbn [negb].
  unfold mbind, io_bind.
  destruct Hfetch as [[e Hrun]|(r & Hrun & Hok)]; rewrite Hrun.
  - eauto.
  - rewrite Hok. cbn. eauto.
Qed.

End AfterExhaustion.

(** C1 (as stated) fails for the full analysis: with every request
    refused (HTTP 403), the resilient fetch is exhausted, yet the full
    analysis replies with an HTTP 500 error object, not with an estimate. *)
Lemma full_analysis_has_no_fallback :
  is_ok (fetchWithStrategies RefURL.parse (Ref.answering 403 "Forbidden" "") (Ref.constant 0)
           "https://x.com" 3 start).1 = false
  /\ (FullAnalysis.POST RefURL.parse (Ref.answering 403 "Forbidden" "") (Ref.loading [])
        (Ref.request "https://x.com") start).1
     = JsonError 500 "Analysis failed: HTTP 403: Forbidden".
Proof. split; vm_compute; reflexivity. Qed.

(** C1 (amended). When the network never answers with a 2xx response and
    the submitted URL (with its scheme added) parses, quick links and form
    validation reply with HTTP 200 and the estimator's data, labelled
    [intelligent_estimation].  Full analysis and deep analysis have no
    estimator and reply with an error object: the full analysis under HTTP
    500; the deep analysis, which adds no scheme, under HTTP 400 with
    [Invalid URL format] and no request sent when the URL as submitted does
    not parse, under HTTP 400 with the status line when its fetch of the
    main page is answered, and under HTTP 500 with the error's message when
    that fetch throws. *)
Theorem fetch_failure_replies (URLp : UrlParser) (net : Transport) (rnd : nat -> Q)
    (load : string -> Result Document) (rx : RegexEngine)
    (rq : ApiRequest) (url : string) (w : World)
    (Hjson : json_url rq = Some url)
    (Htruthy : JS.truthy url = true)
    (Hparse : is_Some (URLp (withScheme url) None))
    (Hblocked : forall n req, unsuccessful (net n req)) :
  quick_estimate (QuickLinks.POST URLp net rnd load rx rq w).1
  /\ forms_estimate (FormValidation.POST URLp net rnd load rx rq w).1
  /\ error_reply [500%Z] (FullAnalysis.POST URLp net load rq w).1
  /\ match URLp url None with
     | None =>
         DeepAnalysis.POST URLp net load rq w = (JsonError 400 "Invalid URL format", w)
     | Some target =>
         match fetch URLp net (mkRequest (href target) chromeHeaders false) w with
         | (Ok r, w') =>
             DeepAnalysis.POST URLp net load rq w
             = (JsonError 400 ("Failed to fetch main page: " +:+ pretty (status r)
                               +:+ " " +:+ statusText r), w')
         | (Throw e, w') =>
             DeepAnalysis.POST URLp net load rq w
             = (JsonError 500 ("Analysis failed: " +:+ err_message e), w')
         end
     end.
Proof.
  destruct (fetchWithStrategies_exhausted URLp net rnd Hblocked (withScheme url) 3 w)
    as (e & w1 & Hfetch).
  repeat apply conj.
  - rewrite (quick_links_after_exhaustion URLp net rnd load rx rq url w w1 e Hjson Htruthy Hfetch).
    destruct (generateFallbackData_total URLp rnd (withScheme url) Hparse w1)
      as (links & w2 & Hrun).
    rewrite Hrun. eexists. repeat split.
  - rewrite (form_validation_after_exhaustion URLp net rnd load rx rq url w w1 e
               Hjson Htruthy Hfetch).
    destruct (generateFormEstimates_total URLp rnd (withScheme url) Hparse w1)
      as (estimates & w2 & Hrun).
    rewrite Hrun. eexists. repeat split.
  - destruct (fetch_blocked URLp net Hblocked
                (mkRequest (withScheme url) chromeHeaders false) w) as [w2 Hfail].
    destruct (full_analysis_fetch_failure URLp net load rq url w w2 Hjson Htruthy Hfail)
      as [msg Hrun].
    rewrite Hrun. exists 500%Z, msg. split; [reflexivity|left; reflexivity].
  - unfold DeepAnalysis.POST. rewrite Hjson, Htruthy. cbn [negb].
    destruct (URLp url None) as [target|]; [|reflexivity].
    unfold mbind, io_bind.
    destruct (fetch_blocked URLp net Hblocked
                (mkRequest (href target) chromeHeaders false) w)
      as [w2 [[e' Hrun]|(r & Hrun & Hok)]]; rewrite Hrun; [reflexivity|].
    rewrite Hok. reflexivity.
Qed.

(** The site [https://x.com] when every request is refused with HTTP 403,
    and when no request is answered at all. *)
Lemma fetch_failure_replies_witness :
  (quick_estimate (QuickLinks.POST RefURL.parse (Ref.answering 403 "Forbidden" "")
                     (Ref.constant 0) (Ref.loading []) Ref.noMatch
                     (Ref.request "https://x.com") start).1
   /\ forms_estimate (FormValidation.POST RefURL.parse (Ref.answering 403 "Forbidden" "")
                        (Ref.constant 0) (Ref.loading []) Ref.noMatch
                        (Ref.request "https://x.com") start).1
   /\ error_reply [500%Z] (FullAnalysis.POST RefURL.parse (Ref.answering 403 "Forbidden" "")
                             (Ref.loading []) (Ref.request "https://x.com") start).1
   /\ (DeepAnalysis.POST RefURL.parse (Ref.answering 403 "Forbidden" "") (Ref.loading [])
         (Ref.request "https://x.com") start).1
      = JsonError 400 "Failed to fetch main page: 403 Forbidden")
  /\ (quick_estimate (QuickLinks.POST RefURL.parse Ref.unreachable (Ref.constant 0)
                        (Ref.loading []) Ref.noMatch (Ref.request "https://x.com") start).1
      /\ forms_estimate (FormValidation.POST RefURL.parse Ref.unreachable (Ref.constant 0)
                           (Ref.loading []) Ref.noMatch (Ref.request "https://x.com") start).1
      /\ error_reply [500%Z] (FullAnalysis.POST RefURL.parse Ref.unreachable (Ref.loading [])
                                (Ref.request "https://x.com") start).1
      /\ (DeepAnalysis.POST RefURL.parse Ref.unreachable (Ref.loading [])
            (Ref.request "https://x.com") start).1
         = JsonError 500 "Analysis failed: fetch failed").
Proof.
  split.
  - destruct (fetch_failure_replies RefURL.parse (Ref.answering 403 "Forbidden" "")
                (Ref.constant 0) (Ref.loading []) Ref.noMatch
                (Ref.request "https://x.com") "https://x.com" start)
      as (Hquick & Hforms & Hfull & Hdeep).
    + reflexivity.
    + reflexivity.
    + eexists. reflexivity.
    + intros n req. reflexivity.
    + split; [exact Hquick|]. split; [exact Hforms|]. split; [exact Hfull|].
      exact (f_equal fst Hdeep).
  - destruct (fetch_failure_replies RefURL.parse Ref.unreachable
                (Ref.constant 0) (Ref.loading []) Ref.noMatch
                (Ref.request "https://x.com") "https://x.com" start)
      as (Hquick & Hforms & Hfull & Hdeep).
    + reflexivity.
    + reflexivity.
    + eexists. reflexivity.
    + intros n req. exact I.
    + split; [exact Hquick|]. split; [exact Hforms|]. split; [exact Hfull|].
      exact (f_equal fst Hdeep).
Defined.

(* ================================================================== *)
(** * Requests without a usable URL *)
(* ================================================================== *)

(** C4 (as stated) fails for the quick links: the submitted text [a b] is
    not a URL, with or without a scheme, yet the reply is HTTP 200 with the
    error fallback's placeholder data, not HTTP 400. *)
Lemma quick_links_accepts_unparseable_url :
  RefURL.parse "a b" None = None
  /\ RefURL.parse (withScheme "a b") None = None
  /\ (QuickLinks.POST RefURL.parse Ref.unreachable (Ref.constant 0) (Ref.loading [])
        Ref.noMatch (Ref.request "a b") start).1
     = Json 200 (QuickLinks.errorFallback (Ref.request "a b") (TypeError_ "Invalid URL")).
Proof. repeat split; vm_compute; reflexivity. Qed.

Lemma missing_url_cases (rq : ApiRequest) :
  missing_url rq -> json_url rq = None \/ json_url rq = Some "".
Proof.
  unfold missing_url. destruct (json_url rq) as [[|c s]|]; cbn; intros H;
    [right; reflexivity|discriminate|left; reflexivity].
Qed.

(** C4 (amended). The deep analysis answers a request whose URL is missing
    or unparseable with HTTP 400 and an error field, leaving the world
    untouched (no fetch, no estimation).  The quick links, the full
    analysis and the form validation do so when the URL is missing; they do
    not check the syntax of a URL that is present: when it does not parse
    even with the scheme added, the quick links and the form validation
    answer HTTP 200 with their error fallback and the full analysis answers
    HTTP 500, and no request reaches the network. *)
Theorem invalid_url_rejected (URLp : UrlParser) (net : Transport) (rnd : nat -> Q)
    (load : string -> Result Document) (rx : RegexEngine) (rq : ApiRequest) (w : World)
    (Hinvalid : missing_url rq \/ unparseable_url URLp rq) :
  (exists msg, DeepAnalysis.POST URLp net load rq w = (JsonError 400 msg, w))
  /\ (missing_url rq ->
      QuickLinks.POST URLp net rnd load rx rq w = (JsonError 400 "URL is required", w)
      /\ FullAnalysis.POST URLp net load rq w = (JsonError 400 "URL is required", w)
      /\ FormValidation.POST URLp net rnd load rx rq w = (JsonError 400 "URL is required", w))
  /\ (forall url,
        json_url rq = Some url -> JS.truthy url = true ->
        URLp (withScheme url) None = None ->
        (exists e w', QuickLinks.POST URLp net rnd load rx rq w
                      = (Json 200 (QuickLinks.errorFallback rq e), w')
                      /\ sent w' = sent w)
        /\ (exists e w', FormValidation.POST URLp net rnd load rx rq w
                         = (Json 200 (FormValidation.errorFallback rq e), w')
                         /\ sent w' = sent w)
        /\ (exists msg, FullAnalysis.POST URLp net load rq w = (JsonError 500 msg, w))).
Proof.
  split; [|split].
  - destruct Hinvalid as [Hmiss|(url & Hjson & Htruthy & Hparse)].
    + exists "URL is required".
      unfold DeepAnalysis.POST.
      destruct (missing_url_cases rq Hmiss) as [-> | ->]; reflexivity.
    + exists "Invalid URL format".
      unfold DeepAnalysis.POST. rewrite Hjson, Htruthy, Hparse. reflexivity.
  - intros Hmiss.
    unfold QuickLinks.POST, FullAnalysis.POST, FormValidation.POST.
    destruct (missing_url_cases rq Hmiss) as [-> | ->]; repeat split.
  - intros url Hjson Htruthy Hparse.
    destruct (fetchWithStrategies_unparseable URLp net rnd (withScheme url) 3 w Hparse)
      as (e & w1 & Hsame & Hfetch).
    split; [|split].
    + rewrite (quick_links_after_exhaustion URLp net rnd load rx rq url w w1 e
                 Hjson Htruthy Hfetch).
      rewrite (generateFallbackData_throws URLp rnd (withScheme url) w1 Hparse).
      eexists. exists w1. split; [reflexivity|]. unfold sent. rewrite Hsame. reflexivity.
    + rewrite (form_validation_after_exhaustion URLp net rnd load rx rq url w w1 e
                 Hjson Htruthy Hfetch).
      rewrite (generateFormEstimates_throws URLp rnd (withScheme url) w1 Hparse).
      eexists. exists w1. split; [reflexivity|]. unfold sent. rewrite Hsame. reflexivity.
    + unfold FullAnalysis.POST. rewrite Hjson, Htruthy. cbn [negb].
      unfold mbind, io_bind, fetch. cbn [req_url]. rewrite Hparse. eauto.
Qed.

Lemma invalid_url_rejected_witness :
  (exists msg, DeepAnalysis.POST RefURL.parse Ref.unreachable (Ref.loading [])
                 (mkApiRequest "http://localhost:3000/api" None) start
               = (JsonError 400 msg, start))
  /\ QuickLinks.POST RefURL.parse Ref.unreachable (Ref.constant 0) (Ref.loading [])
       Ref.noMatch (mkApiRequest "http://localhost:3000/api" None) start
     = (JsonError 400 "URL is required", start).
Proof.
  destruct (invalid_url_rejected RefURL.parse Ref.unreachable (Ref.constant 0)
              (Ref.loading []) Ref.noMatch
              (mkApiRequest "http://localhost:3000/api" None) start)
    as (Hdeep & Hothers & _).
  - left. reflexivity.
  - split; [exact Hdeep|]. apply Hothers. reflexivity.
Defined.

(** The deep analysis rejects the text that the quick links accept. *)
Example deep_analysis_rejects_unparseable_url :
  DeepAnalysis.POST RefURL.parse Ref.unreachable (Ref.loading []) (Ref.request "a b") start
  = (JsonError 400 "Invalid URL format", start).
Proof. reflexivity. Qed.

(* ================================================================== *)
(** * The crawl of the form validation *)
(* ================================================================== *)

(** C3. The crawl does not skip an already visited candidate: it stops at
    it.  On a site whose home page links back to itself first and then to
    ten other pages, every one of which can be fetched, the candidate list
    holds eleven distinct same-host links, and the crawl ends after the
    home page, with one page crawled instead of ten. *)
Theorem crawl_stops_at_visited_link :
  length (extractLinksFromHtml RefURL.parse (Ref.loading Ref.homePage) Ref.noMatch
            "<html>" "https://x.com/") = 11
  /\ NoDup (extractLinksFromHtml RefURL.parse (Ref.loading Ref.homePage) Ref.noMatch
              "<html>" "https://x.com/")
  /\ exists b w',
       FormValidation.POST RefURL.parse (Ref.answering 200 "OK" "<html>") (Ref.constant 0)
         (Ref.loading Ref.homePage) Ref.noMatch (Ref.request "https://x.com/") start
       = (Json 200 b, w')
       /\ FormValidation.method b = "enhanced_crawling"
       /\ FormValidation.total_pages_crawled b = 1%Z
       /\ sent w' = 1.
Proof.
  split; [vm_compute; reflexivity|].
  split; [apply (bool_decide_eq_true_1 (NoDup _)); vm_compute; reflexivity|].
  eexists. eexists. split; [vm_compute; reflexivity|].
  repeat split.
Qed.

(** Without the link back to the home page the same site is crawled up to
    the budget. *)
Example crawl_reaches_budget :
  exists b w',
    FormValidation.POST RefURL.parse (Ref.answering 200 "OK" "<html>") (Ref.constant 0)
      (Ref.loading Ref.innerPage) Ref.noMatch (Ref.request "https://x.com/") start
    = (Json 200 b, w')
    /\ FormValidation.total_pages_crawled b = 10%Z
    /\ sent w' = 10.
Proof.
  eexists. eexists. split; [vm_compute; reflexivity|].
  repeat split.
Qed.

(* ================================================================== *)
(** * Properties of link extraction *)
(* ================================================================== *)

Lemma has_url_elem (u : string) (links : list Link) :
  has_url u links = true <-> u ∈ link_url <$> links.
Proof.
  unfold has_url. induction links as [|l links IH]; cbn.
  - rewrite elem_of_nil. split; [discriminate|tauto].
  - rewrite elem_of_cons, orb_true_iff, IH, String.eqb_eq. split; intros [H|H]; auto.
Qed.

Lemma has_url_false (u : string) (links : list Link) :
  has_url u links = false <-> u ∉ link_url <$> links.
Proof.
  rewrite <- has_url_elem. destruct (has_url u links); split; congruence.
Qed.

Lemma NoDup_snoc {A} (l : list A) (x : A) : NoDup l -> x ∉ l -> NoDup (l ++ [x]).
Proof.
  intros Hl Hx. apply NoDup_app. split; [exact Hl|]. split; [|apply NoDup_singleton].
  intros y Hy Hyx. apply list_elem_of_singleton in Hyx. subst. contradiction.
Qed.

Section CheerioLinks.

Variable URLp : UrlParser.
Variable norm : string -> string.
Variable targetUrl baseDomain : string.

#[local] Abbreviation step := (cheerio_link_step URLp norm targetUrl baseDomain).
#[local] Abbreviation target := (anchor_target URLp targetUrl).

(** What one anchor does to the two lists. *)
Lemma cheerio_link_step_cases (acc acc' : list Link * list Link) (el : Elem) :
  step acc el = Ok acc' ->
  (target el = None /\ acc' = acc)
  \/ (exists u lu,
        target el = Some u /\ URLp u None = Some lu
        /\ ((hostname lu = baseDomain
             /\ acc' = (if has_url u acc.1 then acc.1 else acc.1 ++ [link_of norm el u], acc.2))
            \/ (hostname lu <> baseDomain
                /\ acc' = (acc.1, if has_url u acc.2 then acc.2
                                  else acc.2 ++ [link_of norm el u])))).
Proof.
  unfold cheerio_link_step, anchor_target, resolved, new_URL.
  destruct (attr "href" el) as [h|]; cbn; [|intros [= <-]; left; auto].
  destruct (skipped_href h); [intros [= <-]; left; auto|].
  destruct (URLp h (Some targetUrl)) as [u|]; cbn; [|intros [= <-]; left; auto].
  destruct (URLp (href u) None) as [lu|] eqn:Hlu; cbn; [|discriminate].
  destruct acc as [int ext]. intros Hstep. right. exists (href u), lu.
  split; [reflexivity|]. split; [exact Hlu|].
  destruct (String.eqb_spec (hostname lu) baseDomain) as [Heq|Hne]; [left|right];
    (split; [assumption|]); cbn [fst snd];
    match goal with |- context [has_url ?x ?l] => destruct (has_url x l) end;
    injection Hstep as <-; reflexivity.
Qed.

Lemma cheerio_link_step_partitioned (acc acc' : list Link * list Link) (el : Elem) :
  partitioned URLp baseDomain acc -> step acc el = Ok acc' ->
  partitioned URLp baseDomain acc'.
Proof.
  intros (Hint & Hext & Hni & Hne) Hstep.
  destruct (cheerio_link_step_cases acc acc' el Hstep)
    as [[_ ->]|(u & lu & _ & Hlu & [[Hhost ->]|[Hhost ->]])].
  - repeat split; assumption.
  - destruct (has_url u acc.1) eqn:Hhas; [repeat split; assumption|].
    apply has_url_false in Hhas.
    repeat split; cbn [fst snd]; try assumption.
    + apply Forall_app. split; [assumption|]. constructor; [|constructor]. eauto.
    + rewrite fmap_app. apply NoDup_snoc; assumption.
  - destruct (has_url u acc.2) eqn:Hhas; [repeat split; assumption|].
    apply has_url_false in Hhas.
    repeat split; cbn [fst snd]; try assumption.
    + apply Forall_app. split; [assumption|]. constructor; [|constructor]. eauto.
    + rewrite fmap_app. apply NoDup_snoc; assumption.
Qed.

(** The loop body as a function of the anchor's target. *)
Lemma cheerio_link_step_eq (acc : list Link * list Link) (el : Elem) :
  step acc el =
  match target el with
  | None => Ok acc
  | Some u =>
      match URLp u None with
      | None => Throw (TypeError_ "Invalid URL")
      | Some lu =>
          if String.eqb (hostname lu) baseDomain
          then Ok (if has_url u acc.1 then acc else (acc.1 ++ [link_of norm el u], acc.2))
          else Ok (if has_url u acc.2 then acc else (acc.1, acc.2 ++ [link_of norm el u]))
      end
  end.
Proof.
  unfold cheerio_link_step, anchor_target, resolved, new_URL.
  destruct (attr "href" el) as [h|]; cbn; [|reflexivity].
  destruct (skipped_href h); [reflexivity|].
  destruct (URLp h (Some targetUrl)) as [u|]; cbn; [|reflexivity].
  destruct (URLp (href u) None) as [lu|]; cbn; [|reflexivity].
  destruct acc as [int ext]. cbn [fst snd].
  destruct (String.eqb (hostname lu) baseDomain);
    match goal with |- context [has_url ?x ?l] => destruct (has_url x l) end;
    reflexivity.
Qed.

Lemma each_partitioned (els : list Elem) :
  forall acc acc',
    partitioned URLp baseDomain acc -> each step els acc = Ok acc' ->
    partitioned URLp baseDomain acc'.
Proof.
  induction els as [|el els IH]; intros acc acc' Hacc; cbn.
  - intros [= <-]. exact Hacc.
  - destruct (step acc el) as [acc1|e] eqn:Hstep; cbn; [|discriminate].
    intros Hrest. apply (IH acc1); [|exact Hrest].
    apply (cheerio_link_step_partitioned acc acc1 el); assumption.
Qed.

Lemma cheerio_link_step_grows (acc acc' : list Link * list Link) (el : Elem) :
  step acc el = Ok acc' -> acc.1 `prefix_of` acc'.1 /\ acc.2 `prefix_of` acc'.2.
Proof.
  rewrite cheerio_link_step_eq.
  destruct (target el) as [u|]; [|intros [= <-]; split; reflexivity].
  destruct (URLp u None) as [lu|]; [|discriminate].
  destruct (String.eqb (hostname lu) baseDomain);
    match goal with |- context [has_url ?x ?l] => destruct (has_url x l) end;
    intros [= <-]; cbn [fst snd]; split; try reflexivity; apply prefix_app_r; reflexivity.
Qed.

Lemma each_grows (els : list Elem) :
  forall acc acc',
    each step els acc = Ok acc' -> acc.1 `prefix_of` acc'.1 /\ acc.2 `prefix_of` acc'.2.
Proof.
  induction els as [|el els IH]; intros acc acc'; cbn.
  - intros [= <-]. split; reflexivity.
  - destruct (step acc el) as [acc1|e] eqn:Hstep; cbn; [|discriminate].
    intros Hrest. destruct (cheerio_link_step_grows acc acc1 el Hstep) as [H1 H2].
    destruct (IH acc1 acc' Hrest) as [H3 H4].
    split; etrans; eassumption.
Qed.

Lemma each_app (pre post : list Elem) :
  forall acc acc',
    each step (pre ++ post) acc = Ok acc' ->
    exists acc1, each step pre acc = Ok acc1 /\ each step post acc1 = Ok acc'.
Proof.
  induction pre as [|el pre IH]; intros acc acc'; cbn.
  - intros H. exists acc. split; [reflexivity|exact H].
  - destruct (step acc el) as [acc1|e]; cbn; [|discriminate]. apply IH.
Qed.

(** An anchor that resolves leaves an entry for its target, in the list
    its host name selects. *)
Lemma cheerio_link_step_records (acc acc' : list Link * list Link) (el : Elem)
    (u : string) (lu : Url) :
  step acc el = Ok acc' -> target el = Some u -> URLp u None = Some lu ->
  if String.eqb (hostname lu) baseDomain
  then u ∈ link_url <$> acc'.1
  else u ∈ link_url <$> acc'.2.
Proof.
  rewrite cheerio_link_step_eq. intros Hstep Ht Hlu. rewrite Ht, Hlu in Hstep.
  destruct (String.eqb (hostname lu) baseDomain);
    match type of Hstep with context [has_url ?x ?l] => destruct (has_url x l) eqn:Hhas end;
    injection Hstep as <-; cbn [fst snd];
    try (apply has_url_elem; assumption);
    rewrite fmap_app; apply elem_of_app; right; apply list_elem_of_singleton; reflexivity.
Qed.

(** Dedup is idempotent: the anchors of a finished extraction add nothing
    to its result, nor to any extension of it. *)
Lemma each_idempotent (els : list Elem) :
  forall acc acc' acc2,
    each step els acc = Ok acc' ->
    acc'.1 `prefix_of` acc2.1 -> acc'.2 `prefix_of` acc2.2 ->
    each step els acc2 = Ok acc2.
Proof.
  induction els as [|el els IH]; intros acc acc' acc2; cbn; [reflexivity|].
  destruct (step acc el) as [acc1|e] eqn:Hstep; cbn; [|discriminate].
  intros Hrest Hp1 Hp2.
  destruct (each_grows els acc1 acc' Hrest) as [Hg1 Hg2].
  assert (Hsame : step acc2 el = Ok acc2).
  { rewrite cheerio_link_step_eq.
    destruct (target el) as [u|] eqn:Ht; [|reflexivity].
    destruct (URLp u None) as [lu|] eqn:Hlu.
    - pose proof (cheerio_link_step_records acc acc1 el u lu Hstep Ht Hlu) as Hrec.
      destruct (String.eqb (hostname lu) baseDomain).
      + assert (Hin : u ∈ link_url <$> acc2.1).
        { destruct Hg1 as [k1 Hk1]. destruct Hp1 as [k2 Hk2].
          rewrite Hk2, Hk1, !fmap_app, !elem_of_app. auto. }
        apply has_url_elem in Hin. rewrite Hin. reflexivity.
      + assert (Hin : u ∈ link_url <$> acc2.2).
        { destruct Hg2 as [k1 Hk1]. destruct Hp2 as [k2 Hk2].
          rewrite Hk2, Hk1, !fmap_app, !elem_of_app. auto. }
        apply has_url_elem in Hin. rewrite Hin. reflexivity.
    - rewrite cheerio_link_step_eq, Ht, Hlu in Hstep. discriminate. }
  rewrite Hsame. cbn. apply (IH acc1 acc' acc2 Hrest Hp1 Hp2).
Qed.

(** Anchors with other targets leave a URL absent. *)
Lemma each_keeps_absent (u : string) (pre : list Elem) :
  forall acc acc',
    Forall (fun y => target y <> Some u) pre ->
    each step pre acc = Ok acc' ->
    (u ∉ link_url <$> acc.1) -> (u ∉ link_url <$> acc.2) ->
    (u ∉ link_url <$> acc'.1) /\ (u ∉ link_url <$> acc'.2).
Proof.
  induction pre as [|el pre IH]; intros acc acc' Hpre; cbn.
  - intros [= <-]. auto.
  - inversion Hpre as [|? ? Hel Hpre']; subst.
    destruct (step acc el) as [acc1|e] eqn:Hstep; cbn; [|discriminate].
    intros Hrest H1 H2. apply (IH acc1 acc' Hpre' Hrest).
    + destruct (cheerio_link_step_cases acc acc1 el Hstep)
        as [[_ ->]|(v & lv & Hv & _ & [[_ ->]|[_ ->]])]; cbn [fst]; try assumption.
      destruct (has_url v acc.1); [assumption|].
      rewrite fmap_app, not_elem_of_app. split; [assumption|].
      cbn. rewrite list_elem_of_singleton. congruence.
    + destruct (cheerio_link_step_cases acc acc1 el Hstep)
        as [[_ ->]|(v & lv & Hv & _ & [[_ ->]|[_ ->]])]; cbn [snd]; try assumption.
      destruct (has_url v acc.2); [assumption|].
      rewrite fmap_app, not_elem_of_app. split; [assumption|].
      cbn. rewrite list_elem_of_singleton. congruence.
Qed.

(** The entry of a URL is the one of the first anchor that resolves to it. *)
Lemma each_first_wins (els : list Elem) (el : Elem) (u : string)
    (acc' : list Link * list Link) :
  first_with target u el els ->
  each step els ([], []) = Ok acc' ->
  link_of norm el u ∈ acc'.1 ++ acc'.2.
Proof.
  intros (pre & post & -> & Ht & Hpre) Hrun.
  destruct (each_app pre (el :: post) _ _ Hrun) as (acc1 & Hrun1 & Hrun2).
  cbn in Hrun2. destruct (step acc1 el) as [acc2|e] eqn:Hstep; cbn in Hrun2; [|discriminate].
  destruct (each_keeps_absent u pre _ _ Hpre Hrun1) as [Ha1 Ha2];
    [cbn; apply not_elem_of_nil|cbn; apply not_elem_of_nil|].
  destruct (each_grows post acc2 acc' Hrun2) as [[k1 Hk1] [k2 Hk2]].
  rewrite cheerio_link_step_eq, Ht in Hstep.
  destruct (URLp u None) as [lu|]; [|discriminate].
  apply has_url_false in Ha1, Ha2. rewrite Ha1, Ha2 in Hstep.
  rewrite Hk1, Hk2.
  destruct (String.eqb (hostname lu) baseDomain); injection Hstep as <-; cbn [fst snd];
    rewrite !elem_of_app, list_elem_of_singleton; auto.
Qed.

End CheerioLinks.

Section PatternLinks.

Variable URLp : UrlParser.
Variable baseUrl baseDomain : string.

#[local] Abbreviation step := (text_link_step URLp baseUrl baseDomain).
#[local] Abbreviation target := (match_target URLp baseUrl).

(** The loop body as a function of the match's target. *)
Lemma text_link_step_eq (st : TextState) (m : RegexMatch) :
  step st m =
  match target m with
  | None => st
  | Some u =>
      if bool_decide (u ∈ st.1.1) then st
      else
        match URLp u None with
        | None => ({[ u ]} ∪ st.1.1, st.1.2, st.2)
        | Some lu =>
            if String.eqb (hostname lu) baseDomain
            then ({[ u ]} ∪ st.1.1, st.1.2 ++ [link_of_match m u], st.2)
            else ({[ u ]} ∪ st.1.1, st.1.2, st.2 ++ [link_of_match m u])
        end
  end.
Proof.
  destruct st as [[found int] ext].
  unfold text_link_step, match_target, resolved. cbn [fst snd].
  destruct (skipped_href m.1); [reflexivity|].
  destruct (URLp m.1 (Some baseUrl)) as [u|]; cbn; [|reflexivity].
  destruct (bool_decide (href u ∈ found)); [reflexivity|].
  destruct (URLp (href u) None) as [lu|]; [|reflexivity].
  destruct (String.eqb (hostname lu) baseDomain); reflexivity.
Qed.

#[local] Abbreviation text_inv := (text_inv URLp baseDomain).

Lemma text_link_step_inv (st : TextState) (m : RegexMatch) :
  text_inv st -> text_inv (step st m).
Proof.
  intros [(Hint & Hext & Hni & Hne) Hfound]. rewrite text_link_step_eq.
  destruct (target m) as [u|]; [|split; [repeat split|]; assumption].
  destruct (bool_decide_reflect (u ∈ st.1.1)) as [Hin|Hnin];
    [split; [repeat split|]; assumption|].
  assert (Hfresh : (u ∉ link_url <$> st.1.2) /\ (u ∉ link_url <$> st.2)).
  { split; intros Hu; apply Hnin, Hfound; rewrite fmap_app, elem_of_app; auto. }
  destruct Hfresh as [Hf1 Hf2].
  destruct (URLp u None) as [lu|] eqn:Hlu.
  - destruct (String.eqb_spec (hostname lu) baseDomain) as [Heq|Hneq].
    + split; [repeat split|]; cbn [fst snd]; try assumption.
      * apply Forall_app. split; [assumption|]. constructor; [|constructor]. eauto.
      * rewrite fmap_app. apply NoDup_snoc; assumption.
      * intros v. rewrite !fmap_app, !elem_of_app. cbn.
        rewrite list_elem_of_singleton, elem_of_union, elem_of_singleton.
        intros [[Hv| ->]|Hv]; [right; apply Hfound|left; reflexivity|right; apply Hfound];
          rewrite fmap_app, elem_of_app; auto.
    + split; [repeat split|]; cbn [fst snd]; try assumption.
      * apply Forall_app. split; [assumption|]. constructor; [|constructor]. eauto.
      * rewrite fmap_app. apply NoDup_snoc; assumption.
      * intros v. rewrite !fmap_app, !elem_of_app. cbn.
        rewrite list_elem_of_singleton, elem_of_union, elem_of_singleton.
        intros [Hv|[Hv| ->]]; [right; apply Hfound|right; apply Hfound|left; reflexivity];
          rewrite fmap_app, elem_of_app; auto.
  - split; [repeat split|]; cbn [fst snd]; try assumption.
    intros v Hv. apply elem_of_union. right. apply Hfound, Hv.
Qed.

Lemma fold_text_inv (ms : list RegexMatch) :
  forall st, text_inv st -> text_inv (fold_left step ms st).
Proof.
  induction ms as [|m ms IH]; intros st Hst; cbn; [exact Hst|].
  apply IH, text_link_step_inv, Hst.
Qed.

(** [foundUrls] and the two lists only grow. *)
Lemma text_link_step_grows (st : TextState) (m : RegexMatch) :
  st.1.1 ⊆ (step st m).1.1
  /\ st.1.2 `prefix_of` (step st m).1.2 /\ st.2 `prefix_of` (step st m).2.
Proof.
  rewrite text_link_step_eq.
  destruct (target m) as [u|]; [|repeat split; reflexivity].
  destruct (bool_decide (u ∈ st.1.1)); [repeat split; reflexivity|].
  destruct (URLp u None) as [lu|]; [destruct (String.eqb (hostname lu) baseDomain)|];
    cbn [fst snd]; repeat split; try reflexivity;
    try (apply prefix_app_r; reflexivity); set_solver.
Qed.

Lemma fold_text_grows (ms : list RegexMatch) :
  forall st,
    st.1.1 ⊆ (fold_left step ms st).1.1
    /\ st.1.2 `prefix_of` (fold_left step ms st).1.2
    /\ st.2 `prefix_of` (fold_left step ms st).2.
Proof.
  induction ms as [|m ms IH]; intros st; cbn; [repeat split; reflexivity|].
  destruct (text_link_step_grows st m) as (H1 & H2 & H3).
  destruct (IH (step st m)) as (H4 & H5 & H6).
  repeat split; etrans; eassumption.
Qed.

(** A match that resolves leaves its target in [foundUrls]. *)
Lemma text_link_step_finds (st : TextState) (m : RegexMatch) (u : string) :
  target m = Some u -> u ∈ (step st m).1.1.
Proof.
  intros Ht. rewrite text_link_step_eq, Ht.
  destruct (bool_decide_reflect (u ∈ st.1.1)) as [Hin|Hnin]; [exact Hin|].
  destruct (URLp u None) as [lu|]; [destruct (String.eqb (hostname lu) baseDomain)|];
    cbn [fst snd]; set_solver.
Qed.

(** Dedup is idempotent: the matches of a finished extraction change
    nothing in a state that has found at least the same URLs. *)
Lemma fold_text_idempotent (ms : list RegexMatch) :
  forall st st2,
    (fold_left step ms st).1.1 ⊆ st2.1.1 -> fold_left step ms st2 = st2.
Proof.
  induction ms as [|m ms IH]; intros st st2; cbn; [reflexivity|].
  intros Hsub.
  destruct (fold_text_grows ms (step st m)) as (Hg & _ & _).
  assert (Hsame : step st2 m = st2).
  { rewrite text_link_step_eq. destruct (target m) as [u|] eqn:Ht; [|reflexivity].
    pose proof (text_link_step_finds st m u Ht) as Hf.
    rewrite bool_decide_eq_true_2; [reflexivity|]. set_solver. }
  rewrite Hsame. apply (IH (step st m) st2 Hsub).
Qed.

(** Matches with other targets leave a URL out of [foundUrls]. *)
Lemma fold_text_keeps_absent (u : string) (pre : list RegexMatch) :
  forall st,
    Forall (fun y => target y <> Some u) pre ->
    u ∉ st.1.1 -> u ∉ (fold_left step pre st).1.1.
Proof.
  induction pre as [|m pre IH]; intros st Hpre Hnin; cbn; [exact Hnin|].
  inversion Hpre as [|? ? Hm Hpre']; subst.
  apply IH; [exact Hpre'|].
  rewrite text_link_step_eq. destruct (target m) as [v|]; [|exact Hnin].
  destruct (bool_decide (v ∈ st.1.1)); [exact Hnin|].
  assert (Huv : u <> v) by congruence.
  destruct (URLp v None) as [lv|]; [destruct (String.eqb (hostname lv) baseDomain)|];
    cbn [fst snd]; apply not_elem_of_union;
    (split; [apply not_elem_of_singleton; exact Huv|exact Hnin]).
Qed.

(** The entry of a URL is the one of the first match that resolves to it. *)
Lemma fold_text_first_wins (ms : list RegexMatch) (m : RegexMatch) (u : string) (lu : Url) :
  first_with target u m ms ->
  URLp u None = Some lu ->
  let st := fold_left step ms (∅, [], []) in
  link_of_match m u ∈ st.1.2 ++ st.2.
Proof.
  intros (pre & post & -> & Ht & Hpre) Hlu. cbn zeta.
  rewrite fold_left_app. cbn [fold_left].
  set (st1 := fold_left step pre (∅, [], [])).
  assert (Hnin : u ∉ st1.1.1).
  { apply fold_text_keeps_absent; [exact Hpre|]. cbn. set_solver. }
  destruct (fold_text_grows post (step st1 m)) as (_ & [k1 Hk1] & [k2 Hk2]).
  rewrite Hk1, Hk2. rewrite text_link_step_eq, Ht.
  rewrite bool_decide_eq_false_2 by exact Hnin. rewrite Hlu.
  destruct (String.eqb (hostname lu) baseDomain); cbn [fst snd];
    rewrite !elem_of_app, list_elem_of_singleton; auto.
Qed.

End PatternLinks.

Section DeepLinks.

Variable URLp : UrlParser.
Variable targetHref baseUrl : string.

#[local] Abbreviation step := (deep_link_step URLp targetHref baseUrl).

(** The invariant of the deep analysis' list: no URL twice, and every URL
    begins with [baseUrl]. *)
Lemma deep_link_step_inv (links links' : list Link) (el : Elem) :
  NoDup (link_url <$> links) ->
  Forall (fun l => JS.startsWith (link_url l) baseUrl = true) links ->
  step links el = Ok links' ->
  NoDup (link_url <$> links')
  /\ Forall (fun l => JS.startsWith (link_url l) baseUrl = true) links'.
Proof.
  intros Hnd Hpre.
  assert (Hpush : forall f t1 t2,
            JS.startsWith f baseUrl = true -> has_url f links = false ->
            NoDup (link_url <$> links ++ [mkLink f t1 t2])
            /\ Forall (fun l => JS.startsWith (link_url l) baseUrl = true)
                      (links ++ [mkLink f t1 t2])).
  { intros f t1 t2 Hs Hh. split.
    - rewrite fmap_app. apply NoDup_snoc; [exact Hnd|]. apply has_url_false, Hh.
    - apply Forall_app. split; [exact Hpre|]. constructor; [exact Hs|constructor]. }
  unfold deep_link_step, new_URL, mbind, result_bind.
  repeat case_match; intros [= <-]; auto;
    match goal with
    | H : _ && negb _ = true |- _ =>
        apply andb_true_iff in H as [Hs Hh]; apply negb_true_iff in Hh
    end;
    (apply Hpush; [first [exact Hs|assumption]|exact Hh]).
Qed.

Lemma deep_links_inv (els : list Elem) :
  forall links links',
    NoDup (link_url <$> links) ->
    Forall (fun l => JS.startsWith (link_url l) baseUrl = true) links ->
    each step els links = Ok links' ->
    NoDup (link_url <$> links')
    /\ Forall (fun l => JS.startsWith (link_url l) baseUrl = true) links'.
Proof.
  induction els as [|el els IH]; intros links links' Hnd Hpre; cbn.
  - intros [= <-]. auto.
  - destruct (step links el) as [links1|e] eqn:Hstep; cbn; [|discriminate].
    destruct (deep_link_step_inv links links1 el Hnd Hpre Hstep) as [Hnd1 Hpre1].
    apply IH; assumption.
Qed.

#[local] Abbreviation stored := (deep_target URLp targetHref baseUrl).

(** An anchor with a stored string is recorded under it, unless the list
    holds that string already. *)
Lemma deep_link_step_records (links : list Link) (el : Elem) (u : string) :
  stored el = Some u ->
  step links el = Ok (if has_url u links then links else links ++ [deep_link_of el u]).
Proof.
  unfold deep_target, deep_stored, deep_link_step, deep_link_of, new_URL.
  destruct (attr "href" el) as [h|]; [|discriminate].
  cbv beta iota zeta. unfold mbind, option_bind, result_bind.
  destruct (JS.truthy h); [|discriminate]. cbv beta iota delta [negb].
  destruct (JS.startsWith h "http").
  { destruct (JS.startsWith h baseUrl) eqn:Hh; [|discriminate].
    rewrite Hh. intros [= <-]. cbv beta iota delta [andb].
    destruct (has_url h links); reflexivity. }
  destruct (JS.startsWith h "/").
  { destruct (JS.startsWith (baseUrl +:+ h) baseUrl); [|discriminate].
    intros [= <-]. cbv beta iota delta [andb]. destruct (has_url (baseUrl +:+ h) links); reflexivity. }
  destruct (JS.startsWith h "#" || JS.startsWith h "mailto:" || JS.startsWith h "tel:");
    [discriminate|].
  destruct (URLp h (Some targetHref)) as [v|]; [|discriminate].
  cbv beta iota delta [fmap option_fmap option_map].
  destruct (JS.startsWith (href v) baseUrl); [|discriminate].
  intros [= <-]. cbv beta iota delta [andb]. destruct (has_url (href v) links); reflexivity.
Qed.

(** An anchor without a stored string leaves every list as it is, or stops
    the loop whatever the list. *)
Lemma deep_link_step_skips (el : Elem) :
  stored el = None ->
  (forall links, step links el = Ok links)
  \/ (forall links, step links el = Throw (TypeError_ "Invalid URL")).
Proof.
  unfold deep_target, deep_stored, deep_link_step, new_URL.
  destruct (attr "href" el) as [h|]; [|auto].
  cbv beta iota zeta. unfold mbind, option_bind, result_bind.
  destruct (JS.truthy h); [|auto]. cbv beta iota delta [negb].
  destruct (JS.startsWith h "http").
  { destruct (JS.startsWith h baseUrl) eqn:Hh; [|auto].
    rewrite Hh. discriminate. }
  destruct (JS.startsWith h "/").
  { destruct (JS.startsWith (baseUrl +:+ h) baseUrl); [discriminate|].
    cbv beta iota delta [andb]. auto. }
  destruct (JS.startsWith h "#" || JS.startsWith h "mailto:" || JS.startsWith h "tel:");
    [auto|].
  destruct (URLp h (Some targetHref)) as [v|]; [|auto].
  cbv beta iota delta [fmap option_fmap option_map].
  destruct (JS.startsWith (href v) baseUrl); [discriminate|].
  cbv beta iota delta [andb]. auto.
Qed.
Lemma deep_link_step_grows (links links' : list Link) (el : Elem) :
  step links el = Ok links' -> links `prefix_of` links'.
Proof.
  destruct (stored el) as [u|] eqn:Ht.
  - rewrite (deep_link_step_records links el u Ht).
    destruct (has_url u links); intros [= <-]; [reflexivity|apply prefix_app_r; reflexivity].
  - destruct (deep_link_step_skips el Ht) as [H|H]; rewrite H; [|discriminate].
    intros [= <-]. reflexivity.
Qed.

Lemma deep_links_grow (els : list Elem) :
  forall links links', each step els links = Ok links' -> links `prefix_of` links'.
Proof.
  induction els as [|el els IH]; intros links links'; cbn.
  - intros [= <-]. reflexivity.
  - destruct (step links el) as [links1|e] eqn:Hstep; cbn; [|discriminate].
    intros Hrest. etrans; [apply (deep_link_step_grows _ _ _ Hstep)|apply IH, Hrest].
Qed.

Lemma deep_links_app (pre post : list Elem) :
  forall links links',
    each step (pre ++ post) links = Ok links' ->
    exists links1, each step pre links = Ok links1 /\ each step post links1 = Ok links'.
Proof.
  induction pre as [|el pre IH]; intros links links'; cbn.
  - intros H. exists links. split; [reflexivity|exact H].
  - destruct (step links el) as [links1|e]; cbn; [|discriminate]. apply IH.
Qed.

(** Anchors stored under other strings leave a string absent. *)
Lemma deep_links_keep_absent (u : string) (pre : list Elem) :
  forall links links',
    Forall (fun y => stored y <> Some u) pre ->
    each step pre links = Ok links' ->
    u ∉ link_url <$> links -> u ∉ link_url <$> links'.
Proof.
  induction pre as [|el pre IH]; intros links links' Hpre; cbn.
  - intros [= <-]. auto.
  - inversion Hpre as [|? ? Hel Hpre']; subst.
    destruct (step links el) as [links1|e] eqn:Hstep; cbn; [|discriminate].
    intros Hrest Habs. apply (IH links1 links' Hpre' Hrest).
    destruct (stored el) as [v|] eqn:Ht.
    + rewrite (deep_link_step_records links el v Ht) in Hstep. injection Hstep as <-.
      destruct (has_url v links); [assumption|].
      rewrite fmap_app, not_elem_of_app. split; [assumption|].
      cbn. rewrite list_elem_of_singleton. congruence.
    + destruct (deep_link_step_skips el Ht) as [H|H]; rewrite H in Hstep; [|discriminate].
      injection Hstep as <-. assumption.
Qed.

(** The entry of a stored string is the one of the first anchor stored
    under it. *)
Lemma deep_links_first_wins (els : list Elem) (el : Elem) (u : string)
    (links' : list Link) :
  first_with stored u el els ->
  each step els [] = Ok links' ->
  deep_link_of el u ∈ links'.
Proof.
  intros (pre & post & -> & Ht & Hpre) Hrun.
  destruct (deep_links_app pre (el :: post) _ _ Hrun) as (links1 & Hrun1 & Hrun2).
  cbn in Hrun2. rewrite (deep_link_step_records links1 el u Ht) in Hrun2. cbn in Hrun2.
  pose proof (deep_links_keep_absent u pre _ _ Hpre Hrun1) as Habs.
  apply has_url_false in Habs; [|cbn; apply not_elem_of_nil]. rewrite Habs in Hrun2.
  destruct (deep_links_grow post _ _ Hrun2) as [k ->].
  rewrite !elem_of_app, list_elem_of_singleton. auto.
Qed.

(** Dedup is idempotent: the anchors of a finished extraction add nothing
    to its result, nor to any extension of it. *)
Lemma deep_links_idempotent (els : list Elem) :
  forall links links' links2,
    each step els links = Ok links' ->
    links' `prefix_of` links2 ->
    each step els links2 = Ok links2.
Proof.
  induction els as [|el els IH]; intros links links' links2; cbn; [reflexivity|].
  destruct (step links el) as [links1|e] eqn:Hstep; cbn; [|discriminate].
  intros Hrest Hp.
  assert (Hsame : step links2 el = Ok links2).
  { destruct (stored el) as [u|] eqn:Ht.
    - rewrite (deep_link_step_records links2 el u Ht).
      rewrite (deep_link_step_records links el u Ht) in Hstep. injection Hstep as <-.
      assert (Hin : u ∈ link_url <$> links2).
      { destruct (deep_links_grow els _ _ Hrest) as [k1 Hk1]. destruct Hp as [k2 Hk2].
        rewrite Hk2, Hk1, !fmap_app, !elem_of_app. left. left.
        destruct (has_url u links) eqn:Hhas; [apply has_url_elem, Hhas|].
        rewrite fmap_app, elem_of_app. right. apply list_elem_of_singleton. reflexivity. }
      apply has_url_elem in Hin. rewrite Hin. reflexivity.
    - destruct (deep_link_step_skips el Ht) as [H|H]; [apply H|].
      rewrite H in Hstep. discriminate. }
  rewrite Hsame. cbn. apply (IH links1 links' links2 Hrest Hp).
Qed.

End DeepLinks.

Section SameHostLinks.

Variable URLp : UrlParser.
Variable baseUrl : string.

Lemma set_add_NoDup (x : string) (s : list string) : NoDup s -> NoDup (set_add x s).
Proof.
  intros Hs. unfold set_add. destruct (bool_decide_reflect (x ∈ s)); [exact Hs|].
  apply NoDup_snoc; assumption.
Qed.

Lemma same_host_step_inv (links : list string) (h : string) :
  NoDup links /\ Forall (fun u => same_hostname URLp u baseUrl) links ->
  NoDup (same_host_step URLp baseUrl links h)
  /\ Forall (fun u => same_hostname URLp u baseUrl) (same_host_step URLp baseUrl links h).
Proof.
  intros [Hnd Hall]. unfold same_host_step.
  repeat case_match; auto.
  split; [apply set_add_NoDup, Hnd|].
  unfold set_add. destruct (bool_decide (_ ∈ links)); [exact Hall|].
  apply Forall_app. split; [exact Hall|]. constructor; [|constructor].
  match goal with H : String.eqb _ _ = true |- _ => apply String.eqb_eq in H end.
  unfold same_hostname. eauto.
Qed.

(** The candidates of the crawl are distinct, at most twenty, and on the
    host of the base URL. *)
Lemma extractLinksFromHtml_inv (load : string -> Result Document) (rx : RegexEngine)
    (html : string) :
  let links := extractLinksFromHtml URLp load rx html baseUrl in
  NoDup links /\ length links <= 20
  /\ Forall (fun u => same_hostname URLp u baseUrl) links.
Proof.
  cbn zeta. unfold extractLinksFromHtml, JS.slice0.
  match goal with |- context [firstn 20 ?l] => set (links := l) end.
  assert (Hinv : NoDup links /\ Forall (fun u => same_hostname URLp u baseUrl) links).
  { subst links. destruct (load html) as [doc|e].
    - generalize (Sel.query Sel.a_href doc).
      assert (Hgen : forall (els : list Elem) (acc : list string),
                NoDup acc /\ Forall (fun u => same_hostname URLp u baseUrl) acc ->
                let r := fold_left
                           (fun links el => match attr "href" el with
                                            | Some h => same_host_step URLp baseUrl links h
                                            | None => links
                                            end) els acc in
                NoDup r /\ Forall (fun u => same_hostname URLp u baseUrl) r).
      { induction els as [|el els IH]; intros acc Hacc; cbn; [exact Hacc|].
        apply IH. destruct (attr "href" el); [apply same_host_step_inv, Hacc|exact Hacc]. }
      intros els. apply Hgen. split; constructor.
    - generalize (rx PatAnchorOpen html).
      assert (Hgen : forall (ms : list RegexMatch) (acc : list string),
                NoDup acc /\ Forall (fun u => same_hostname URLp u baseUrl) acc ->
                let r := fold_left (fun links m => same_host_step URLp baseUrl links m.1)
                                   ms acc in
                NoDup r /\ Forall (fun u => same_hostname URLp u baseUrl) r).
      { induction ms as [|m ms IH]; intros acc Hacc; cbn; [exact Hacc|].
        apply IH, same_host_step_inv, Hacc. }
      intros ms. apply Hgen. split; constructor. }
  destruct Hinv as [Hnd Hall]. repeat split.
  - eapply sublist_NoDup; [exact Hnd|apply sublist_take].
  - rewrite length_take. lia.
  - apply Forall_take, Hall.
Qed.

End SameHostLinks.

Lemma partitioned_hostname_partition (URLp : UrlParser) (base : string) (bu : Url)
    (int ext : list Link) :
  URLp base None = Some bu ->
  partitioned URLp (hostname bu) (int, ext) ->
  hostname_partition URLp base int ext.
Proof.
  intros Hbu (Hint & Hext & _ & _). cbn [fst snd] in *.
  rewrite Forall_forall in Hint. rewrite Forall_forall in Hext.
  split.
  - intros l Hl Hl'. destruct (Hint l Hl) as (lu & Hlu & Heq).
    destruct (Hext l Hl') as (lu' & Hlu' & Hne). congruence.
  - intros l Hl. split.
    + intros Hin. destruct (Hint l Hin) as (lu & Hlu & Heq).
      exists lu, bu. auto.
    + intros (lu & bu' & Hlu & Hbu' & Heq).
      apply elem_of_app in Hl as [Hin|Hex]; [exact Hin|].
      destruct (Hext l Hex) as (lu' & Hlu' & Hne). congruence.
Qed.

Lemma partitioned_NoDup (URLp : UrlParser) (bd : string) (int ext : list Link) :
  partitioned URLp bd (int, ext) -> NoDup (link_url <$> int ++ ext).
Proof.
  intros (Hint & Hext & Hni & Hne). cbn [fst snd] in *.
  rewrite Forall_forall in Hint. rewrite Forall_forall in Hext.
  rewrite fmap_app. apply NoDup_app. split; [exact Hni|]. split; [|exact Hne].
  intros u Hu Hu'.
  apply list_elem_of_fmap_1 in Hu as (l & -> & Hl).
  apply list_elem_of_fmap_1 in Hu' as (l' & Heq & Hl').
  destruct (Hint l Hl) as (lu & Hlu & Hhost).
  destruct (Hext l' Hl') as (lu' & Hlu' & Hne').
  rewrite Heq in Hlu. congruence.
Qed.

Lemma partitioned_nil (URLp : UrlParser) (bd : string) : partitioned URLp bd ([], []).
Proof. repeat split; constructor. Qed.

Lemma unique_by_url (links : list Link) (l1 l2 : Link) :
  NoDup (link_url <$> links) -> l1 ∈ links -> l2 ∈ links ->
  link_url l1 = link_url l2 -> l1 = l2.
Proof.
  intros Hnd H1 H2 Heq.
  apply list_elem_of_lookup in H1 as [i Hi]. apply list_elem_of_lookup in H2 as [j Hj].
  assert (i = j).
  { apply (NoDup_lookup (link_url <$> links) i j (link_url l1) Hnd).
    - rewrite list_lookup_fmap, Hi. reflexivity.
    - rewrite list_lookup_fmap, Hj, Heq. reflexivity. }
  subst. congruence.
Qed.

Lemma extractLinksFromText_run (URLp : UrlParser) (rx : RegexEngine) (html base : string)
    (bu : Url) :
  URLp base None = Some bu ->
  extractLinksFromText URLp rx html base
  = ((text_run URLp rx html base (hostname bu)).1.2,
     (text_run URLp rx html base (hostname bu)).2).
Proof.
  intros Hbu. unfold extractLinksFromText, text_run. rewrite Hbu.
  destruct (fold_left _ _ _) as [[found int] ext]. reflexivity.
Qed.

Lemma text_run_inv (URLp : UrlParser) (rx : RegexEngine) (html base bd : string) :
  text_inv URLp bd (text_run URLp rx html base bd).
Proof.
  apply fold_text_inv. split; [apply partitioned_nil|].
  intros u Hu. cbn in Hu. apply elem_of_nil in Hu. contradiction.
Qed.




(** The guard of the structured tier at work: a fragment-only anchor is
    skipped before any resolution and is no occurrence of a link, so the
    entry of the URL is the one of the anchor that spells out the path. *)
Example fragment_anchor_skipped :
  anchor_target RefURL.parse "https://x.com/" (Ref.a "#top" "Skip") = None
  /\ anchor_target RefURL.parse "https://x.com/" (Ref.a "/#top" "Top")
     = Some "https://x.com/#top"
  /\ cheerio_links RefURL.parse quick_text Ref.fragmentFirst "https://x.com/"
     = Ok ([ mkLink "https://x.com/#top" "Top" "" ], []).
Proof. repeat split. Qed.




Section CrawlBudget.

Variable URLp : UrlParser.
Variable net : Transport.
Variable rnd : nat -> Q.
Variable load : string -> Result Document.
Variable rx : RegexEngine.

#[local] Abbreviation crawlPage := (FormValidation.crawlPage URLp net rnd load).
#[local] Abbreviation crawlLoop := (FormValidation.crawlLoop URLp net rnd load).

(** A candidate that passes the guard counts against the budget and is
    marked as processed, whether or not its fetch succeeds. *)
Lemma crawlPage_counts (link : string) (st : FormValidation.Crawl) (w : World) :
  exists st' w',
    crawlPage link st w = (Ok st', w')
    /\ FormValidation.crawledPages st' = S (FormValidation.crawledPages st)
    /\ FormValidation.processedUrls st' = {[ link ]} ∪ FormValidation.processedUrls st.
Proof.
  unfold FormValidation.crawlPage, io_try, mbind, io_bind, random, delay, mret, io_ret.
  cbn beta iota.
  destruct (fetchWithStrategies URLp net rnd link 2 _) as [[resp|e] w3];
    eexists; eexists; (split; [reflexivity|]); split; reflexivity.
Qed.

(** As long as no candidate has been processed before, the loop crawls
    candidates until the list or the budget is exhausted. *)
Lemma crawlLoop_budget (links : list string) :
  forall st w,
    NoDup links ->
    (forall l, l ∈ links -> l ∉ FormValidation.processedUrls st) ->
    FormValidation.crawledPages st <= FormValidation.maxPages ->
    exists st' w',
      crawlLoop links st w = (Ok st', w')
      /\ FormValidation.crawledPages st'
         = Nat.min FormValidation.maxPages (FormValidation.crawledPages st + length links).
Proof.
  induction links as [|link rest IH]; intros st w Hnd Hfresh Hle.
  - exists st, w. split; [reflexivity|]. cbn [length]. lia.
  - cbn [FormValidation.crawlLoop].
    rewrite bool_decide_eq_false_2 by (apply Hfresh; left).
    cbn [orb]. destruct (Nat.leb_spec FormValidation.maxPages (FormValidation.crawledPages st)).
    + exists st, w. split; [reflexivity|]. cbn [length]. lia.
    + destruct (crawlPage_counts link st w) as (st1 & w1 & Hrun & Hcount & Hproc).
      apply NoDup_cons in Hnd as [Hnotin Hnd].
      destruct (IH st1 w1 Hnd) as (st2 & w2 & Hrun2 & Hcount2).
      * intros l Hl. rewrite Hproc, not_elem_of_union, not_elem_of_singleton.
        split; [intros ->; contradiction|]. apply Hfresh. right. exact Hl.
      * lia.
      * exists st2, w2. unfold mbind, io_bind. rewrite Hrun. split; [exact Hrun2|].
        rewrite Hcount2, Hcount. cbn [length]. lia.
Qed.

(** The crawl budget holds when the main page does not link to itself:
    with a main page that can be fetched and at least [maxPages - 1]
    candidates, none of the first [maxPages - 1] being the main page's own
    URL, exactly [maxPages] pages are crawled. *)
Lemma crawl_budget (targetUrl : string) (w w1 : World) (mainResponse : Response) :
  fetchWithStrategies URLp net rnd targetUrl 3 w = (Ok mainResponse, w1) ->
  let candidates := extractLinksFromHtml URLp load rx (body mainResponse) targetUrl in
  FormValidation.maxPages - 1 <= length candidates ->
  targetUrl ∉ JS.slice0 (FormValidation.maxPages - 1) candidates ->
  exists st w',
    FormValidation.crawl URLp net rnd load rx targetUrl w = (Ok st, w')
    /\ FormValidation.crawledPages st = FormValidation.maxPages.
Proof.
  intros Hfetch candidates Hlen Hseed.
  unfold FormValidation.crawl, mbind, io_bind. rewrite Hfetch.
  fold candidates.
  destruct (extractLinksFromHtml_inv URLp targetUrl load rx (body mainResponse))
    as (Hnd & _ & _). fold candidates in Hnd.
  match goal with |- context [FormValidation.crawlLoop _ _ _ _ ?ls ?st w1] =>
    destruct (crawlLoop_budget ls st w1) as (st' & w' & Hrun & Hcount)
  end.
  - unfold JS.slice0. eapply sublist_NoDup; [exact Hnd|apply sublist_take].
  - intros l Hl. cbn. rewrite not_elem_of_singleton. intros ->. contradiction.
  - cbn. unfold FormValidation.maxPages. lia.
  - exists st', w'. split; [exact Hrun|]. rewrite Hcount. cbn [FormValidation.crawledPages].
    unfold JS.slice0. rewrite length_take. unfold FormValidation.maxPages in *. lia.
Qed.

End CrawlBudget.

(* ================================================================== *)
(** * Executions of the extraction on the reference pages *)
(* ================================================================== *)

(** Form extraction on a login page: one form, classified as a login form,
    with the score 100 - 20 - 15 - 10 - 15. *)
Example analyzeForms_login :
  Forms.analyzeForms (Ref.loading Ref.loginPage) "<form>" "https://x.com/login"
  = [ {| Forms.page_url := "https://x.com/login";
         Forms.form_index := 0;
         Forms.input_count := 2;
         Forms.input_types := ["email"; "password"];
         Forms.form_method := "GET";
         Forms.form_action := "";
         Forms.form_classification := "Login Form";
         Forms.has_labels := false;
         Forms.accessibility_score := 40;
         Forms.inputs := Some [ Forms.mkInput "email" "" "" "" false;
                                Forms.mkInput "password" "" "" "" false ] |} ].
Proof. reflexivity. Qed.

(** The pattern tier on the matches of the specification's scenario. *)
Example extractLinksFromText_scenario :
  extractLinksFromText RefURL.parse
    (Ref.matching [ ("/about", Some "About"); ("https://other.com", Some "Other");
                    ("/about", Some "Again") ])
    "<a>" "https://x.com/"
  = ([ mkLink "https://x.com/about" "About" "" ],
     [ mkLink "https://other.com/" "Other" "" ]).
Proof. vm_compute. reflexivity. Qed.

(** Quick links end to end: the structured tier answers on the scenario's
    page after a single request. *)
Example quick_links_scenario :
  exists w',
    QuickLinks.POST RefURL.parse (Ref.answering 200 "OK" "<html>") (Ref.constant 0)
      (Ref.loading Ref.twoLinks) Ref.noMatch (Ref.request "x.com") start
    = (Json 200 (QuickLinks.success "cheerio_parsing"
                   ([ mkLink "https://x.com/about" "About" "" ],
                    [ mkLink "https://other.com/" "Other" "" ]) None), w')
    /\ sent w' = 1.
Proof. eexists. split; vm_compute; reflexivity. Qed.

(** All nine iterations are refused: the resilient fetch throws the last
    error after nine requests, and the quick links fall back to estimates. *)
Example nine_refusals :
  exists w',
    fetchWithStrategies RefURL.parse (Ref.answering 403 "Forbidden" "") (Ref.constant 0)
      "https://x.com" 3 start
    = (Throw (Error_ "HTTP 403: Forbidden"), w')
    /\ sent w' = 9.
Proof. eexists. split; vm_compute; reflexivity. Qed.

(* ================================================================== *)
(** * What a computation adds to the world *)
(* ================================================================== *)

Lemma sends_refl (P : Request -> Prop) (k : nat) (w : World) : sends P k w w.
Proof. exists []. repeat split; [cbn; lia|constructor]. Qed.

Lemma sends_same (P : Request -> Prop) (k : nat) (w w' : World) :
  requests w' = requests w -> sends P k w w'.
Proof. intros H. exists []. repeat split; [exact H|cbn; lia|constructor]. Qed.

Lemma sends_trans (P : Request -> Prop) (k1 k2 k : nat) (w1 w2 w3 : World) :
  sends P k1 w1 w2 -> sends P k2 w2 w3 -> k1 + k2 <= k -> sends P k w1 w3.
Proof.
  intros (n1 & H1 & L1 & F1) (n2 & H2 & L2 & F2) Hk.
  exists (n2 ++ n1). repeat split.
  - rewrite H2, H1. apply app_assoc.
  - rewrite length_app. lia.
  - apply Forall_app. split; assumption.
Qed.

Lemma sends_weaken (P : Request -> Prop) (k k' : nat) (w w' : World) :
  sends P k w w' -> k <= k' -> sends P k' w w'.
Proof. intros (n & H & L & F) Hk. exists n. repeat split; [exact H|lia|exact F]. Qed.

Lemma sends_impl (P P' : Request -> Prop) (k : nat) (w w' : World) :
  (forall r, P r -> P' r) -> sends P k w w' -> sends P' k w w'.
Proof.
  intros HP (n & H & L & F). exists n. repeat split; [exact H|exact L|].
  eapply Forall_impl; [exact F|exact HP].
Qed.

Lemma sends_sent (P : Request -> Prop) (k : nat) (w w' : World) :
  sends P k w w' -> sent w <= sent w' <= sent w + k.
Proof. intros (n & H & L & _). unfold sent. rewrite H, length_app. lia. Qed.

Lemma sleeps_refl (P : Q -> Prop) (k : nat) (w : World) : sleeps P k w w.
Proof. exists []. repeat split; [cbn; lia|constructor]. Qed.

Lemma sleeps_same (P : Q -> Prop) (k : nat) (w w' : World) :
  slept w' = slept w -> sleeps P k w w'.
Proof. intros H. exists []. repeat split; [exact H|cbn; lia|constructor]. Qed.

Lemma sleeps_trans (P : Q -> Prop) (k1 k2 k : nat) (w1 w2 w3 : World) :
  sleeps P k1 w1 w2 -> sleeps P k2 w2 w3 -> k1 + k2 <= k -> sleeps P k w1 w3.
Proof.
  intros (n1 & H1 & L1 & F1) (n2 & H2 & L2 & F2) Hk.
  exists (n2 ++ n1). repeat split.
  - rewrite H2, H1. apply app_assoc.
  - rewrite length_app. lia.
  - apply Forall_app. split; assumption.
Qed.

Lemma sleeps_weaken (P : Q -> Prop) (k k' : nat) (w w' : World) :
  sleeps P k w w' -> k <= k' -> sleeps P k' w w'.
Proof. intros (n & H & L & F) Hk. exists n. repeat split; [exact H|lia|exact F]. Qed.

Lemma sleeps_impl (P P' : Q -> Prop) (k : nat) (w w' : World) :
  (forall d, P d -> P' d) -> sleeps P k w w' -> sleeps P' k w w'.
Proof.
  intros HP (n & H & L & F). exists n. repeat split; [exact H|exact L|].
  eapply Forall_impl; [exact F|exact HP].
Qed.

Section FetchEffects.

Variable URLp : UrlParser.
Variable net : Transport.
Variable rnd : nat -> Q.
Variable url : string.

#[local] Abbreviation to_url := (fun r : Request => req_url r = url).
#[local] Abbreviation retry_delay := (jitter rnd 2000 1000).

(** One iteration never throws, sends at most one request, to [url], and
    sleeps once exactly when it belongs to a retry. *)
Lemma tryStrategy_effects (attempt : nat) (strategy : Strategy) (w : World) :
  exists it w',
    tryStrategy URLp net rnd url attempt strategy w = (Ok it, w')
    /\ sends to_url 1 w w'
    /\ sleeps retry_delay (if 0 <? attempt then 1 else 0) w w'.
Proof.
  run_io.
  destruct (0 <? attempt); cbn -[USER_AGENTS index pretty Qfloor];
    (destruct (URLp url None) as [u|];
     [match goal with |- context [net _ ?r] => destruct (net (length (requests w)) r) as [r0|e0] end|]);
    cbn;
    repeat match goal with
           | |- context [if ?b then _ else _] => destruct b; cbn
           end;
    eexists; eexists; (split; [reflexivity|]); split;
    first [ solve [apply sends_same; reflexivity]
          | solve [apply sleeps_same; reflexivity]
          | solve [eexists [_]; cbn; (split; [reflexivity|]); split; [lia|];
                   constructor; [eexists; reflexivity|constructor]]
          | solve [eexists [_]; cbn; (split; [reflexivity|]); split; [lia|];
                   constructor; [reflexivity|constructor]] ].
Qed.

End FetchEffects.

Section FetchLoops.

Variable URLp : UrlParser.
Variable net : Transport.
Variable rnd : nat -> Q.
Variable url : string.

(** What every request of an iteration satisfies. *)
Variable P : Request -> Prop.

#[local] Abbreviation retry_delay := (jitter rnd 2000 1000).

Hypothesis tryStrategy_sends_P :
  forall attempt strategy w,
  exists it w',
    tryStrategy URLp net rnd url attempt strategy w = (Ok it, w')
    /\ sends P 1 w w'
    /\ sleeps retry_delay (if 0 <? attempt then 1 else 0) w w'.

Lemma strategiesLoop_effects (attempt : nat) (ss : list Strategy) :
  forall lastError w,
  exists it w',
    strategiesLoop URLp net rnd url attempt ss lastError w = (Ok it, w')
    /\ sends P (length ss) w w'
    /\ sleeps retry_delay (if 0 <? attempt then length ss else 0) w w'.
Proof.
  induction ss as [|s ss IH]; intros lastError w.
  - exists (Next lastError), w. split; [reflexivity|].
    split; [apply sends_refl|apply sleeps_refl].
  - destruct (tryStrategy_sends_P attempt s w) as (it & w1 & Hrun & Hs & Hd).
    cbn [strategiesLoop]. unfold mbind, io_bind. rewrite Hrun.
    destruct it as [response|l].
    + exists (Return response), w1. split; [reflexivity|]. split.
      * apply (sends_weaken _ 1); [exact Hs|cbn; lia].
      * eapply sleeps_weaken; [exact Hd|]. destruct (0 <? attempt); cbn; lia.
    + destruct (IH l w1) as (it' & w2 & Hrun2 & Hs2 & Hd2).
      exists it', w2. split; [exact Hrun2|]. split.
      * eapply sends_trans; [exact Hs|exact Hs2|cbn; lia].
      * eapply sleeps_trans; [exact Hd|exact Hd2|]. destruct (0 <? attempt); cbn; lia.
Qed.

Lemma attemptsLoop_effects (first count : nat) :
  forall lastError w,
  exists it w',
    attemptsLoop URLp net rnd url (seq first count) lastError w = (Ok it, w')
    /\ sends P (3 * count) w w'
    /\ sleeps retry_delay (if 0 <? first then 3 * count else 3 * (count - 1)) w w'.
Proof.
  revert first. induction count as [|count IH]; intros first lastError w.
  - exists (Next lastError), w. split; [reflexivity|].
    split; [apply sends_refl|apply sleeps_refl].
  - destruct (strategiesLoop_effects first strategies lastError w)
      as (it & w1 & Hrun & Hs & Hd).
    cbn [seq attemptsLoop]. unfold mbind, io_bind. rewrite Hrun.
    cbn [length strategies] in Hs, Hd.
    destruct it as [response|l].
    + exists (Return response), w1. split; [reflexivity|]. split.
      * eapply sends_weaken; [exact Hs|lia].
      * eapply sleeps_weaken; [exact Hd|]. destruct (0 <? first); lia.
    + destruct (IH (S first) l w1) as (it' & w2 & Hrun2 & Hs2 & Hd2).
      exists it', w2. split; [exact Hrun2|]. split.
      * eapply sends_trans; [exact Hs|exact Hs2|lia].
      * cbn [Nat.ltb Nat.leb] in Hd2.
        eapply sleeps_trans; [exact Hd|exact Hd2|]. destruct (0 <? first); lia.
Qed.

Lemma fetchWithStrategies_sends (maxRetries : nat) (w : World) :
  exists res w',
    fetchWithStrategies URLp net rnd url maxRetries w = (res, w')
    /\ sends P (3 * maxRetries) w w'
    /\ sleeps retry_delay (3 * (maxRetries - 1)) w w'.
Proof.
  destruct (attemptsLoop_effects 0 maxRetries None w) as (it & w' & Hrun & Hs & Hd).
  unfold fetchWithStrategies, mbind, io_bind. rewrite Hrun.
  destruct it as [response|l]; eexists; exists w'; (split; [reflexivity|]); split; assumption.
Qed.

End FetchLoops.

(** The resilient fetch sends at most three requests per retry, all to
    the URL it was given, and sleeps before the requests of the retries
    only. *)
Lemma fetchWithStrategies_effects (URLp : UrlParser) (net : Transport) (rnd : nat -> Q)
    (url : string) (maxRetries : nat) (w : World) :
  exists res w',
    fetchWithStrategies URLp net rnd url maxRetries w = (res, w')
    /\ sends (fun r => req_url r = url) (3 * maxRetries) w w'
    /\ sleeps (jitter rnd 2000 1000) (3 * (maxRetries - 1)) w w'.
Proof.
  apply fetchWithStrategies_sends. apply tryStrategy_effects.
Qed.


Section FetchExhaustion.

Variable URLp : UrlParser.
Variable net : Transport.
Variable rnd : nat -> Q.
Variable url : string.
Variable u : Url.
Hypothesis Hu : URLp url None = Some u.
Hypothesis refused : forall n req, req_url req = url -> unsuccessful (net n req).

Lemma attemptsLoop_failure (attempts : list nat) :
  forall w lastError,
  exists l w', attemptsLoop URLp net rnd url attempts lastError w = (Ok (Next l), w')
               /\ sent w' = sent w + 3 * length attempts.
Proof.
  induction attempts as [|a rest IH]; intros w lastError.
  - exists lastError, w. split; [reflexivity|]. cbn; lia.
  - destruct (strategiesLoop_failure URLp net rnd url u Hu a strategies w lastError)
      as (l1 & w1 & Hrun & Hsent).
    { intros j sj req _ [Hreq _]. apply refused, Hreq. }
    destruct (IH w1 l1) as (l2 & w2 & Hrun2 & Hsent2).
    exists l2, w2. cbn [attemptsLoop]. unfold mbind, io_bind. rewrite Hrun.
    split; [exact Hrun2|]. cbn [length strategies] in *. lia.
Qed.

End FetchExhaustion.

(** Fetch exhaustion: when the URL parses and no request for it is
    answered with a 2xx response, the resilient fetch tries every strategy
    of every retry, exactly [3 * maxRetries] requests, and then throws; with
    no retry at all it throws its own error without a request. *)
Theorem fetch_exhaustion (URLp : UrlParser) (net : Transport) (rnd : nat -> Q)
    (url : string) (maxRetries : nat) (w : World)
    (Hurl : is_Some (URLp url None))
    (Hrefused : forall n req, req_url req = url -> unsuccessful (net n req)) :
  exists e w',
    fetchWithStrategies URLp net rnd url maxRetries w = (Throw e, w')
    /\ sent w' = sent w + 3 * maxRetries
    /\ (maxRetries = 0 -> e = Error_ "All fetch strategies failed").
Proof.
  destruct Hurl as [u Hu].
  destruct (attemptsLoop_failure URLp net rnd url u Hu Hrefused (seq 0 maxRetries) w None)
    as (l & w' & Hrun & Hsent).
  exists (default (Error_ "All fetch strategies failed") l), w'.
  unfold fetchWithStrategies, mbind, io_bind. rewrite Hrun.
  split; [reflexivity|]. split; [rewrite length_seq in Hsent; exact Hsent|].
  intros ->. cbn in Hrun. injection Hrun as <- _. reflexivity.
Qed.

(** Three retries against a site that refuses every request: nine requests. *)
Lemma fetch_exhaustion_witness :
  exists e w',
    fetchWithStrategies RefURL.parse (Ref.answering 403 "Forbidden" "") (Ref.constant 0)
      "https://x.com" 3 start = (Throw e, w')
    /\ sent w' = 9.
Proof.
  destruct (fetch_exhaustion RefURL.parse (Ref.answering 403 "Forbidden" "") (Ref.constant 0)
              "https://x.com" 3 start) as (e & w' & Hrun & Hsent & _).
  - eexists. reflexivity.
  - intros n req _. reflexivity.
  - exists e, w'. split; [exact Hrun|exact Hsent].
Defined.

(** Request budget of the resilient fetch: whatever the network does, it
    sends at most [3 * maxRetries] requests, each of them to the URL it was
    given, and leaves the earlier requests in place. *)
Theorem fetch_request_budget (URLp : UrlParser) (net : Transport) (rnd : nat -> Q)
    (url : string) (maxRetries : nat) (w : World) :
  exists res w' new,
    fetchWithStrategies URLp net rnd url maxRetries w = (res, w')
    /\ requests w' = new ++ requests w
    /\ length new <= 3 * maxRetries
    /\ Forall (fun r => req_url r = url) new.
Proof.
  destruct (fetchWithStrategies_effects URLp net rnd url maxRetries w)
    as (res & w' & Hrun & (new & Hnew & Hlen & Hall) & _).
  exists res, w', new. auto.
Qed.

Lemma jitter_bounds (rnd : nat -> Q) (width floor d : Q) :
  unit_interval rnd -> (0 < width)%Q -> jitter rnd width floor d ->
  (floor <= d)%Q /\ (d < width + floor)%Q.
Proof.
  intros Hrnd Hw [n ->]. destruct (Hrnd n) as [H0 H1]. split.
  - apply Qle_trans with (0 * width + floor)%Q.
    + rewrite Qmult_0_l, Qplus_0_l. apply Qle_refl.
    + apply Qplus_le_l. apply Qmult_le_compat_r; [exact H0|apply Qlt_le_weak, Hw].
  - apply Qplus_lt_l.
    apply Qlt_le_trans with (1 * width)%Q.
    + apply Qmult_lt_compat_r; assumption.
    + rewrite Qmult_1_l. apply Qle_refl.
Qed.



(* ================================================================== *)
(** * Replies and request budgets of the handlers *)
(* ================================================================== *)

Lemma quiet_ret {A} (a : A) : quiet (mret a).
Proof. intros w res w' [= <- <-]. auto. Qed.

Lemma quiet_lift {A} (r : Result A) : quiet (lift r).
Proof. intros w res w' [= <- <-]. auto. Qed.

Lemma quiet_random (rnd : nat -> Q) : quiet (random rnd).
Proof. intros w res w' [= <- <-]. auto. Qed.

Lemma quiet_bind {A B} (m : IO A) (f : A -> IO B) :
  quiet m -> (forall a, quiet (f a)) -> quiet (m ≫= f).
Proof.
  intros Hm Hf w res w'. unfold mbind, io_bind.
  destruct (m w) as [[a|e] w1] eqn:Hrun; destruct (Hm w _ _ Hrun) as [H1 H2].
  - intros Hrun2. destruct (Hf a w1 _ _ Hrun2) as [H3 H4]. split; congruence.
  - intros [= <- <-]. auto.
Qed.

Lemma quiet_random_below (rnd : nat -> Q) (n : Z) : quiet (random_below rnd n).
Proof. apply quiet_bind; [apply quiet_random|intros a; apply quiet_ret]. Qed.

Lemma quiet_io_map {A B} (f : A -> IO B) (xs : list A) :
  (forall x, quiet (f x)) -> quiet (io_map f xs).
Proof.
  intros Hf. induction xs as [|x xs IH]; [apply quiet_ret|].
  cbn [io_map]. apply quiet_bind; [apply Hf|]. intros y.
  apply quiet_bind; [apply IH|]. intros ys. apply quiet_ret.
Qed.

Create HintDb quiet.
#[local] Hint Resolve quiet_ret quiet_lift quiet_random quiet_random_below : quiet.

Lemma quiet_generateFallbackData (URLp : UrlParser) (rnd : nat -> Q) (url : string) :
  quiet (QuickLinks.generateFallbackData URLp rnd url).
Proof.
  unfold QuickLinks.generateFallbackData.
  apply quiet_bind; [auto with quiet|intros u].
  destruct (existsb _ QuickLinks.largeSites);
    repeat (apply quiet_bind; [auto with quiet|intros ?]); apply quiet_ret.
Qed.

Lemma quiet_generateFormEstimates (URLp : UrlParser) (rnd : nat -> Q) (url : string) :
  quiet (FormValidation.generateFormEstimates URLp rnd url).
Proof.
  unfold FormValidation.generateFormEstimates.
  apply quiet_bind; [auto with quiet|intros u].
  apply quiet_bind; [auto with quiet|intros n].
  apply quiet_bind.
  { apply quiet_io_map. intros type.
    apply quiet_bind; [auto with quiet|intros c; apply quiet_ret]. }
  intros counts. apply quiet_bind.
  { apply quiet_io_map. intros i. unfold FormValidation.estimatedForm.
    repeat (apply quiet_bind; [auto with quiet|intros ?]). apply quiet_ret. }
  intros forms. apply quiet_bind; [auto with quiet|intros pages; apply quiet_ret].
Qed.

(* ================================================================== *)
(** * The estimators *)
(* ================================================================== *)

Lemma prefix_refl (s : string) : String.prefix s s = true.
Proof.
  induction s as [|c s IH]; [reflexivity|].
  cbn [String.prefix]. destruct (ascii_dec c c); [exact IH|congruence].
Qed.

(** [Math.floor(Math.random() * n)] is an index below [n]. *)
Lemma random_below_range (rnd : nat -> Q) (n : Z) (w : World) :
  unit_interval rnd -> (0 < n)%Z ->
  exists k, random_below rnd n w
            = (Ok k, mkWorld (requests w) (S (draws w)) (slept w))
            /\ (0 <= k < n)%Z.
Proof.
  intros Hrnd Hn. destruct (Hrnd (draws w)) as [H0 H1].
  exists (Qfloor (rnd (draws w) * inject_Z n)). split; [reflexivity|].
  assert (Hq : (inject_Z 0 < inject_Z n)%Q) by (rewrite <- Zlt_Qlt; exact Hn).
  split.
  - change 0%Z with (Qfloor 0). apply Qfloor_resp_le.
    apply Qmult_le_0_compat; [exact H0|apply Qlt_le_weak, Hq].
  - rewrite Zlt_Qlt. eapply Qle_lt_trans; [apply Qfloor_le|].
    rewrite <- (Qmult_1_l (inject_Z n)) at 2.
    apply Qmult_lt_compat_r; assumption.
Qed.

Lemma fallbackExternal_host (i : nat) :
  link_url (QuickLinks.fallbackExternal i)
  ∈ (fun h => "https://" +:+ h) <$> QuickLinks.externalHosts.
Proof.
  unfold QuickLinks.fallbackExternal. cbn [link_url].
  assert (Hlt : i mod 6 < 6) by (apply Nat.mod_upper_bound; lia).
  destruct (i mod 6) as [|[|[|[|[|[|k]]]]]]; [..|lia];
    vm_compute; repeat constructor.
Qed.

Section FallbackRanges.

Variable URLp : UrlParser.
Variable rnd : nat -> Q.

(** What the link estimator returns on a URL that parses, for a random
    source with values in the unit interval. *)
Lemma generateFallbackData_ranges (url : string) (u : Url) (w : World) :
  URLp url None = Some u -> unit_interval rnd ->
  exists internal external w',
    QuickLinks.generateFallbackData URLp rnd url w = (Ok (internal, external), w')
    /\ draws w' = 2 + draws w
    /\ (if existsb (JS.includes (hostname u)) QuickLinks.largeSites
        then 20 <= length internal <= 69 /\ 10 <= length external <= 39
        else 5 <= length internal <= 24 /\ 2 <= length external <= 16)
    /\ link_url <$> head internal = Some url
    /\ Forall (fun l => JS.startsWith (link_url l) url = true) internal
    /\ Forall (fun l => link_url l
                        ∈ (fun h => "https://" +:+ h) <$> QuickLinks.externalHosts)
              external.
Proof.
  intros Hu Hrnd.
  assert (Hshape : forall a b : Z, (5 <= a)%Z -> (2 <= b)%Z ->
    let internal := map (QuickLinks.fallbackInternal url) (seq 0 (Z.to_nat a)) in
    let external := map QuickLinks.fallbackExternal (seq 0 (Z.to_nat b)) in
    length internal = Z.to_nat a /\ length external = Z.to_nat b
    /\ link_url <$> head internal = Some url
    /\ Forall (fun l => JS.startsWith (link_url l) url = true) internal
    /\ Forall (fun l => link_url l
                        ∈ (fun h => "https://" +:+ h) <$> QuickLinks.externalHosts)
              external).
  { intros a b Ha Hb internal external. subst internal external.
    rewrite !length_map, !length_seq. split; [reflexivity|]. split; [reflexivity|].
    split; [|split].
    - destruct (Z.to_nat a) as [|k] eqn:Hk; [lia|]. cbn.
      unfold QuickLinks.fallbackInternal. cbn.
      f_equal. clear. induction url as [|c s IH]; [reflexivity|].
      change (String c s +:+ "") with (String c (s +:+ "")). f_equal. exact IH.
    - apply List.Forall_forall. intros l Hl. apply in_map_iff in Hl as (i & <- & _).
      unfold QuickLinks.fallbackInternal, JS.startsWith. cbn [link_url].
      apply prefix_append, prefix_refl.
    - apply List.Forall_forall. intros l Hl. apply in_map_iff in Hl as (i & <- & _).
      apply fallbackExternal_host. }
  unfold QuickLinks.generateFallbackData, mbind, io_bind, lift, new_URL.
  rewrite Hu. cbv beta iota.
  destruct (existsb (JS.includes (hostname u)) QuickLinks.largeSites).
  - destruct (random_below_range rnd 50 w Hrnd ltac:(lia)) as (a & -> & Ha).
    unfold mret, io_ret. cbv beta iota.
    destruct (random_below_range rnd 30 (mkWorld (requests w) (S (draws w)) (slept w))
                Hrnd ltac:(lia)) as (b & -> & Hb).
    destruct (Hshape (a + 20)%Z (b + 10)%Z ltac:(lia) ltac:(lia)) as (H1 & H2 & H3 & H4 & H5).
    do 3 eexists. split; [reflexivity|]. cbn [draws].
    split; [lia|]. rewrite H1, H2. split; [lia|]. auto.
  - destruct (random_below_range rnd 20 w Hrnd ltac:(lia)) as (a & -> & Ha).
    unfold mret, io_ret. cbv beta iota.
    destruct (random_below_range rnd 15 (mkWorld (requests w) (S (draws w)) (slept w))
                Hrnd ltac:(lia)) as (b & -> & Hb).
    destruct (Hshape (a + 5)%Z (b + 2)%Z ltac:(lia) ltac:(lia)) as (H1 & H2 & H3 & H4 & H5).
    do 3 eexists. split; [reflexivity|]. cbn [draws].
    split; [lia|]. rewrite H1, H2. split; [lia|]. auto.
Qed.

End FallbackRanges.

Section QuickLinksReplies.

Variable URLp : UrlParser.
Variable net : Transport.
Variable rnd : nat -> Q.
Variable load : string -> Result Document.
Variable rx : RegexEngine.

(** The four shapes a reply of the quick links can take once a URL is
    present, with the world the handler leaves. *)
Lemma quick_links_reply (rq : ApiRequest) (url : string) (w : World) :
  json_url rq = Some url -> JS.truthy url = true ->
  exists b w',
    QuickLinks.POST URLp net rnd load rx rq w = (Json 200 b, w')
    /\ sends (fun r => req_url r = withScheme url) 9 w w'
    /\ ((exists links, b = QuickLinks.success "cheerio_parsing" links None
                       /\ QuickLinks.nonempty links = true)
        \/ (exists links, b = QuickLinks.success "pattern_extraction" links None
                          /\ QuickLinks.nonempty links = true)
        \/ (exists links note,
              b = QuickLinks.success "intelligent_estimation" links (Some note)
              /\ (unit_interval rnd -> QuickLinks.nonempty links = true))
        \/ (exists e, b = QuickLinks.errorFallback rq e)).
Proof.
  intros Hjson Htruthy.
  destruct (fetchWithStrategies_effects URLp net rnd (withScheme url) 3 w)
    as (res & w1 & Hfetch & Hsends & _).
  assert (Hest : exists r w2,
            QuickLinks.estimation URLp rnd (withScheme url) w1 = (r, w2)
            /\ sends (fun r => req_url r = withScheme url) 9 w w2
            /\ match r with
               | Ok b => exists links note,
                   b = QuickLinks.success "intelligent_estimation" links (Some note)
                   /\ (unit_interval rnd -> QuickLinks.nonempty links = true)
               | Throw _ => True
               end).
  { unfold QuickLinks.estimation, mbind, io_bind.
    destruct (QuickLinks.generateFallbackData URLp rnd (withScheme url) w1)
      as [[links|e] w2] eqn:Hgen;
      destruct (quiet_generateFallbackData URLp rnd _ _ _ _ Hgen) as [Hq _];
      eexists; exists w2; (split; [reflexivity|]);
      (split; [eapply sends_trans; [exact Hsends|apply (sends_same _ 0), Hq|lia]|]);
      [|exact I].
    do 2 eexists. split; [reflexivity|]. intros Hrnd.
    destruct (URLp (withScheme url) None) as [u|] eqn:Hu.
    - destruct (generateFallbackData_ranges URLp rnd _ u w1 Hu Hrnd)
        as (int & ext & w3 & Hrun & _ & Hlen & _).
      rewrite Hrun in Hgen. injection Hgen as <- _.
      unfold QuickLinks.nonempty. cbn [fst snd].
      apply orb_true_iff. left. apply Nat.ltb_lt.
      destruct (existsb _ QuickLinks.largeSites); lia.
    - rewrite (generateFallbackData_throws URLp rnd _ w1 Hu) in Hgen. discriminate. }
  destruct Hest as (r & w2 & Hrun & Hsends2 & Hr).
  assert (Hfall : exists b w',
            (let (r, w'0) :=
               let (r, w'0) := QuickLinks.estimation URLp rnd (withScheme url) w1 in
               match r with
               | Ok a => (Ok (Json 200 a), w'0)
               | Throw e => (Throw e, w'0)
               end in
             match r with
             | Ok reply => (reply, w'0)
             | Throw e => (Json 200 (QuickLinks.errorFallback rq e), w'0)
             end) = (Json 200 b, w')
            /\ sends (fun r => req_url r = withScheme url) 9 w w'
            /\ ((exists links, b = QuickLinks.success "cheerio_parsing" links None
                               /\ QuickLinks.nonempty links = true)
                \/ (exists links, b = QuickLinks.success "pattern_extraction" links None
                                  /\ QuickLinks.nonempty links = true)
                \/ (exists links note,
                      b = QuickLinks.success "intelligent_estimation" links (Some note)
                      /\ (unit_interval rnd -> QuickLinks.nonempty links = true))
                \/ (exists e, b = QuickLinks.errorFallback rq e))).
  { rewrite Hrun. destruct r as [b|e]; eexists; exists w2;
      (split; [reflexivity|]); (split; [exact Hsends2|]).
    - right. right. left. exact Hr.
    - right. right. right. eauto. }
  unfold QuickLinks.POST. rewrite Hjson, Htruthy. cbn [negb].
  unfold QuickLinks.extraction, io_try, mbind, io_bind. rewrite Hfetch.
  destruct res as [response|e]; unfold mret, io_ret; cbv beta iota.
  - destruct (QuickLinks.cheerioTier URLp load (body response) (withScheme url))
      as [b|] eqn:Hc.
    + exists b, w1. split; [reflexivity|]. split; [exact Hsends|]. left.
      unfold QuickLinks.cheerioTier in Hc.
      destruct (_ ≫= _) as [links|e] in Hc; [|discriminate].
      destruct (QuickLinks.nonempty links) eqn:Hne; [|discriminate].
      injection Hc as <-. eauto.
    + destruct (QuickLinks.patternTier URLp rx (body response) (withScheme url))
        as [b|] eqn:Hp.
      * exists b, w1. split; [reflexivity|]. split; [exact Hsends|]. right. left.
        unfold QuickLinks.patternTier in Hp.
        destruct (QuickLinks.nonempty _) eqn:Hne; [|discriminate].
        injection Hp as <-. eauto.
      * exact Hfall.
  - exact Hfall.
Qed.

End QuickLinksReplies.

(** Once a URL is present the quick links always answer with HTTP 200
    and a non-empty result: the total is the number of links listed and is
    positive, the method is one of the four the handler knows, and the
    reply is either a success without an error field or the error
    fallback. *)
Theorem quick_links_always_answers (URLp : UrlParser) (net : Transport) (rnd : nat -> Q)
    (load : string -> Result Document) (rx : RegexEngine)
    (rq : ApiRequest) (url : string) (w : World)
    (Hjson : json_url rq = Some url) (Hurl : JS.truthy url = true)
    (Hrnd : unit_interval rnd) :
  exists b w',
    QuickLinks.POST URLp net rnd load rx rq w = (Json 200 b, w')
    /\ QuickLinks.total b
       = length (QuickLinks.internal_links b) + length (QuickLinks.external_links b)
    /\ 0 < QuickLinks.total b
    /\ QuickLinks.method b
       ∈ ["cheerio_parsing"; "pattern_extraction"; "intelligent_estimation"; "error_fallback"]
    /\ (QuickLinks.status_ b = "success" /\ QuickLinks.error b = None
        \/ QuickLinks.status_ b = "partial_success"
           /\ QuickLinks.method b = "error_fallback" /\ is_Some (QuickLinks.error b)).
Proof.
  assert (Hpos : forall links, QuickLinks.nonempty links = true ->
                               0 < length links.1 + length links.2).
  { intros links H. unfold QuickLinks.nonempty in H.
    apply orb_true_iff in H as [H|H]; apply Nat.ltb_lt in H; lia. }
  destruct (quick_links_reply URLp net rnd load rx rq url w Hjson Hurl)
    as (b & w' & Hrun & _ & Hshape).
  exists b, w'. split; [exact Hrun|].
  destruct Hshape as [(links & -> & Hne)|[(links & -> & Hne)|[(links & nt & -> & Hne)|(e & ->)]]];
    cbn [QuickLinks.success QuickLinks.errorFallback QuickLinks.total QuickLinks.method
         QuickLinks.internal_links QuickLinks.external_links QuickLinks.status_
         QuickLinks.error length].
  - split; [reflexivity|]. split; [apply Hpos, Hne|]. split; [|left; auto].
    apply list_elem_of_here.
  - split; [reflexivity|]. split; [apply Hpos, Hne|]. split; [|left; auto].
    apply list_elem_of_further, list_elem_of_here.
  - split; [reflexivity|]. split; [apply Hpos, Hne, Hrnd|]. split; [|left; auto].
    do 2 apply list_elem_of_further. apply list_elem_of_here.
  - split; [reflexivity|]. split; [lia|]. split; [|right; eauto].
    do 3 apply list_elem_of_further. apply list_elem_of_here.
Qed.

(** A reachable page without links: the estimator answers. *)
Lemma quick_links_always_answers_witness :
  exists b w',
    QuickLinks.POST RefURL.parse (Ref.answering 200 "OK" "") (Ref.constant 0)
      (Ref.loading []) Ref.noMatch (Ref.request "x.com") start = (Json 200 b, w')
    /\ QuickLinks.total b
       = length (QuickLinks.internal_links b) + length (QuickLinks.external_links b)
    /\ 0 < QuickLinks.total b
    /\ QuickLinks.method b
       ∈ ["cheerio_parsing"; "pattern_extraction"; "intelligent_estimation"; "error_fallback"]
    /\ (QuickLinks.status_ b = "success" /\ QuickLinks.error b = None
        \/ QuickLinks.status_ b = "partial_success"
           /\ QuickLinks.method b = "error_fallback" /\ is_Some (QuickLinks.error b)).
Proof.
  apply (quick_links_always_answers RefURL.parse (Ref.answering 200 "OK" "") (Ref.constant 0)
           (Ref.loading []) Ref.noMatch (Ref.request "x.com") "x.com" start).
  - reflexivity.
  - reflexivity.
  - intros n. split; [apply Qle_refl|reflexivity].
Defined.

(** Whatever the request, the quick links send at most nine HTTP
    requests (three attempts of three strategies), and each of them goes to
    the submitted URL, with https:// prepended when it has no scheme. *)
Theorem quick_links_request_budget (URLp : UrlParser) (net : Transport) (rnd : nat -> Q)
    (load : string -> Result Document) (rx : RegexEngine) (rq : ApiRequest) (w : World) :
  sends (fun r => exists url, json_url rq = Some url /\ req_url r = withScheme url) 9
    w (QuickLinks.POST URLp net rnd load rx rq w).2.
Proof.
  destruct (json_url rq) as [url|] eqn:Hjson.
  - destruct (JS.truthy url) eqn:Hurl.
    + destruct (quick_links_reply URLp net rnd load rx rq url w Hjson Hurl)
        as (b & w' & -> & Hsends & _).
      eapply sends_impl; [|exact Hsends]. intros r Hr. eauto.
    + unfold QuickLinks.POST. rewrite Hjson, Hurl. apply (sends_refl _ 9).
  - unfold QuickLinks.POST. rewrite Hjson. apply (sends_refl _ 9).
Qed.

(* ================================================================== *)
(** * Forms *)
(* ================================================================== *)

Lemma fold_set_add (xs acc : list string) :
  NoDup acc ->
  NoDup (fold_left (fun s x => set_add x s) xs acc)
  /\ forall x, x ∈ fold_left (fun s x => set_add x s) xs acc <-> x ∈ acc \/ x ∈ xs.
Proof.
  revert acc. induction xs as [|y xs IH]; intros acc Hacc; cbn [fold_left].
  - split; [exact Hacc|]. intros x. rewrite elem_of_nil. tauto.
  - destruct (IH (set_add y acc) (set_add_NoDup y acc Hacc)) as [Hnd Hin].
    split; [exact Hnd|]. intros x. rewrite Hin, elem_of_cons. unfold set_add.
    destruct (bool_decide_reflect (y ∈ acc)) as [Hy|Hy].
    + split; [tauto|]. intros [H|[->|H]]; auto.
    + rewrite elem_of_app, list_elem_of_singleton. tauto.
Qed.

(** [[...new Set(xs)]] holds the members of [xs], each once. *)
Lemma unique_spec (xs : list string) :
  NoDup (Forms.unique xs) /\ forall x, x ∈ Forms.unique xs <-> x ∈ xs.
Proof.
  destruct (fold_set_add xs [] (NoDup_nil_2)) as [Hnd Hin].
  split; [exact Hnd|]. intros x. unfold Forms.unique. rewrite Hin, elem_of_nil. tauto.
Qed.

Lemma analyzeForm_recorded (doc : Document) (pageUrl : string) (i : nat) (form : Elem) :
  Forms.analyzeForm doc pageUrl i form = []
  \/ exists f, Forms.analyzeForm doc pageUrl i form = [f]
               /\ Forms.form_index f = i /\ recorded_form pageUrl f.
Proof.
  unfold Forms.analyzeForm.
  destruct (Nat.leb_spec 2 (length (map (Forms.read_field doc) (Sel.find Forms.field_sel form))))
    as [Hlen|Hlen]; [|left; reflexivity].
  right. eexists. split; [reflexivity|]. split; [reflexivity|].
  unfold recorded_form. cbn [Forms.page_url Forms.input_count Forms.input_types
    Forms.has_labels Forms.accessibility_score Forms.inputs].
  split; [reflexivity|]. split; [lia|]. split; [apply unique_spec|]. split.
  - intros Hlab. unfold Forms.calculateAccessibilityScore. rewrite Hlab.
    unfold Num.max, Num.min. repeat case_match; lia.
  - eexists. split; [reflexivity|]. split; [reflexivity|].
    intros t. rewrite (proj2 (unique_spec _)). reflexivity.
Qed.

(** The records of [concat (imap f xs)] when [f i x] holds at most one
    record, of index [k + i]: the indices increase strictly and stay below
    [k + length xs]. *)
Lemma imap_indices {A} (P : Forms.FormInfo -> Prop) (xs : list A) :
  forall (k : nat) (f : nat -> A -> list Forms.FormInfo),
    (forall i x, f i x = [] \/ exists y, f i x = [y] /\ Forms.form_index y = k + i /\ P y) ->
    Forall P (concat (imap f xs))
    /\ Forall (fun y => k <= Forms.form_index y < k + length xs) (concat (imap f xs))
    /\ StronglySorted lt (Forms.form_index <$> concat (imap f xs)).
Proof.
  induction xs as [|x xs IH]; intros k f Hf; cbn [imap concat length].
  - repeat split; constructor.
  - destruct (IH (S k) (f ∘ S)) as (IHP & IHidx & IHsorted).
    { intros i y. unfold compose. destruct (Hf (S i) y) as [->|(z & -> & Hz & HP)];
        [left; reflexivity|right]. exists z. repeat split; [lia|exact HP]. }
    destruct (Hf 0 x) as [->|(y & -> & Hy & HP)]; cbn [app].
    + split; [exact IHP|]. split; [|exact IHsorted].
      eapply Forall_impl; [exact IHidx|]. intros z Hz. cbv beta in Hz. lia.
    + split; [constructor; assumption|]. split.
      * constructor; [lia|]. eapply Forall_impl; [exact IHidx|].
        intros z Hz. cbv beta in Hz. lia.
      * cbn [fmap list_fmap]. constructor; [exact IHsorted|].
        apply Forall_fmap. eapply Forall_impl; [exact IHidx|].
        intros z Hz. cbv beta in Hz. cbn. lia.
Qed.

(** What the form extraction records on a page: only forms with at least
    two fields, each entry consistent with the fields it was read from, in
    document order. *)
Theorem analyzeForms_records (load : string -> Result Document) (html pageUrl : string) :
  let forms := Forms.analyzeForms load html pageUrl in
  Forall (recorded_form pageUrl) forms
  /\ StronglySorted lt (Forms.form_index <$> forms)
  /\ forall doc, load html = Ok doc ->
       Forall (fun f => Forms.form_index f < length (Sel.query (Sel.tag "form") doc)) forms.
Proof.
  cbn zeta. unfold Forms.analyzeForms. destruct (load html) as [doc|e].
  - destruct (imap_indices (recorded_form pageUrl) (Sel.query (Sel.tag "form") doc) 0
                (Forms.analyzeForm doc pageUrl)) as (HP & Hidx & Hsorted).
    { intros i x. destruct (analyzeForm_recorded doc pageUrl i x) as [->|(f & -> & Hi & Hf)];
        [left; reflexivity|right; eauto]. }
    split; [exact HP|]. split; [exact Hsorted|].
    intros doc' [= <-]. eapply Forall_impl; [exact Hidx|].
    intros f Hf. cbv beta in Hf. lia.
  - split; [constructor|]. split; [constructor|]. intros doc [=].
Qed.

Lemma analyzeForms_recorded (load : string -> Result Document) (html pageUrl : string) :
  Forall (recorded_form pageUrl) (Forms.analyzeForms load html pageUrl).
Proof.
  unfold Forms.analyzeForms. destruct (load html) as [doc|e]; [|constructor].
  apply (imap_indices (recorded_form pageUrl) (Sel.query (Sel.tag "form") doc) 0
           (Forms.analyzeForm doc pageUrl)).
  intros i x. destruct (analyzeForm_recorded doc pageUrl i x) as [->|(f & -> & Hi & Hf)];
    [left; reflexivity|right; eauto].
Qed.

(** The classifier returns one of eleven names, and the field types condition
    the first four: a login or registration form has a password field, a
    contact form or newsletter signup an email field, a registration form
    at least three fields and a newsletter signup at most two. *)
Theorem classifyForm_range (inputs : list Forms.FormInput) (formHtml pageUrl : string) :
  let c := Forms.classifyForm inputs formHtml pageUrl in
  let types := map Forms.inputType inputs in
  c ∈ classifications
  /\ (c = "Login Form" \/ c = "Registration Form" -> JS.arr_includes types "password" = true)
  /\ (c = "Contact Form" \/ c = "Newsletter Signup" -> JS.arr_includes types "email" = true)
  /\ (c = "Registration Form" -> 3 <= length inputs)
  /\ (c = "Newsletter Signup" -> length inputs <= 2).
Proof.
  cbn zeta. unfold Forms.classifyForm.
  repeat match goal with
         | |- context [if ?b then _ else _] => destruct b eqn:?
         end;
    (split; [unfold classifications; set_solver|]);
    repeat split; intros H; try (destruct H as [H|H]); try discriminate H;
    repeat match goal with
           | E : _ && _ = true |- _ => apply andb_true_iff in E as [? ?]
           end;
    try assumption;
    repeat match goal with
           | E : (_ <=? _) = true |- _ => apply Nat.leb_le in E; rewrite length_map in E
           end; try assumption.
Qed.

(* ================================================================== *)
(** * Invariants of the crawl *)
(* ================================================================== *)

Section CrawlInvariant.

Variable URLp : UrlParser.
Variable net : Transport.
Variable rnd : nat -> Q.
Variable load : string -> Result Document.
Variable rx : RegexEngine.

#[local] Abbreviation crawlPage := (FormValidation.crawlPage URLp net rnd load).
#[local] Abbreviation crawlLoop := (FormValidation.crawlLoop URLp net rnd load).

Lemma crawlPage_inv (link : string) (st : FormValidation.Crawl) (w : World) :
  crawl_inv st ->
  link ∉ FormValidation.processedUrls st ->
  FormValidation.crawledPages st < FormValidation.maxPages ->
  exists st' w',
    crawlPage link st w = (Ok st', w')
    /\ crawl_inv st'
    /\ FormValidation.processedUrls st' = {[ link ]} ∪ FormValidation.processedUrls st
    /\ FormValidation.crawledPages st' = S (FormValidation.crawledPages st)
    /\ sends (fun r => req_url r = link) 6 w w'
    /\ sleeps (crawl_delay rnd) 4 w w'.
Proof.
  intros (Hsucc & Hmax & Hsize & pages & Hnd & Hlen & Hsub & Hforms) Hfresh Hlt.
  unfold FormValidation.crawlPage, io_try, mbind, io_bind, random, delay.
  cbv beta iota.
  match goal with
  | |- context [fetchWithStrategies URLp net rnd link 2 ?w0] => set (w2 := w0)
  end.
  destruct (fetchWithStrategies_effects URLp net rnd link 2 w2)
    as (res & w3 & -> & Hsends & Hsleeps).
  assert (Hs : sends (fun r => req_url r = link) 6 w w3).
  { eapply sends_trans; [apply (sends_same _ 0 w w2); reflexivity|exact Hsends|lia]. }
  assert (Hd : sleeps (crawl_delay rnd) 4 w w3).
  { eapply sleeps_trans with (k1 := 1) (w2 := w2).
    - exists [(rnd (draws w) * 1000 + 500)%Q]. split; [reflexivity|]. split; [cbn; lia|].
      constructor; [|constructor]. left. exists (draws w). reflexivity.
    - eapply sleeps_impl; [|exact Hsleeps]. intros d Hj. right. exact Hj.
    - lia. }
  assert (Hsize' : size ({[ link ]} ∪ FormValidation.processedUrls st)
                   = S (FormValidation.crawledPages st)).
  { rewrite size_union by (apply disjoint_singleton_l; exact Hfresh).
    rewrite size_singleton, Hsize. reflexivity. }
  destruct res as [response|e]; unfold mret, io_ret; cbv beta iota;
    eexists; eexists; (split; [reflexivity|]);
    (split; [|split; [reflexivity|split; [reflexivity|split; [exact Hs|exact Hd]]]]);
    unfold crawl_inv;
    cbn [FormValidation.allForms FormValidation.crawledPages FormValidation.successfulPages
         FormValidation.processedUrls].
  - split; [lia|]. split; [lia|]. split; [exact Hsize'|].
    exists (link :: pages). split; [|split; [|split]].
    + apply NoDup_cons. split; [|exact Hnd]. intros Hin. apply Hfresh, Hsub, Hin.
    + cbn [length]. lia.
    + intros p Hp. apply elem_of_cons in Hp as [->|Hp];
        [apply elem_of_union_l, elem_of_singleton; reflexivity|].
      apply elem_of_union_r, Hsub, Hp.
    + apply Forall_app. split.
      * eapply Forall_impl; [exact Hforms|]. intros f (p & Hp & Hf).
        exists p. split; [right; exact Hp|exact Hf].
      * eapply Forall_impl; [apply analyzeForms_recorded|]. intros f Hf.
        exists link. split; [left|exact Hf].
  - split; [lia|]. split; [lia|]. split; [exact Hsize'|].
    exists pages. split; [exact Hnd|]. split; [exact Hlen|]. split; [|exact Hforms].
    intros p Hp. apply elem_of_union_r, Hsub, Hp.
Qed.

(** The loop over the candidates never throws; it keeps the invariant and
    spends at most six requests and four delays on each page it crawls. *)
Lemma crawlLoop_inv (P : Request -> Prop) (links : list string) :
  forall st w,
    Forall (fun l => forall r, req_url r = l -> P r) links ->
    crawl_inv st ->
    exists st' w',
      crawlLoop links st w = (Ok st', w')
      /\ crawl_inv st'
      /\ FormValidation.processedUrls st ⊆ FormValidation.processedUrls st'
      /\ FormValidation.crawledPages st <= FormValidation.crawledPages st'
      /\ FormValidation.crawledPages st' <= FormValidation.crawledPages st + length links
      /\ sends P (6 * (FormValidation.crawledPages st' - FormValidation.crawledPages st)) w w'
      /\ sleeps (crawl_delay rnd)
           (4 * (FormValidation.crawledPages st' - FormValidation.crawledPages st)) w w'.
Proof.
  induction links as [|link rest IH]; intros st w HP Hinv.
  - exists st, w. split; [reflexivity|]. split; [exact Hinv|]. split; [reflexivity|].
    split; [lia|]. split; [lia|]. split; [apply sends_refl|apply sleeps_refl].
  - cbn [FormValidation.crawlLoop].
    destruct (bool_decide_reflect (link ∈ FormValidation.processedUrls st)) as [Hin|Hfresh];
      cbn [orb].
    { exists st, w. split; [reflexivity|]. split; [exact Hinv|]. split; [reflexivity|].
      split; [lia|]. split; [lia|]. split; [apply sends_refl|apply sleeps_refl]. }
    destruct (Nat.leb_spec FormValidation.maxPages (FormValidation.crawledPages st)) as [Hle|Hlt].
    { exists st, w. split; [reflexivity|]. split; [exact Hinv|]. split; [reflexivity|].
      split; [lia|]. split; [lia|]. split; [apply sends_refl|apply sleeps_refl]. }
    apply Forall_cons in HP as [Hlink Hrest].
    destruct (crawlPage_inv link st w Hinv Hfresh Hlt)
      as (st1 & w1 & Hrun & Hinv1 & Hproc & Hcount & Hs1 & Hd1).
    destruct (IH st1 w1 Hrest Hinv1)
      as (st2 & w2 & Hrun2 & Hinv2 & Hsub & Hlo & Hhi & Hs2 & Hd2).
    exists st2, w2. unfold mbind, io_bind. rewrite Hrun.
    split; [exact Hrun2|]. split; [exact Hinv2|]. cbn [length].
    split; [intros x Hx; apply Hsub; rewrite Hproc; apply elem_of_union_r, Hx|].
    split; [lia|]. split; [lia|]. split.
    + eapply sends_trans; [eapply sends_impl; [exact Hlink|exact Hs1]|exact Hs2|lia].
    + eapply sleeps_trans; [exact Hd1|exact Hd2|lia].
Qed.

(** The crawl throws only when the main page cannot be fetched; otherwise
    it ends in a state that satisfies the invariant, after at most nine
    requests for the main page and six for every further page. *)
Lemma crawl_effects (targetUrl : string) (w : World) :
  exists res w',
    FormValidation.crawl URLp net rnd load rx targetUrl w = (res, w')
    /\ match res with
       | Ok st =>
           crawl_inv st
           /\ targetUrl ∈ FormValidation.processedUrls st
           /\ sends (on_site URLp targetUrl)
                (9 + 6 * (FormValidation.crawledPages st - 1)) w w'
           /\ sleeps (crawl_delay rnd)
                (6 + 4 * (FormValidation.crawledPages st - 1)) w w'
       | Throw _ =>
           sends (on_site URLp targetUrl) 9 w w' /\ sleeps (crawl_delay rnd) 6 w w'
       end.
Proof.
  unfold FormValidation.crawl, mbind, io_bind.
  destruct (fetchWithStrategies_effects URLp net rnd targetUrl 3 w)
    as (res & w1 & -> & Hsends & Hsleeps).
  assert (Hs : sends (on_site URLp targetUrl) 9 w w1).
  { eapply sends_impl; [|exact Hsends]. intros r Hr. left. exact Hr. }
  assert (Hd : sleeps (crawl_delay rnd) 6 w w1).
  { eapply sleeps_impl; [|exact Hsleeps]. intros d Hj. right. exact Hj. }
  destruct res as [mainResponse|e]; [|eexists; eexists; split; [reflexivity|split; assumption]].
  match goal with |- context [FormValidation.crawlLoop _ _ _ _ ?ls ?st w1] =>
    destruct (crawlLoop_inv (on_site URLp targetUrl) ls st w1)
      as (st' & w' & Hrun & Hinv & Hsub & Hlo & Hhi & Hs2 & Hd2)
  end.
  - destruct (extractLinksFromHtml_inv URLp targetUrl load rx (body mainResponse))
      as (_ & _ & Hhost).
    unfold JS.slice0. apply Forall_take.
    eapply Forall_impl; [exact Hhost|]. intros l Hl r <-. right. exact Hl.
  - unfold crawl_inv. cbn. split; [lia|]. split; [unfold FormValidation.maxPages; lia|].
    split; [apply size_singleton|].
    exists [targetUrl]. split; [apply NoDup_singleton|]. split; [reflexivity|]. split.
    + intros p Hp. apply list_elem_of_singleton in Hp as ->. set_solver.
    + eapply Forall_impl; [apply analyzeForms_recorded|]. intros f Hf.
      exists targetUrl. split; [left|exact Hf].
  - cbn [FormValidation.crawledPages FormValidation.processedUrls] in Hsub, Hlo, Hhi, Hs2, Hd2.
    exists (Ok st'), w'. split; [exact Hrun|]. split; [exact Hinv|]. split.
    + apply Hsub. set_solver.
    + split.
      * eapply sends_trans; [exact Hs|exact Hs2|lia].
      * eapply sleeps_trans; [exact Hd|exact Hd2|lia].
Qed.

End CrawlInvariant.

(* ================================================================== *)
(** * The estimator of the form validation *)
(* ================================================================== *)

Lemma returns_ret {A} (a : A) (post : A -> Prop) : post a -> returns (mret a) post.
Proof. intros H w. exists a, w. split; [reflexivity|exact H]. Qed.

Lemma returns_bind {A B} (m : IO A) (f : A -> IO B) (mid : A -> Prop) (post : B -> Prop) :
  returns m mid -> (forall a, mid a -> returns (f a) post) -> returns (m ≫= f) post.
Proof.
  intros Hm Hf w. destruct (Hm w) as (a & w1 & Hrun & Ha).
  destruct (Hf a Ha w1) as (b & w2 & Hrun2 & Hb).
  exists b, w2. unfold mbind, io_bind. rewrite Hrun. split; [exact Hrun2|exact Hb].
Qed.

Lemma returns_random (rnd : nat -> Q) : returns (random rnd) (fun _ => True).
Proof. intros w. eexists. eexists. split; [reflexivity|exact I]. Qed.

Lemma returns_random_below (rnd : nat -> Q) (n : Z) :
  unit_interval rnd -> (0 < n)%Z ->
  returns (random_below rnd n) (fun k => (0 <= k < n)%Z).
Proof.
  intros Hrnd Hn w. destruct (random_below_range rnd n w Hrnd Hn) as (k & Hrun & Hk).
  eauto.
Qed.

Lemma returns_io_map {A B} (f : A -> IO B) (post : A -> B -> Prop) (xs : list A) :
  (forall x, returns (f x) (post x)) -> returns (io_map f xs) (Forall2 post xs).
Proof.
  intros Hf. induction xs as [|x xs IH]; [apply returns_ret; constructor|].
  cbn [io_map]. eapply returns_bind; [apply Hf|]. intros y Hy.
  eapply returns_bind; [apply IH|]. intros ys Hys.
  apply returns_ret. constructor; assumption.
Qed.

Lemma nth_error_mod_elem (xs : list string) (i : nat) :
  xs <> [] -> default "undefined" (nth_error xs (i mod length xs)) ∈ xs.
Proof.
  intros Hne. assert (Hlt : i mod length xs < length xs).
  { apply Nat.mod_upper_bound. destruct xs; [contradiction|cbn; lia]. }
  destruct (nth_error xs (i mod length xs)) as [x|] eqn:Hx.
  - cbn. apply list_elem_of_In. eapply nth_error_In, Hx.
  - apply nth_error_None in Hx. lia.
Qed.

Section FormEstimates.

Variable URLp : UrlParser.
Variable rnd : nat -> Q.
Hypothesis Hrnd : unit_interval rnd.

Lemma estimatedForm_ranges (url : string) (formTypes : list string) (i : nat) :
  formTypes <> [] ->
  returns (FormValidation.estimatedForm rnd url formTypes i)
          (estimated_form url formTypes i).
Proof.
  intros Hne. unfold FormValidation.estimatedForm.
  eapply returns_bind; [apply (returns_random_below rnd 6 Hrnd); lia|]. intros a Ha.
  eapply returns_bind; [apply (returns_random_below rnd 3 Hrnd); lia|]. intros b Hb.
  eapply returns_bind; [apply returns_random|]. intros c _.
  eapply returns_bind; [apply returns_random|]. intros d _.
  eapply returns_bind; [apply (returns_random_below rnd 40 Hrnd); lia|]. intros e He.
  apply returns_ret. unfold estimated_form. cbv beta in Ha, Hb, He.
  cbn [Forms.form_index Forms.page_url Forms.input_count Forms.input_types Forms.form_method
       Forms.form_classification Forms.accessibility_score Forms.inputs].
  split; [reflexivity|]. split.
  { unfold JS.startsWith. destruct (i =? 0); [apply prefix_refl|].
    apply prefix_append, prefix_refl. }
  split; [lia|]. split.
  { unfold JS.slice0. rewrite length_take. cbn [length]. lia. }
  split; [destruct (Num.lt _ c); auto|].
  split; [apply nth_error_mod_elem, Hne|]. split; [lia|reflexivity].
Qed.

(** [Math.floor(n * 0.7)] for the numbers of forms the estimator draws. *)
Lemma seven_tenths (n : Z) :
  (2 <= n <= 6)%Z ->
  (1 <= Qfloor (inject_Z n * (7 # 10)) <= 4)%Z /\ (Qfloor (inject_Z n * (7 # 10)) < n)%Z.
Proof.
  intros Hn.
  assert (Hcases : n = 2%Z \/ n = 3%Z \/ n = 4%Z \/ n = 5%Z \/ n = 6%Z) by lia.
  destruct Hcases as [->|[->|[->|[->| ->]]]]; vm_compute; repeat split; congruence.
Qed.

Lemma fold_insert_Forall (P : Z -> Prop) (counts : list (string * Z)) :
  forall m : gmap string Z,
    map_Forall (fun _ c => P c) m -> Forall (fun tc => P tc.2) counts ->
    map_Forall (fun _ c => P c) (fold_left (fun m tc => <[ tc.1 := tc.2 ]> m) counts m).
Proof.
  induction counts as [|tc counts IH]; intros m Hm Hall; cbn [fold_left]; [exact Hm|].
  apply Forall_cons in Hall as [Htc Hall].
  apply IH; [|exact Hall]. apply map_Forall_insert_2; assumption.
Qed.

Lemma fold_insert_keys (counts : list (string * Z)) :
  forall (m : gmap string Z) (t : string),
    is_Some (fold_left (fun m tc => <[ tc.1 := tc.2 ]> m) counts m !! t)
    <-> is_Some (m !! t) \/ t ∈ counts.*1.
Proof.
  induction counts as [|tc counts IH]; intros m t; cbn [fold_left fmap list_fmap].
  - rewrite elem_of_nil. tauto.
  - rewrite IH, elem_of_cons, lookup_insert_is_Some'. 
    destruct (decide (tc.1 = t)); intuition congruence.
Qed.

Lemma generateFormEstimates_ranges (url : string) (u : Url) :
  URLp url None = Some u ->
  returns (FormValidation.generateFormEstimates URLp rnd url) (estimated url u).
Proof.
  intros Hu. unfold FormValidation.generateFormEstimates.
  eapply returns_bind with (mid := fun u' => u' = u).
  { intros w. exists u, w. unfold lift, new_URL. rewrite Hu. auto. }
  intros ? ->. fold (is_ecommerce (hostname u)). fold (is_business (hostname u)).
  eapply returns_bind; [apply (returns_random_below rnd 5 Hrnd); lia|]. intros n Hn.
  cbv zeta. fold (form_types (hostname u)).
  set (formTypes := form_types (hostname u)).
  assert (Hne : formTypes <> []) by (subst formTypes; discriminate).
  eapply returns_bind.
  { apply (returns_io_map _ (fun type tc => tc.1 = type /\ (1 <= tc.2 <= 2)%Z)). intros type.
    eapply returns_bind; [apply (returns_random_below rnd 2 Hrnd); lia|]. intros c Hc.
    apply returns_ret. cbv beta in Hc. cbn. split; [reflexivity|lia]. }
  intros counts Hcounts.
  eapply returns_bind.
  { unfold array_from.
    apply (returns_io_map _ (estimated_form url formTypes)). intros i.
    apply estimatedForm_ranges, Hne. }
  intros forms Hforms.
  eapply returns_bind; [apply (returns_random_below rnd 10 Hrnd); lia|]. intros pages Hpages.
  apply returns_ret. unfold estimated. cbv beta in Hn, Hpages.
  cbn [FormValidation.est_forms_found FormValidation.est_forms_with_multiple_inputs
       FormValidation.est_detailed_forms FormValidation.est_total_pages_crawled
       FormValidation.est_pages_with_forms FormValidation.est_form_types_breakdown].
  destruct (seven_tenths (n + 2) ltac:(lia)) as [Hfloor Hless].
  split; [destruct (is_ecommerce (hostname u)); lia|].
  split; [destruct (is_ecommerce (hostname u)); lia|].
  split.
  { rewrite <- (Forall2_length _ _ _ Hforms), length_seq.
    destruct (is_ecommerce (hostname u)); lia. }
  split; [lia|]. split; [reflexivity|]. split; [|split].
  - apply fold_insert_Forall; [apply map_Forall_empty|].
    clear -Hcounts. induction Hcounts as [|???? []]; constructor; assumption.
  - intros t. rewrite fold_insert_keys, lookup_empty.
    assert (Hkeys : counts.*1 = formTypes).
    { clear -Hcounts. induction Hcounts as [|???? []]; cbn; congruence. }
    rewrite Hkeys. split; [intros [[? [=]]|]; assumption|auto].
  - rewrite <- (Forall2_length _ _ _ Hforms), length_seq. exact Hforms.
Qed.

End FormEstimates.

(* ================================================================== *)
(** * The report of the form validation *)
(* ================================================================== *)

Lemma breakdown_fold (forms : list Forms.FormInfo) :
  forall (m : gmap string Z) (t : string),
    fold_left (fun m form =>
                 let type := Forms.form_classification form in
                 <[ type := (default 0%Z (m !! type) + 1)%Z ]> m) forms m !! t
    = if count_type t forms =? 0 then m !! t
      else Some (default 0%Z (m !! t) + Z.of_nat (count_type t forms))%Z.
Proof.
  induction forms as [|f forms IH]; intros m t; [reflexivity|].
  cbn [fold_left]. rewrite IH. unfold count_type. cbn [List.filter]. cbv zeta.
  destruct (String.eqb_spec (Forms.form_classification f) t) as [->|Hne].
  - cbn [length Nat.eqb]. rewrite lookup_insert_eq. cbn [default]. unfold id.
    destruct (length _ =? 0) eqn:Hc.
    + apply Nat.eqb_eq in Hc. rewrite Hc. apply (f_equal Some). lia.
    + apply (f_equal Some). lia.
  - rewrite lookup_insert_ne by exact Hne. reflexivity.
Qed.

Lemma filter_all {A} (p : A -> bool) (l : list A) :
  Forall (fun x => p x = true) l -> List.filter p l = l.
Proof.
  induction 1 as [|x l Hx _ IH]; [reflexivity|].
  cbn [List.filter]. rewrite Hx, IH. reflexivity.
Qed.

Lemma report_consistent (targetUrl : string) (st : FormValidation.Crawl) :
  crawl_inv st -> consistent_report (FormValidation.report targetUrl st).
Proof.
  intros (Hsucc & Hmax & Hsize & pages & Hnd & Hlen & Hsub & Hforms).
  assert (Hfilter : List.filter (fun form => (2 <=? Forms.input_count form)%Z)
                      (FormValidation.allForms st) = FormValidation.allForms st).
  { apply filter_all. eapply Forall_impl; [exact Hforms|].
    intros f (p & _ & _ & Hcount & _). apply Z.leb_le, Hcount. }
  unfold consistent_report, FormValidation.report.
  cbn [FormValidation.forms_found FormValidation.forms_with_multiple_inputs
       FormValidation.detailed_forms FormValidation.successful_pages
       FormValidation.total_pages_crawled FormValidation.pages_with_forms
       FormValidation.form_types_breakdown].
  rewrite Hfilter.
  destruct (unique_spec (map Forms.page_url (FormValidation.allForms st))) as [Hund Huin].
  split; [reflexivity|]. split; [reflexivity|]. split.
  { eexists. split; [reflexivity|]. split; [lia|]. rewrite <- Hlen.
    apply inj_le, submseteq_length, NoDup_submseteq; [exact Hund|].
    intros p Hp. apply Huin in Hp. apply list_elem_of_In, in_map_iff in Hp as (f & <- & Hf).
    apply list_elem_of_In in Hf.
    destruct (proj1 (Forall_forall _ _) Hforms f Hf) as (q & Hq & <- & _). exact Hq. }
  split; [unfold FormValidation.maxPages in Hmax; lia|].
  split; [exact Hund|]. split.
  { intros p. rewrite Huin. reflexivity. }
  split.
  { intros t. unfold FormValidation.breakdown. rewrite breakdown_fold, lookup_empty.
    cbn [default]. destruct (count_type t _ =? 0); [reflexivity|]. f_equal. }
  eapply Forall_impl; [exact Hforms|]. intros f (p & _ & _ & Hcount & _). exact Hcount.
Qed.

Section FormValidationReplies.

Variable URLp : UrlParser.
Variable net : Transport.
Variable rnd : nat -> Q.
Variable load : string -> Result Document.
Variable rx : RegexEngine.

(** The three shapes a reply of the form validation can take once a URL
    is present, with what the handler has sent and slept. *)
Lemma form_validation_reply (rq : ApiRequest) (url : string) (w : World) :
  json_url rq = Some url -> JS.truthy url = true ->
  exists b w',
    FormValidation.POST URLp net rnd load rx rq w = (Json 200 b, w')
    /\ sleeps (crawl_delay rnd) 42 w w'
    /\ ((exists st, b = FormValidation.report (withScheme url) st
                    /\ crawl_inv st
                    /\ sends (on_site URLp (withScheme url))
                         (9 + 6 * (FormValidation.crawledPages st - 1)) w w')
        \/ (sends (on_site URLp (withScheme url)) 9 w w'
            /\ ((exists est, b = FormValidation.estimation (withScheme url) est
                             /\ (unit_interval rnd ->
                                 exists u, URLp (withScheme url) None = Some u
                                           /\ estimated (withScheme url) u est))
                \/ exists e, b = FormValidation.errorFallback rq e))).
Proof.
  intros Hjson Htruthy.
  unfold FormValidation.POST. rewrite Hjson, Htruthy. cbn [negb].
  unfold io_try, mbind, io_bind.
  destruct (crawl_effects URLp net rnd load rx (withScheme url) w) as (res & w1 & -> & Hres).
  destruct res as [st|e]; unfold mret, io_ret; cbv beta iota.
  - destruct Hres as (Hinv & _ & Hs & Hd).
    assert (Hmax : FormValidation.crawledPages st <= 10) by apply Hinv.
    eexists. exists w1. split; [reflexivity|]. split.
    + eapply sleeps_weaken; [exact Hd|lia].
    + left. exists st. auto.
  - destruct Hres as [Hs Hd].
    destruct (FormValidation.generateFormEstimates URLp rnd (withScheme url) w1)
      as [[est|e'] w2] eqn:Hgen;
      destruct (quiet_generateFormEstimates URLp rnd _ _ _ _ Hgen) as [Hq1 Hq2];
      eexists; exists w2; (split; [reflexivity|]);
      (split; [eapply sleeps_trans; [exact Hd|apply (sleeps_same _ 0), Hq2|lia]|]);
      right; (split; [eapply sends_trans; [exact Hs|apply (sends_same _ 0), Hq1|lia]|]).
    + left. exists est. split; [reflexivity|]. intros Hrnd.
      destruct (URLp (withScheme url) None) as [u|] eqn:Hu.
      * exists u. split; [reflexivity|].
        destruct (generateFormEstimates_ranges URLp rnd Hrnd _ u Hu w1)
          as (est' & w3 & Hrun & Hest).
        rewrite Hrun in Hgen. injection Hgen as <- _. exact Hest.
      * rewrite (generateFormEstimates_throws URLp rnd _ w1 Hu) in Hgen. discriminate.
    + right. eauto.
Qed.

End FormValidationReplies.

(** Once a URL is present the form validation always answers with HTTP
    200: with the report of a crawl, with estimates, or with the error
    fallback.  Only the report of a crawl carries [successful_pages]; in
    every reply [forms_with_multiple_inputs] is the number of entries of
    [detailed_forms] and does not exceed [forms_found]. *)
Theorem form_validation_always_answers (URLp : UrlParser) (net : Transport) (rnd : nat -> Q)
    (load : string -> Result Document) (rx : RegexEngine)
    (rq : ApiRequest) (url : string) (w : World)
    (Hjson : json_url rq = Some url) (Hurl : JS.truthy url = true)
    (Hrnd : unit_interval rnd) :
  exists b w',
    FormValidation.POST URLp net rnd load rx rq w = (Json 200 b, w')
    /\ FormValidation.method b
       ∈ ["enhanced_crawling"; "intelligent_estimation"; "error_fallback"]
    /\ (FormValidation.status_ b = "success" /\ FormValidation.error b = None
        \/ FormValidation.status_ b = "partial_success"
           /\ FormValidation.method b = "error_fallback"
           /\ is_Some (FormValidation.error b))
    /\ (is_Some (FormValidation.successful_pages b)
        <-> FormValidation.method b = "enhanced_crawling")
    /\ FormValidation.forms_with_multiple_inputs b
       = Z.of_nat (length (FormValidation.detailed_forms b))
    /\ (FormValidation.forms_with_multiple_inputs b <= FormValidation.forms_found b)%Z.
Proof.
  destruct (form_validation_reply URLp net rnd load rx rq url w Hjson Hurl)
    as (b & w' & Hrun & _ & Hshape).
  exists b, w'. split; [exact Hrun|].
  destruct Hshape as [(st & -> & Hinv & _)|[_ [(est & -> & Hest)|(e & ->)]]].
  - destruct (report_consistent (withScheme url) st Hinv) as (Hfound & Hmulti & _).
    split; [apply list_elem_of_here|]. split; [left; split; reflexivity|].
    split; [split; [reflexivity|intros _; eexists; reflexivity]|].
    rewrite Hmulti. split; [exact Hfound|lia].
  - destruct (Hest Hrnd) as (u & _ & _ & Hless & Hlen & _).
    cbn [FormValidation.estimation FormValidation.method FormValidation.status_
         FormValidation.error FormValidation.successful_pages
         FormValidation.forms_with_multiple_inputs FormValidation.detailed_forms
         FormValidation.forms_found].
    split; [apply list_elem_of_further, list_elem_of_here|].
    split; [left; split; reflexivity|].
    split; [split; [intros [? [=]]|discriminate]|].
    split; [symmetry; exact Hlen|lia].
  - cbn [FormValidation.errorFallback FormValidation.method FormValidation.status_
         FormValidation.error FormValidation.successful_pages
         FormValidation.forms_with_multiple_inputs FormValidation.detailed_forms
         FormValidation.forms_found length].
    split; [do 2 apply list_elem_of_further; apply list_elem_of_here|].
    split; [right; split; [reflexivity|split; [reflexivity|eexists; reflexivity]]|].
    split; [split; [intros [? [=]]|discriminate]|].
    split; [reflexivity|lia].
Qed.

(** A site that refuses every request: the estimates are returned. *)
Lemma form_validation_always_answers_witness :
  exists b w',
    FormValidation.POST RefURL.parse (Ref.answering 403 "Forbidden" "") (Ref.constant 0)
      (Ref.loading []) Ref.noMatch (Ref.request "shop.example.com") start = (Json 200 b, w')
    /\ FormValidation.method b
       ∈ ["enhanced_crawling"; "intelligent_estimation"; "error_fallback"]
    /\ (FormValidation.status_ b = "success" /\ FormValidation.error b = None
        \/ FormValidation.status_ b = "partial_success"
           /\ FormValidation.method b = "error_fallback"
           /\ is_Some (FormValidation.error b))
    /\ (is_Some (FormValidation.successful_pages b)
        <-> FormValidation.method b = "enhanced_crawling")
    /\ FormValidation.forms_with_multiple_inputs b
       = Z.of_nat (length (FormValidation.detailed_forms b))
    /\ (FormValidation.forms_with_multiple_inputs b <= FormValidation.forms_found b)%Z.
Proof.
  apply (form_validation_always_answers RefURL.parse (Ref.answering 403 "Forbidden" "")
           (Ref.constant 0) (Ref.loading []) Ref.noMatch (Ref.request "shop.example.com")
           "shop.example.com" start).
  - reflexivity.
  - reflexivity.
  - intros n. split; [apply Qle_refl|reflexivity].
Defined.

(** Whatever the request, the form validation sends at most 63 HTTP
    requests (nine for the main page, six for each of at most nine further
    pages), each of them to the submitted URL or to a URL on its host. *)
Theorem form_validation_request_budget (URLp : UrlParser) (net : Transport) (rnd : nat -> Q)
    (load : string -> Result Document) (rx : RegexEngine) (rq : ApiRequest) (w : World) :
  sends (fun r => exists url, json_url rq = Some url /\ on_site URLp (withScheme url) r) 63
    w (FormValidation.POST URLp net rnd load rx rq w).2.
Proof.
  destruct (json_url rq) as [url|] eqn:Hjson.
  - destruct (JS.truthy url) eqn:Hurl.
    + destruct (form_validation_reply URLp net rnd load rx rq url w Hjson Hurl)
        as (b & w' & -> & _ & Hshape).
      assert (Hs : exists k, k <= 63 /\ sends (on_site URLp (withScheme url)) k w w').
      { destruct Hshape as [(st & _ & Hinv & Hs)|[Hs _]].
        - eexists. split; [|exact Hs].
          assert (FormValidation.crawledPages st <= 10) by apply Hinv. lia.
        - exists 9. split; [lia|exact Hs]. }
      destruct Hs as (k & Hk & Hs).
      eapply sends_weaken; [|exact Hk].
      eapply sends_impl; [|exact Hs]. intros r Hr. eauto.
    + unfold FormValidation.POST. rewrite Hjson, Hurl. apply (sends_refl _ 63).
  - unfold FormValidation.POST. rewrite Hjson. apply (sends_refl _ 63).
Qed.

(** The pacing of the form validation: with a random source in [0, 1) the
    handler sleeps at most 42 times, and every delay lies between 500 and
    3000 milliseconds, both bounds included (in double precision the delay
    before a retry, [Math.random() * 2000 + 1000], can round to 3000). *)
Theorem form_validation_pacing (URLp : UrlParser) (net : Transport) (rnd : nat -> Q)
    (load : string -> Result Document) (rx : RegexEngine) (rq : ApiRequest) (w : World)
    (Hrnd : unit_interval rnd) :
  sleeps (fun d => (500 <= d)%Q /\ (d <= 3000)%Q) 42
    w (FormValidation.POST URLp net rnd load rx rq w).2.
Proof.
  destruct (json_url rq) as [url|] eqn:Hjson.
  - destruct (JS.truthy url) eqn:Hurl.
    + destruct (form_validation_reply URLp net rnd load rx rq url w Hjson Hurl)
        as (b & w' & -> & Hd & _).
      eapply sleeps_impl; [|exact Hd]. intros d [Hj|Hj].
      * destruct (jitter_bounds rnd 1000 500 d Hrnd eq_refl Hj) as [Hlo Hhi].
        split; [exact Hlo|]. apply Qlt_le_weak. eapply Qlt_trans; [exact Hhi|reflexivity].
      * destruct (jitter_bounds rnd 2000 1000 d Hrnd eq_refl Hj) as [Hlo Hhi].
        split; [|apply Qlt_le_weak, Hhi]. eapply Qle_trans; [|exact Hlo].
        apply Qle_bool_imp_le. reflexivity.
    + unfold FormValidation.POST. rewrite Hjson, Hurl. apply (sleeps_refl _ 42).
  - unfold FormValidation.POST. rewrite Hjson. apply (sleeps_refl _ 42).
Qed.

(** Three pages, each fetched at once: one politeness delay per page after
    the first. *)
Lemma form_validation_pacing_witness :
  sleeps (fun d => (500 <= d)%Q /\ (d <= 3000)%Q) 42 start
    (FormValidation.POST RefURL.parse (Ref.answering 200 "OK" "<html>") (Ref.constant 0)
       (Ref.loading Ref.twoLinks) Ref.noMatch (Ref.request "https://x.com/") start).2.
Proof.
  apply (form_validation_pacing RefURL.parse (Ref.answering 200 "OK" "<html>")
           (Ref.constant 0) (Ref.loading Ref.twoLinks) Ref.noMatch
           (Ref.request "https://x.com/") start).
  intros n. split; [apply Qle_refl|reflexivity].
Defined.

(** The report of a crawl is consistent: every form found has at least two
    fields, so [forms_found], [forms_with_multiple_inputs] and the length of
    [detailed_forms] agree; the breakdown counts the forms of each type;
    between one and [total_pages_crawled] pages were fetched, at most ten
    were crawled, and [pages_with_forms] lists, without repetition, pages
    that were fetched.  The crawl has cost at most nine requests for the
    main page and six for each further page. *)
Theorem crawl_report_consistent (URLp : UrlParser) (net : Transport) (rnd : nat -> Q)
    (load : string -> Result Document) (rx : RegexEngine) (rq : ApiRequest) (w w' : World)
    (b : FormValidation.Body)
    (Hrun : FormValidation.POST URLp net rnd load rx rq w = (Json 200 b, w'))
    (Hmethod : FormValidation.method b = "enhanced_crawling") :
  consistent_report b
  /\ (Z.of_nat (sent w') <= Z.of_nat (sent w)
                            + 9 + 6 * (FormValidation.total_pages_crawled b - 1))%Z.
Proof.
  destruct (json_url rq) as [url|] eqn:Hjson;
    [|unfold FormValidation.POST in Hrun; rewrite Hjson in Hrun; discriminate].
  destruct (JS.truthy url) eqn:Hurl;
    [|unfold FormValidation.POST in Hrun; rewrite Hjson, Hurl in Hrun; discriminate].
  destruct (form_validation_reply URLp net rnd load rx rq url w Hjson Hurl)
    as (b' & w2 & Hrun' & _ & Hshape).
  rewrite Hrun in Hrun'. injection Hrun' as <- <-.
  destruct Hshape as [(st & -> & Hinv & Hs)|[_ [(est & -> & _)|(e & ->)]]];
    [|discriminate Hmethod|discriminate Hmethod].
  split; [apply report_consistent, Hinv|].
  apply sends_sent in Hs. cbn [FormValidation.report FormValidation.total_pages_crawled].
  assert (1 <= FormValidation.crawledPages st) by (destruct Hinv as [? _]; lia).
  lia.
Qed.

(** A site of eleven pages, the main page linking to the ten others. *)
Lemma crawl_report_consistent_witness :
  exists b w',
    FormValidation.POST RefURL.parse (Ref.answering 200 "OK" "<html>") (Ref.constant 0)
      (Ref.loading Ref.innerPage) Ref.noMatch (Ref.request "https://x.com/") start
    = (Json 200 b, w')
    /\ FormValidation.method b = "enhanced_crawling"
    /\ consistent_report b
    /\ (Z.of_nat (sent w') <= Z.of_nat (sent start)
                              + 9 + 6 * (FormValidation.total_pages_crawled b - 1))%Z.
Proof.
  eexists. eexists. split; [vm_compute; reflexivity|]. split; [reflexivity|].
  apply (crawl_report_consistent RefURL.parse (Ref.answering 200 "OK" "<html>")
           (Ref.constant 0) (Ref.loading Ref.innerPage) Ref.noMatch
           (Ref.request "https://x.com/") start).
  - vm_compute. reflexivity.
  - reflexivity.
Defined.

(** The estimates of the form validation on a URL that parses, for a
    random source in [0, 1): between two and six forms (three more on a
    shop), fewer of them with several inputs than forms in all, between five
    and fourteen pages, a breakdown whose keys are exactly the form types of
    the host ([form_types]), each with count one or two, and one entry of
    [detailed_forms] for each form with several inputs: the entry at
    position [i] has index [i], a classification among the form types of
    the host, two to seven inputs and a score between 60 and 99. *)
Theorem form_estimates_ranges (URLp : UrlParser) (rnd : nat -> Q) (url : string) (u : Url)
    (w : World)
    (Hu : URLp url None = Some u) (Hrnd : unit_interval rnd) :
  exists est w',
    FormValidation.generateFormEstimates URLp rnd url w = (Ok est, w')
    /\ estimated url u est.
Proof. apply (generateFormEstimates_ranges URLp rnd Hrnd url u Hu w). Qed.

Lemma form_estimates_ranges_witness :
  exists est w',
    FormValidation.generateFormEstimates RefURL.parse (Ref.constant (1 # 2))
      "https://shop.example.com" start = (Ok est, w')
    /\ estimated "https://shop.example.com"
         {| href := "https://shop.example.com/"; protocol := "https:";
            host := "shop.example.com"; hostname := "shop.example.com" |} est.
Proof.
  apply (form_estimates_ranges RefURL.parse (Ref.constant (1 # 2))
           "https://shop.example.com" _ start).
  - reflexivity.
  - intros n. split; [apply Qle_bool_imp_le; reflexivity|reflexivity].
Defined.

(* ================================================================== *)
(** * The accounting of the deep analysis *)
(* ================================================================== *)

Lemma deep_scores (doc : Document) :
  (0 <= Deep.calculateAccessibilityScore doc <= 100)%Z
  /\ (0 <= Deep.calculateSEOScore doc <= 100)%Z.
Proof.
  split.
  - split; apply clamp_round_bounds, acc_deductions_nonneg.
  - split; apply clamp_round_bounds, seo_deductions_nonneg.
Qed.

Lemma fold_add_bounds (scores : list Z) (hi : Z) :
  Forall (fun s => (0 <= s <= hi)%Z) scores ->
  forall acc, (acc <= fold_left Z.add scores acc <= acc + hi * Z.of_nat (length scores))%Z.
Proof.
  induction 1 as [|s scores Hs _ IH]; intros acc; cbn [fold_left length]; [lia|].
  specialize (IH (acc + s)%Z). lia.
Qed.

(** The mean of scores between 0 and 100 lies between 0 and 100. *)
Lemma average_bounds (scores : list Z) :
  Forall (fun s => (0 <= s <= 100)%Z) scores ->
  (0 <= DeepAnalysis.average scores)%Q /\ (DeepAnalysis.average scores <= 100)%Q.
Proof.
  intros Hall. unfold DeepAnalysis.average.
  destruct (Nat.ltb_spec 0 (length scores)) as [Hlen|Hlen];
    [|split; apply Qle_bool_imp_le; reflexivity].
  pose proof (fold_add_bounds scores 100 Hall 0%Z) as [Hlo Hhi].
  assert (Hn : (0 < Num.of_nat (length scores))%Q).
  { unfold Num.of_nat. change 0%Q with (inject_Z 0). rewrite <- Zlt_Qlt. lia. }
  split.
  - apply Qle_shift_div_l; [exact Hn|]. rewrite Qmult_0_l.
    change 0%Q with (inject_Z 0). rewrite <- Zle_Qle. exact Hlo.
  - apply Qle_shift_div_r; [exact Hn|]. unfold Num.of_nat.
    change 100%Q with (inject_Z 100). rewrite <- inject_Z_mult, <- Zle_Qle. lia.
Qed.

Section DeepAccounting.

Variable URLp : UrlParser.
Variable net : Transport.
Variable load : string -> Result Document.

(** A link is either analysed or recorded as failed, after at most one
    request; the loop body never throws. *)
Lemma analyzeLink_effects (acc : list DeepAnalysis.PageData * list DeepAnalysis.Failure)
    (link : Link) (w : World) :
  exists acc' w',
    DeepAnalysis.analyzeLink URLp net load acc link w = (Ok acc', w')
    /\ handled acc' ≡ₚ handled acc ++ [link_url link]
    /\ (Forall scored acc.1 -> Forall scored acc'.1)
    /\ sends (fun r => req_url r = link_url link) 1 w w'
    /\ slept w' = slept w.
Proof.
  assert (Hfail : forall f, DeepAnalysis.fl_url f = link_url link ->
            handled (acc.1, acc.2 ++ [f]) ≡ₚ handled acc ++ [link_url link]).
  { intros f Hf. unfold handled. cbn [fst snd]. rewrite fmap_app. cbn.
    rewrite Hf, app_assoc. reflexivity. }
  assert (Hone : forall req ws, req_url req = link_url link ->
            sends (fun r => req_url r = link_url link) 1 w
                  (mkWorld (req :: requests w) (draws w) ws)).
  { intros req ws Hreq. exists [req]. split; [reflexivity|]. split; [cbn; lia|].
    constructor; [exact Hreq|constructor]. }
  unfold DeepAnalysis.analyzeLink, io_try, mbind, io_bind, fetch. cbn [req_url].
  destruct (URLp (link_url link) None) as [u|].
  - destruct (net _ _) as [response|e]; cbv beta iota.
    + destruct (ok response); cbn [negb]; unfold mret, io_ret, lift; cbv beta iota.
      * destruct (load (body response)) as [doc|e]; cbv beta iota;
          eexists; eexists; (split; [reflexivity|]).
        -- split; [|split; [|split; [apply Hone; reflexivity|reflexivity]]].
           ++ unfold handled. cbn [fst snd]. rewrite fmap_app. cbn.
              rewrite <- !app_assoc. apply Permutation_app_head, Permutation_app_comm.
           ++ cbn [fst]. intros Hall. apply Forall_app. split; [exact Hall|].
              constructor; [|constructor]. apply deep_scores.
        -- split; [apply Hfail; reflexivity|].
           split; [auto|split; [apply Hone; reflexivity|reflexivity]].
      * eexists; eexists; (split; [reflexivity|]).
        split; [apply Hfail; reflexivity|].
        split; [auto|split; [apply Hone; reflexivity|reflexivity]].
    + eexists; eexists; (split; [reflexivity|]).
      split; [apply Hfail; reflexivity|].
      split; [auto|split; [apply Hone; reflexivity|reflexivity]].
  - eexists; eexists; (split; [reflexivity|]).
    split; [apply Hfail; reflexivity|].
    split; [auto|split; [apply (sends_refl _ 1)|reflexivity]].
Qed.

Lemma analyzeLinks_effects (links : list Link) :
  forall acc w,
    exists acc' w',
      DeepAnalysis.analyzeLinks URLp net load links acc w = (Ok acc', w')
      /\ handled acc' ≡ₚ handled acc ++ (link_url <$> links)
      /\ (Forall scored acc.1 -> Forall scored acc'.1)
      /\ sends (fun r => req_url r ∈ link_url <$> links) (length links) w w'
      /\ slept w' = slept w.
Proof.
  induction links as [|link rest IH]; intros acc w.
  - exists acc, w. split; [reflexivity|]. cbn. rewrite app_nil_r.
    split; [reflexivity|]. split; [auto|]. split; [apply sends_refl|reflexivity].
  - cbn [DeepAnalysis.analyzeLinks]. unfold mbind at 1, io_bind at 1.
    destruct (analyzeLink_effects acc link w) as (acc1 & w1 & -> & Hp1 & Hs1 & Hr1 & Hd1).
    destruct (IH acc1 w1) as (acc2 & w2 & Hrun & Hp2 & Hs2 & Hr2 & Hd2).
    exists acc2, w2. split; [exact Hrun|]. split; [|split; [|split]].
    + rewrite Hp2, Hp1, <- app_assoc. reflexivity.
    + auto.
    + cbn [length]. eapply sends_trans with (k1 := 1).
      * eapply sends_impl; [|exact Hr1]. intros r ->. cbn. left.
      * eapply sends_impl; [|exact Hr2]. intros r Hr. cbn. right. exact Hr.
      * lia.
    + congruence.
Qed.

End DeepAccounting.

Section DeepReplies.

Variable URLp : UrlParser.
Variable net : Transport.
Variable load : string -> Result Document.

Lemma deep_analysis_reply (rq : ApiRequest) (url : string) (target : Url) (w : World) :
  json_url rq = Some url -> JS.truthy url = true -> URLp url None = Some target ->
  exists reply w',
    DeepAnalysis.POST URLp net load rq w = (reply, w')
    /\ slept w' = slept w
    /\ match reply with
       | Json code b =>
           code = 200%Z /\ deep_accounting target b
           /\ sends (deep_request target)
                (1 + (DeepAnalysis.analyzed_links b + DeepAnalysis.failed_links b)) w w'
       | JsonError code msg =>
           (code = 400%Z \/ code = 500%Z) /\ JS.truthy msg = true
           /\ sends (deep_request target) 1 w w'
       end.
Proof.
  intros Hjson Htruthy Hurl.
  unfold DeepAnalysis.POST. rewrite Hjson, Htruthy, Hurl. cbn [negb].
  assert (Hone : forall req ws, req_url req = href target ->
            sends (deep_request target) 1 w (mkWorld (req :: requests w) (draws w) ws)).
  { intros req ws Hreq. exists [req]. split; [reflexivity|]. split; [cbn; lia|].
    constructor; [left; exact Hreq|constructor]. }
  unfold mbind at 1, io_bind at 1, fetch. cbn [req_url].
  destruct (URLp (href target) None) as [u|];
    [|eexists; eexists; split; [reflexivity|]; split; [reflexivity|];
      split; [auto|split; [reflexivity|apply (sends_refl _ 1)]]].
  destruct (net _ _) as [response|e]; cbv beta iota;
    [|eexists; eexists; split; [reflexivity|]; split; [reflexivity|];
      split; [auto|split; [reflexivity|apply Hone; reflexivity]]].
  destruct (ok response); cbn [negb];
    [|eexists; eexists; split; [reflexivity|]; split; [reflexivity|];
      split; [auto|split; [reflexivity|apply Hone; reflexivity]]].
  unfold mbind at 1, io_bind at 1, lift.
  destruct (load (body response) ≫= _) as [internalLinks|e] eqn:Hlinks;
    [|eexists; eexists; split; [reflexivity|]; split; [reflexivity|];
      split; [auto|split; [reflexivity|apply Hone; reflexivity]]].
  assert (Hinv : NoDup (link_url <$> internalLinks)
                 /\ Forall (fun l => JS.startsWith (link_url l) (deep_base target) = true)
                           internalLinks).
  { destruct (load (body response)) as [doc|e]; [|discriminate Hlinks].
    cbn in Hlinks. unfold deep_links in Hlinks.
    eapply deep_links_inv; [| |exact Hlinks]; constructor. }
  destruct Hinv as [Hnd Hpre].
  unfold mbind at 1, io_bind at 1.
  match goal with
  | |- context [DeepAnalysis.analyzeLinks URLp net load ?ls ([], []) ?w0] =>
      destruct (analyzeLinks_effects URLp net load ls ([], []) w0)
        as ([analyzedData failedData] & w2 & -> & Hperm & Hscored & Hs & Hd)
  end.
  cbn [handled fst snd fmap list_fmap app] in Hperm.
  fold (handled (analyzedData, failedData)) in Hperm.
  specialize (Hscored (Forall_nil_2 _)). cbn [fst] in Hscored.
  assert (Hlen : length analyzedData + length failedData
                 = Nat.min DeepAnalysis.maxLinksToAnalyze (length internalLinks)).
  { pose proof (Permutation_length Hperm) as Hl.
    unfold handled in Hl. cbn [fst snd] in Hl.
    rewrite length_app, !length_fmap in Hl. unfold JS.slice0 in Hl.
    rewrite length_take in Hl. exact Hl. }
  assert (Htake : Forall (fun u => JS.startsWith u (deep_base target) = true)
                         (link_url <$> JS.slice0 DeepAnalysis.maxLinksToAnalyze internalLinks)).
  { apply Forall_fmap. unfold JS.slice0. apply Forall_take.
    eapply Forall_impl; [exact Hpre|]. intros l Hl. exact Hl. }
  eexists. eexists. split; [reflexivity|]. split; [exact Hd|].
  split; [reflexivity|]. split.
  - unfold deep_accounting.
    cbn [DeepAnalysis.base_url DeepAnalysis.url DeepAnalysis.status_
         DeepAnalysis.analyzed_links DeepAnalysis.failed_links
         DeepAnalysis.total_internal_links DeepAnalysis.analyzed_data
         DeepAnalysis.failed_data DeepAnalysis.average_accessibility_score
         DeepAnalysis.average_seo_score].
    do 5 (split; [reflexivity|]). split; [exact Hlen|]. split.
    { rewrite Hperm. unfold JS.slice0. rewrite fmap_take.
      eapply sublist_NoDup; [exact Hnd|apply sublist_take]. }
    split; [rewrite Hperm; exact Htake|]. split; [exact Hscored|].
    assert (Ha : Forall (fun s => (0 <= s <= 100)%Z)
                        (map DeepAnalysis.accessibility_score analyzedData)).
    { apply List.Forall_map. eapply Forall_impl; [exact Hscored|]. intros p Hp. apply Hp. }
    assert (Hb : Forall (fun s => (0 <= s <= 100)%Z)
                        (map DeepAnalysis.seo_score analyzedData)).
    { apply List.Forall_map. eapply Forall_impl; [exact Hscored|]. intros p Hp. apply Hp. }
    destruct (average_bounds _ Ha). destruct (average_bounds _ Hb). auto.
  - cbn [DeepAnalysis.analyzed_links DeepAnalysis.failed_links].
    pose proof (Hone (mkRequest (href target) chromeHeaders false) (slept w) eq_refl) as H1.
    eapply sends_trans; [exact H1| |reflexivity].
    rewrite Hlen. unfold JS.slice0 in Hs. rewrite length_take in Hs.
    eapply sends_impl; [|exact Hs]. intros r Hr. right.
    apply (proj1 (Forall_forall _ _) Htake), Hr.
Qed.

End DeepReplies.

(** A completed deep analysis accounts for every link it set out to
    analyse: the first fifteen internal links are each either analysed or
    recorded as failed, exactly once; their URLs begin with the origin of
    the page; the counts match the lists; the scores and their averages lie
    between 0 and 100; and the run has cost at most one request per link
    besides the one for the page itself, without any delay. *)
Theorem deep_analysis_accounting (URLp : UrlParser) (net : Transport)
    (load : string -> Result Document) (rq : ApiRequest) (w w' : World)
    (code : Z) (b : DeepAnalysis.Body)
    (Hrun : DeepAnalysis.POST URLp net load rq w = (Json code b, w')) :
  code = 200%Z
  /\ (exists url target,
        json_url rq = Some url /\ URLp url None = Some target
        /\ deep_accounting target b)
  /\ sent w' <= sent w + 1 + (DeepAnalysis.analyzed_links b + DeepAnalysis.failed_links b)
  /\ slept w' = slept w.
Proof.
  destruct (json_url rq) as [url|] eqn:Hjson;
    [|unfold DeepAnalysis.POST in Hrun; rewrite Hjson in Hrun; discriminate].
  destruct (JS.truthy url) eqn:Htruthy;
    [|unfold DeepAnalysis.POST in Hrun; rewrite Hjson, Htruthy in Hrun; discriminate].
  destruct (URLp url None) as [target|] eqn:Hurl;
    [|unfold DeepAnalysis.POST in Hrun; rewrite Hjson, Htruthy, Hurl in Hrun; discriminate].
  destruct (deep_analysis_reply URLp net load rq url target w Hjson Htruthy Hurl)
    as (reply & w2 & Hrun' & Hd & Hreply).
  rewrite Hrun in Hrun'. injection Hrun' as <- <-.
  destruct Hreply as (-> & Hacc & Hs).
  split; [reflexivity|]. split; [eauto|]. split; [|exact Hd].
  apply sends_sent in Hs. lia.
Qed.

(** A page with ten internal links, all of which can be fetched. *)
Lemma deep_analysis_accounting_witness :
  exists b w',
    DeepAnalysis.POST RefURL.parse (Ref.answering 200 "OK" "<html>")
      (Ref.loading Ref.innerPage) (Ref.request "https://x.com/") start = (Json 200 b, w')
    /\ (exists url target,
          json_url (Ref.request "https://x.com/") = Some url
          /\ RefURL.parse url None = Some target
          /\ deep_accounting target b)
    /\ sent w' <= sent start + 1
                  + (DeepAnalysis.analyzed_links b + DeepAnalysis.failed_links b)
    /\ slept w' = slept start.
Proof.
  eexists. eexists. split; [vm_compute; reflexivity|].
  refine (proj2 (deep_analysis_accounting RefURL.parse (Ref.answering 200 "OK" "<html>")
                   (Ref.loading Ref.innerPage) (Ref.request "https://x.com/") start
                   _ 200 _ _)).
  vm_compute. reflexivity.
Defined.

(** Whatever the request, the deep analysis sends at most sixteen HTTP
    requests, each to the submitted page or to a URL that begins with its
    origin, and it never sleeps. *)
Theorem deep_analysis_request_budget (URLp : UrlParser) (net : Transport)
    (load : string -> Result Document) (rq : ApiRequest) (w : World) :
  sends (fun r => exists url target,
                    json_url rq = Some url /\ URLp url None = Some target
                    /\ deep_request target r) 16
    w (DeepAnalysis.POST URLp net load rq w).2
  /\ slept (DeepAnalysis.POST URLp net load rq w).2 = slept w.
Proof.
  destruct (json_url rq) as [url|] eqn:Hjson;
    [|unfold DeepAnalysis.POST; rewrite Hjson; split; [apply (sends_refl _ 16)|reflexivity]].
  destruct (JS.truthy url) eqn:Htruthy;
    [|unfold DeepAnalysis.POST; rewrite Hjson, Htruthy;
      split; [apply (sends_refl _ 16)|reflexivity]].
  destruct (URLp url None) as [target|] eqn:Hurl;
    [|unfold DeepAnalysis.POST; rewrite Hjson, Htruthy, Hurl;
      split; [apply (sends_refl _ 16)|reflexivity]].
  destruct (deep_analysis_reply URLp net load rq url target w Hjson Htruthy Hurl)
    as (reply & w2 & -> & Hd & Hreply).
  split; [|exact Hd]. cbn [snd].
  assert (Hs : exists k, k <= 16 /\ sends (deep_request target) k w w2).
  { destruct reply as [code b|code msg].
    - destruct Hreply as (_ & Hacc & Hs). eexists. split; [|exact Hs].
      destruct Hacc as (_ & _ & _ & _ & _ & Hmin & _).
      unfold DeepAnalysis.maxLinksToAnalyze in Hmin. lia.
    - destruct Hreply as (_ & _ & Hs). exists 1. split; [lia|exact Hs]. }
  destruct Hs as (k & Hk & Hs).
  eapply sends_weaken; [|exact Hk]. eapply sends_impl; [|exact Hs].
  intros r Hr. eauto.
Qed.

(* ================================================================== *)
(** * The report of the full analysis *)
(* ================================================================== *)

Lemma substring0_length (n : nat) (s : string) :
  String.length (JS.substring0 n s) <= n.
Proof.
  unfold JS.substring0. revert s. induction n as [|n IH]; intros s.
  - destruct s; cbn; lia.
  - destruct s as [|c s]; cbn [String.substring String.length]; [lia|].
    specialize (IH s). lia.
Qed.

Lemma find_none_filter {A} (p : A -> bool) (l : list A) :
  List.find p l = None <-> length (List.filter p l) = 0.
Proof.
  induction l as [|x l IH]; cbn; [tauto|].
  destruct (p x); cbn; [split; discriminate|exact IH].
Qed.

Lemma filter_and_length {A} (p q : A -> bool) (l : list A) :
  length (List.filter (fun x => p x && q x) l) <= length (List.filter p l).
Proof.
  induction l as [|x l IH]; cbn; [lia|].
  destruct (p x), (q x); cbn; lia.
Qed.

Lemma wordpress_sound (htmlLower : string) (doc : Document) :
  Forall sound_detection (FullAnalysis.wordpress htmlLower doc)
  /\ length (FullAnalysis.wordpress htmlLower doc) <= 1.
Proof.
  unfold FullAnalysis.wordpress.
  destruct (JS.includes htmlLower "wp-content"), (JS.includes htmlLower "wp-includes"),
    (match Sel.attr_of "content" _ with Some g => _ | None => false end);
    vm_compute; repeat first [split | constructor]; intros; congruence.
Qed.

Lemma detectCms_sound (htmlLower : string) (doc : Document) :
  Forall sound_detection (FullAnalysis.detectCms htmlLower doc)
  /\ length (FullAnalysis.detectCms htmlLower doc) <= 3.
Proof.
  unfold FullAnalysis.detectCms. destruct (wordpress_sound htmlLower doc) as [Hwp Hlen].
  rewrite !length_app. split.
  - apply Forall_app. split; [exact Hwp|]. unfold FullAnalysis.when.
    destruct (_ || _), (JS.includes htmlLower "drupal");
      vm_compute; repeat first [split | constructor]; intros; congruence.
  - unfold FullAnalysis.when.
    destruct (_ || _), (JS.includes htmlLower "drupal"); cbn; lia.
Qed.

Lemma detectAnalytics_sound (htmlLower : string) :
  Forall sound_detection (FullAnalysis.detectAnalytics htmlLower)
  /\ Forall (fun s => FullAnalysis.detected s.2 = true) (FullAnalysis.detectAnalytics htmlLower)
  /\ length (FullAnalysis.detectAnalytics htmlLower) <= 3.
Proof.
  unfold FullAnalysis.detectAnalytics, FullAnalysis.when.
  destruct (_ || _ || _), (JS.includes htmlLower "googletagmanager"), (_ || _);
    vm_compute; repeat first [split | constructor]; intros; congruence.
Qed.

Lemma important_meta_sound (doc : Document) :
  map_Forall (fun name content =>
                name ∈ FullAnalysis.importantNames /\ String.length content <= 100)
             (FullAnalysis.important_meta doc).
Proof.
  unfold FullAnalysis.important_meta.
  generalize (Sel.query (Sel.tag "meta") doc).
  assert (Hgen : forall (metas : list Elem) (m : gmap string string),
            map_Forall (fun name content =>
                          name ∈ FullAnalysis.importantNames /\ String.length content <= 100) m ->
            map_Forall (fun name content =>
                          name ∈ FullAnalysis.importantNames /\ String.length content <= 100)
              (fold_left
                 (fun m meta =>
                    let name := JS.str_or (JS.or_else (attr "name" meta) "")
                                  (JS.or_else (attr "property" meta) "") in
                    let content := JS.or_else (attr "content" meta) "" in
                    if JS.truthy name && JS.truthy content
                       && JS.arr_includes FullAnalysis.importantNames (JS.toLowerCase name)
                    then <[ JS.toLowerCase name := JS.substring0 100 content ]> m
                    else m) metas m)).
  { induction metas as [|meta metas IH]; intros m Hm; cbn [fold_left]; [exact Hm|].
    apply IH. cbv zeta.
    destruct (_ && _ && JS.arr_includes _ _) eqn:Hcond; [|exact Hm].
    apply andb_true_iff in Hcond as [_ Hin].
    apply map_Forall_insert_2; [|exact Hm]. split; [|apply substring0_length].
    unfold JS.arr_includes in Hin. apply existsb_exists in Hin as (x & Hx & Heq).
    apply String.eqb_eq in Heq. subst x. apply list_elem_of_In, Hx. }
  intros metas. apply Hgen, map_Forall_empty.
Qed.

Lemma filter_all_length {A} (p : A -> bool) (l : list A) :
  Forall (fun x => p x = true) l -> length (List.filter p l) = length l.
Proof. intros H. rewrite filter_all by exact H. reflexivity. Qed.

Lemma analyze_consistent (URLp : UrlParser) (html : string) (doc : Document)
    (targetUrl : string) (b : FullAnalysis.Body) :
  FullAnalysis.analyze URLp html doc targetUrl = Ok b -> consistent_analysis b.
Proof.
  unfold FullAnalysis.analyze.
  destruct (cheerio_links URLp full_text doc targetUrl) as [links|e]; [|discriminate].
  cbn. intros [= <-]. unfold consistent_analysis.
  cbn [FullAnalysis.status_ FullAnalysis.total_links FullAnalysis.internal_links
       FullAnalysis.external_links FullAnalysis.with_alt_text FullAnalysis.missing_alt_text
       FullAnalysis.total_images FullAnalysis.images_without_alt FullAnalysis.multiple_h1
       FullAnalysis.has_h1 FullAnalysis.issues_found FullAnalysis.links_without_text
       FullAnalysis.accessibility_score FullAnalysis.primary_cms
       FullAnalysis.cms_total_detected FullAnalysis.detected_systems
       FullAnalysis.tools_total_detected FullAnalysis.detected_tools
       FullAnalysis.total_forms FullAnalysis.form_details FullAnalysis.important_tags].
  destruct (detectCms_sound (JS.toLowerCase html) doc) as [Hcms Hcmslen].
  destruct (detectAnalytics_sound (JS.toLowerCase html)) as (Htools & Hall & Htoolslen).
  assert (Himg : Deep.imagesWithoutAlt (Sel.query (Sel.tag "img") doc)
                 <= length (Sel.query (Sel.tag "img") doc))
    by apply List.filter_length_le.
  split; [reflexivity|]. split; [reflexivity|]. split; [lia|]. split; [reflexivity|].
  split.
  { destruct (length (Sel.query (Sel.tag "h1") doc)) as [|[|n]]; cbn; congruence. }
  split; [lia|]. split.
  { apply Nat.add_le_mono_l, filter_and_length. }
  split.
  { unfold FullAnalysis.accessibilityScore, Num.max.
    match goal with |- context [Nat.leb ?n 20] => destruct (Nat.leb_spec n 20) end; lia. }
  split.
  { rewrite <- find_none_filter. destruct (List.find _ _); cbn; split; congruence. }
  split; [split; [apply List.filter_length_le|exact Hcmslen]|].
  split; [apply filter_all_length, Hall|]. split; [exact Htoolslen|].
  split; [exact Hcms|]. split; [exact Htools|]. split; [reflexivity|].
  apply important_meta_sound.
Qed.

Section FullReplies.

Variable URLp : UrlParser.
Variable net : Transport.
Variable load : string -> Result Document.

(** The full analysis sends a single request and answers with a report or
    with HTTP 500. *)
Lemma full_analysis_reply (rq : ApiRequest) (url : string) (w : World) :
  json_url rq = Some url -> JS.truthy url = true ->
  exists reply w',
    FullAnalysis.POST URLp net load rq w = (reply, w')
    /\ slept w' = slept w
    /\ sends (fun r => req_url r = withScheme url) 1 w w'
    /\ match reply with
       | Json code b =>
           code = 200%Z /\ consistent_analysis b /\ FullAnalysis.url b = withScheme url
           /\ sent w' = S (sent w)
       | JsonError code msg => code = 500%Z /\ JS.truthy msg = true
       end.
Proof.
  intros Hjson Htruthy.
  unfold FullAnalysis.POST. rewrite Hjson, Htruthy. cbn [negb].
  assert (Hone : forall req ws, req_url req = withScheme url ->
            sends (fun r => req_url r = withScheme url) 1 w
                  (mkWorld (req :: requests w) (draws w) ws)).
  { intros req ws Hreq. exists [req]. split; [reflexivity|]. split; [cbn; lia|].
    constructor; [exact Hreq|constructor]. }
  unfold mbind at 1, io_bind at 1, fetch. cbn [req_url].
  destruct (URLp (withScheme url) None) as [u|];
    [|eexists; eexists; split; [reflexivity|]; split; [reflexivity|];
      split; [apply (sends_refl _ 1)|split; reflexivity]].
  destruct (net _ _) as [response|e]; cbv beta iota;
    [|eexists; eexists; split; [reflexivity|]; split; [reflexivity|];
      split; [apply Hone; reflexivity|split; reflexivity]].
  destruct (ok response); cbn [negb]; unfold throw;
    [|eexists; eexists; split; [reflexivity|]; split; [reflexivity|];
      split; [apply Hone; reflexivity|split; reflexivity]].
  unfold mbind at 1, io_bind at 1, lift.
  destruct (load (body response) ≫= _) as [b|e] eqn:Hres;
    eexists; eexists; (split; [reflexivity|]); (split; [reflexivity|]);
    (split; [apply Hone; reflexivity|]); [|split; reflexivity].
  destruct (load (body response)) as [doc|e]; [|discriminate Hres].
  assert (Hanalyze : FullAnalysis.analyze URLp (body response) doc (withScheme url) = Ok b)
    by exact Hres.
  split; [reflexivity|]. split; [eapply analyze_consistent, Hanalyze|].
  split; [|reflexivity].
  unfold FullAnalysis.analyze in Hanalyze.
  destruct (cheerio_links URLp full_text doc (withScheme url)); [|discriminate].
  cbn in Hanalyze. injection Hanalyze as <-. reflexivity.
Qed.

End FullReplies.

(** The report of the full analysis is consistent: the link total is the
    sum of the two lists, the image counts add up, a page with several h1
    has an h1, the issue count lies between the images without alt text and
    that number plus the links without text, the score is 100 minus five
    per issue and 0 from twenty issues on, a primary CMS is named exactly
    when one is detected, every detection has a confidence in (0, 100] that
    is at least 30 exactly when it counts, and the important meta tags are
    among the five names with at most 100 characters of content.  The run
    has cost exactly one request and no delay. *)
Theorem full_analysis_report (URLp : UrlParser) (net : Transport)
    (load : string -> Result Document) (rq : ApiRequest) (w w' : World)
    (code : Z) (b : FullAnalysis.Body)
    (Hrun : FullAnalysis.POST URLp net load rq w = (Json code b, w')) :
  code = 200%Z /\ consistent_analysis b
  /\ sent w' = S (sent w) /\ slept w' = slept w.
Proof.
  destruct (json_url rq) as [url|] eqn:Hjson;
    [|unfold FullAnalysis.POST in Hrun; rewrite Hjson in Hrun; discriminate].
  destruct (JS.truthy url) eqn:Htruthy;
    [|unfold FullAnalysis.POST in Hrun; rewrite Hjson, Htruthy in Hrun; discriminate].
  destruct (full_analysis_reply URLp net load rq url w Hjson Htruthy)
    as (reply & w2 & Hrun' & Hd & _ & Hreply).
  rewrite Hrun in Hrun'. injection Hrun' as <- <-.
  destruct Hreply as (-> & Hb & _ & Hsent). auto.
Qed.

(** A WordPress-free page with a title, an image and a link. *)
Lemma full_analysis_report_witness :
  exists b w',
    FullAnalysis.POST RefURL.parse (Ref.answering 200 "OK" "<html>")
      (Ref.loading Ref.seoPage) (Ref.request "x.com") start = (Json 200 b, w')
    /\ consistent_analysis b
    /\ sent w' = S (sent start) /\ slept w' = slept start.
Proof.
  eexists. eexists. split; [vm_compute; reflexivity|].
  refine (proj2 (full_analysis_report RefURL.parse (Ref.answering 200 "OK" "<html>")
                   (Ref.loading Ref.seoPage) (Ref.request "x.com") start _ 200 _ _)).
  vm_compute. reflexivity.
Defined.

(** Whatever the request, the full analysis sends at most one HTTP
    request, to the submitted URL with https:// prepended when it has no
    scheme, and it never sleeps; its error replies are HTTP 400 for a
    missing URL and HTTP 500 otherwise. *)
Theorem full_analysis_request_budget (URLp : UrlParser) (net : Transport)
    (load : string -> Result Document) (rq : ApiRequest) (w : World) :
  let run := FullAnalysis.POST URLp net load rq w in
  sends (fun r => exists url, json_url rq = Some url /\ req_url r = withScheme url) 1 w run.2
  /\ slept run.2 = slept w
  /\ match run.1 with
     | Json code _ => code = 200%Z
     | JsonError code _ =>
         code = (if JS.truthy_opt (json_url rq) then 500 else 400)%Z
     end.
Proof.
  cbn zeta.
  destruct (json_url rq) as [url|] eqn:Hjson;
    [|unfold FullAnalysis.POST; rewrite Hjson;
      split; [apply (sends_refl _ 1)|split; reflexivity]].
  cbn [JS.truthy_opt].
  destruct (JS.truthy url) eqn:Htruthy;
    [|unfold FullAnalysis.POST; rewrite Hjson, Htruthy;
      split; [apply (sends_refl _ 1)|split; reflexivity]].
  destruct (full_analysis_reply URLp net load rq url w Hjson Htruthy)
    as (reply & w2 & -> & Hd & Hs & Hreply).
  cbn [fst snd]. split; [|split; [exact Hd|]].
  - eapply sends_impl; [|exact Hs]. intros r Hr. eauto.
  - destruct reply; apply Hreply.
Qed.

(** The link estimates on a URL that parses, for a random source in
    [0, 1): two draws; 5 to 24 internal and 2 to 16 external links (20 to 69
    and 10 to 39 on one of the six large sites); the first internal link is
    the URL itself and every internal link starts with it; every external
    link leads to one of the six social hosts. *)
Theorem fallback_links_ranges (URLp : UrlParser) (rnd : nat -> Q) (url : string) (u : Url)
    (w : World)
    (Hu : URLp url None = Some u) (Hrnd : unit_interval rnd) :
  exists internal external w',
    QuickLinks.generateFallbackData URLp rnd url w = (Ok (internal, external), w')
    /\ draws w' = 2 + draws w
    /\ (if existsb (JS.includes (hostname u)) QuickLinks.largeSites
        then 20 <= length internal <= 69 /\ 10 <= length external <= 39
        else 5 <= length internal <= 24 /\ 2 <= length external <= 16)
    /\ link_url <$> head internal = Some url
    /\ Forall (fun l => JS.startsWith (link_url l) url = true) internal
    /\ Forall (fun l => link_url l
                        ∈ (fun h => "https://" +:+ h) <$> QuickLinks.externalHosts)
              external.
Proof. exact (generateFallbackData_ranges URLp rnd url u w Hu Hrnd). Qed.

Lemma fallback_links_ranges_witness :
  exists internal external w',
    QuickLinks.generateFallbackData RefURL.parse (Ref.constant (1 # 2))
      "https://www.amazon.com" start = (Ok (internal, external), w')
    /\ draws w' = 2 + draws start
    /\ (if existsb (JS.includes "www.amazon.com") QuickLinks.largeSites
        then 20 <= length internal <= 69 /\ 10 <= length external <= 39
        else 5 <= length internal <= 24 /\ 2 <= length external <= 16)
    /\ link_url <$> head internal = Some "https://www.amazon.com"
    /\ Forall (fun l => JS.startsWith (link_url l) "https://www.amazon.com" = true) internal
    /\ Forall (fun l => link_url l
                        ∈ (fun h => "https://" +:+ h) <$> QuickLinks.externalHosts)
              external.
Proof.
  apply (fallback_links_ranges RefURL.parse (Ref.constant (1 # 2)) "https://www.amazon.com"
           {| href := "https://www.amazon.com/"; protocol := "https:";
              host := "www.amazon.com"; hostname := "www.amazon.com" |} start).
  - reflexivity.
  - intros n. split; [apply Qle_bool_imp_le; reflexivity|reflexivity].
Defined.

(* ================================================================== *)
(** * Where the extracted links come from *)
(* ================================================================== *)

Lemma quick_text_length (t : string) : 0 < String.length (quick_text t) <= 100.
Proof.
  unfold quick_text, JS.str_or.
  pose proof (substring0_length 100 (JS.trim t)) as Hle.
  destruct (JS.substring0 100 (JS.trim t)) as [|c s] eqn:Hs; cbn in *; lia.
Qed.

Section CheerioProvenance.

Variable URLp : UrlParser.
Variable norm : string -> string.
Variable targetUrl baseDomain : string.
Variable P : Link -> Prop.

#[local] Abbreviation step := (cheerio_link_step URLp norm targetUrl baseDomain).
#[local] Abbreviation target := (anchor_target URLp targetUrl).

Lemma each_provenance (els : list Elem) :
  forall acc acc',
    (forall el u, el ∈ els -> target el = Some u -> P (link_of norm el u)) ->
    Forall P acc.1 /\ Forall P acc.2 ->
    each step els acc = Ok acc' ->
    Forall P acc'.1 /\ Forall P acc'.2.
Proof.
  induction els as [|el els IH]; intros acc acc' Hnew Hacc; cbn.
  - intros [= <-]. exact Hacc.
  - destruct (step acc el) as [acc1|e] eqn:Hstep; cbn; [|discriminate].
    apply IH; [intros el' u Hel; apply Hnew; right; exact Hel|].
    destruct Hacc as [H1 H2].
    destruct (cheerio_link_step_cases URLp norm targetUrl baseDomain acc acc1 el Hstep)
      as [[_ ->]|(u & lu & Hu & _ & [[_ ->]|[_ ->]])]; cbn [fst snd]; [auto| |].
    + split; [|exact H2]. destruct (has_url u acc.1); [exact H1|].
      apply Forall_app. split; [exact H1|]. constructor; [|constructor].
      apply Hnew; [left|exact Hu].
    + split; [exact H1|]. destruct (has_url u acc.2); [exact H2|].
      apply Forall_app. split; [exact H2|]. constructor; [|constructor].
      apply Hnew; [left|exact Hu].
Qed.

End CheerioProvenance.

Section PatternProvenance.

Variable URLp : UrlParser.
Variable baseUrl baseDomain : string.
Variable P : Link -> Prop.

#[local] Abbreviation step := (text_link_step URLp baseUrl baseDomain).
#[local] Abbreviation target := (match_target URLp baseUrl).

Lemma fold_text_provenance (ms : list RegexMatch) :
  forall st,
    (forall m u, m ∈ ms -> target m = Some u -> P (link_of_match m u)) ->
    Forall P st.1.2 /\ Forall P st.2 ->
    Forall P (fold_left step ms st).1.2 /\ Forall P (fold_left step ms st).2.
Proof.
  induction ms as [|m ms IH]; intros st Hnew Hst; cbn [fold_left]; [exact Hst|].
  apply IH; [intros m' u Hm; apply Hnew; right; exact Hm|].
  destruct Hst as [H1 H2].
  rewrite (text_link_step_eq URLp baseUrl baseDomain).
  destruct (target m) as [u|] eqn:Hu; [|auto].
  destruct (bool_decide (u ∈ st.1.1)); [auto|].
  destruct (URLp u None) as [lu|]; [|auto].
  destruct (String.eqb (hostname lu) baseDomain); cbn [fst snd]; (split; [|try exact H2]);
    try exact H1; apply Forall_app; (split; [assumption|]);
    (constructor; [|constructor]); (apply Hnew; [left|exact Hu]).
Qed.

End PatternProvenance.

(** The links of the structured tier come from anchors of the page. *)
Lemma cheerio_links_provenance (URLp : UrlParser) (norm : string -> string) (doc : Document)
    (targetUrl : string) (links : list Link * list Link) (P : Link -> Prop) :
  (forall el u, el ∈ Sel.query Sel.a_href doc -> anchor_target URLp targetUrl el = Some u ->
                P (link_of norm el u)) ->
  cheerio_links URLp norm doc targetUrl = Ok links ->
  Forall P (links.1 ++ links.2).
Proof.
  intros Hnew. unfold cheerio_links, new_URL.
  destruct (URLp targetUrl None) as [bu|]; cbn; [|discriminate].
  intros Hrun. apply Forall_app.
  eapply (each_provenance URLp norm targetUrl (hostname bu) P); [exact Hnew| |exact Hrun].
  split; constructor.
Qed.

(** The links of the pattern tier come from matches of its patterns. *)
Lemma extractLinksFromText_provenance (URLp : UrlParser) (rx : RegexEngine)
    (html baseUrl : string) (P : Link -> Prop) :
  (forall m u, m ∈ text_matches rx html -> match_target URLp baseUrl m = Some u ->
               P (link_of_match m u)) ->
  Forall P ((extractLinksFromText URLp rx html baseUrl).1
            ++ (extractLinksFromText URLp rx html baseUrl).2).
Proof.
  intros Hnew. unfold extractLinksFromText.
  destruct (URLp baseUrl None) as [bu|]; [|constructor].
  pose proof (fold_text_provenance URLp baseUrl (hostname bu) P (text_matches rx html)
                (∅, [], []) Hnew (conj (Forall_nil_2 _) (Forall_nil_2 _))) as [H1 H2].
  destruct (fold_left _ _ _) as [[found int] ext]. cbn [fst snd] in *.
  apply Forall_app. split; assumption.
Qed.

Lemma fallbackInternal_texted (url : string) (i : nat) :
  texted (QuickLinks.fallbackInternal url i).
Proof.
  unfold texted, QuickLinks.fallbackInternal. cbn [link_text].
  assert (Hlt : i mod 9 < 9) by (apply Nat.mod_upper_bound; lia).
  destruct (i mod 9) as [|[|[|[|[|[|[|[|[|k]]]]]]]]]; [..|lia]; vm_compute; split;
    repeat constructor.
Qed.

Lemma fallbackExternal_texted (i : nat) : texted (QuickLinks.fallbackExternal i).
Proof.
  unfold texted, QuickLinks.fallbackExternal. cbn [link_text].
  assert (Hlt : i mod 6 < 6) by (apply Nat.mod_upper_bound; lia).
  destruct (i mod 6) as [|[|[|[|[|[|k]]]]]]; [..|lia]; vm_compute; split;
    repeat constructor.
Qed.

Lemma generateFallbackData_texted (URLp : UrlParser) (rnd : nat -> Q) (url : string)
    (w w' : World) (links : list Link * list Link) :
  QuickLinks.generateFallbackData URLp rnd url w = (Ok links, w') ->
  Forall texted (links.1 ++ links.2).
Proof.
  unfold QuickLinks.generateFallbackData, mbind, io_bind, lift, new_URL, random_below,
    random, mret, io_ret.
  destruct (URLp url None) as [u|]; cbv beta iota; [|discriminate].
  destruct (existsb _ QuickLinks.largeSites); cbv beta iota; intros [= <- _];
    cbn [fst snd]; apply Forall_app; split; apply List.Forall_map, List.Forall_forall;
    intros i _; first [apply fallbackInternal_texted|apply fallbackExternal_texted].
Qed.

(** Every link of a reply of the quick links has an anchor text that is
    not empty and has at most 100 characters, whichever tier produced it:
    the structured and the pattern tier cut the text at 100 characters and
    replace an empty one, the estimator and the error fallback use fixed
    texts. *)
Theorem quick_links_link_texts (URLp : UrlParser) (net : Transport) (rnd : nat -> Q)
    (load : string -> Result Document) (rx : RegexEngine) (rq : ApiRequest) (w w' : World)
    (code : Z) (b : QuickLinks.Body)
    (Hrun : QuickLinks.POST URLp net rnd load rx rq w = (Json code b, w')) :
  Forall texted (QuickLinks.internal_links b ++ QuickLinks.external_links b).
Proof.
  assert (Hfallback : forall e, Forall texted
            (QuickLinks.internal_links (QuickLinks.errorFallback rq e)
             ++ QuickLinks.external_links (QuickLinks.errorFallback rq e))).
  { intros e. cbn. repeat constructor. }
  assert (Hest : forall w1 r w2,
            QuickLinks.estimation URLp rnd (withScheme (default "" (json_url rq))) w1 = (r, w2) ->
            match r with
            | Ok b => Forall texted (QuickLinks.internal_links b ++ QuickLinks.external_links b)
            | Throw _ => True
            end).
  { intros w1 r w2. unfold QuickLinks.estimation, mbind, io_bind.
    destruct (QuickLinks.generateFallbackData URLp rnd _ w1) as [[links|e] w3] eqn:Hgen;
      intros [= <- _]; [|exact I].
    cbn [QuickLinks.success QuickLinks.internal_links QuickLinks.external_links].
    eapply generateFallbackData_texted, Hgen. }
  unfold QuickLinks.POST in Hrun.
  destruct (json_url rq) as [url|] eqn:Hjson; [|discriminate Hrun].
  destruct (JS.truthy url); cbn [negb] in Hrun; [|discriminate Hrun].
  cbn [default] in Hest.
  unfold QuickLinks.extraction, io_try, mbind, io_bind in Hrun.
  destruct (fetchWithStrategies URLp net rnd (withScheme url) 3 w) as [[response|e] w1].
  - unfold mret, io_ret in Hrun. cbv beta iota in Hrun.
    destruct (QuickLinks.cheerioTier URLp load (body response) (withScheme url))
      as [b1|] eqn:Hc.
    + injection Hrun as _ <- _. unfold QuickLinks.cheerioTier in Hc.
      destruct (load (body response)) as [doc|e]; [|discriminate Hc].
      change (Ok doc ≫= (fun doc => cheerio_links URLp quick_text doc (withScheme url)))
        with (cheerio_links URLp quick_text doc (withScheme url)) in Hc.
      destruct (cheerio_links URLp quick_text doc (withScheme url)) as [links|e] eqn:Hlinks;
        [|discriminate Hc].
      destruct (QuickLinks.nonempty links); [|discriminate Hc]. injection Hc as <-.
      cbn [QuickLinks.success QuickLinks.internal_links QuickLinks.external_links].
      eapply cheerio_links_provenance; [|exact Hlinks].
      intros el u _ _. apply quick_text_length.
    + destruct (QuickLinks.patternTier URLp rx (body response) (withScheme url))
        as [b1|] eqn:Hp.
      * injection Hrun as _ <- _. unfold QuickLinks.patternTier in Hp.
        destruct (QuickLinks.nonempty _); [|discriminate Hp]. injection Hp as <-.
        cbn [QuickLinks.success QuickLinks.internal_links QuickLinks.external_links].
        apply extractLinksFromText_provenance. intros m u _ _. apply quick_text_length.
      * destruct (QuickLinks.estimation URLp rnd (withScheme url) w1) as [[b1|e] w2] eqn:Hrun2;
          injection Hrun as _ <- _; [exact (Hest _ _ _ Hrun2)|apply Hfallback].
  - unfold mret, io_ret in Hrun. cbv beta iota in Hrun.
    destruct (QuickLinks.estimation URLp rnd (withScheme url) w1) as [[b1|e'] w2] eqn:Hrun2;
      injection Hrun as _ <- _; [exact (Hest _ _ _ Hrun2)|apply Hfallback].
Qed.

(** The structured tier on a page with two links. *)
Lemma quick_links_link_texts_witness :
  exists b w',
    QuickLinks.POST RefURL.parse (Ref.answering 200 "OK" "<html>") (Ref.constant 0)
      (Ref.loading Ref.twoLinks) Ref.noMatch (Ref.request "x.com") start = (Json 200 b, w')
    /\ Forall texted (QuickLinks.internal_links b ++ QuickLinks.external_links b).
Proof.
  eexists. eexists. split; [vm_compute; reflexivity|].
  refine (quick_links_link_texts RefURL.parse (Ref.answering 200 "OK" "<html>")
            (Ref.constant 0) (Ref.loading Ref.twoLinks) Ref.noMatch (Ref.request "x.com")
            start _ 200 _ _).
  vm_compute. reflexivity.
Defined.

(** No link is invented: every link of the structured tier is the record
    of an anchor of the page whose target resolves to the link's URL, and
    every link of the pattern tier is the record of a match of one of its
    patterns, with an empty title. *)
Theorem extracted_links_provenance (URLp : UrlParser) (norm : string -> string)
    (doc : Document) (rx : RegexEngine) (html targetUrl : string)
    (links : list Link * list Link)
    (Hrun : cheerio_links URLp norm doc targetUrl = Ok links) :
  Forall (fun l => exists el, el ∈ Sel.query Sel.a_href doc
                              /\ anchor_target URLp targetUrl el = Some (link_url l)
                              /\ l = link_of norm el (link_url l))
         (links.1 ++ links.2)
  /\ Forall (fun l => exists m, m ∈ text_matches rx html
                                /\ match_target URLp targetUrl m = Some (link_url l)
                                /\ l = link_of_match m (link_url l))
            ((extractLinksFromText URLp rx html targetUrl).1
             ++ (extractLinksFromText URLp rx html targetUrl).2).
Proof.
  split.
  - eapply cheerio_links_provenance; [|exact Hrun]. intros el u Hel Hu. eauto.
  - apply extractLinksFromText_provenance. intros m u Hm Hu. eauto.
Qed.

Lemma extracted_links_provenance_witness :
  exists links,
    cheerio_links RefURL.parse quick_text Ref.twoLinks "https://x.com/" = Ok links
    /\ Forall (fun l => exists el, el ∈ Sel.query Sel.a_href Ref.twoLinks
                                   /\ anchor_target RefURL.parse "https://x.com/" el
                                      = Some (link_url l)
                                   /\ l = link_of quick_text el (link_url l))
              (links.1 ++ links.2)
    /\ Forall (fun l => exists m,
                 m ∈ text_matches (Ref.matching [ ("/about", Some "About") ]) "<a>"
                 /\ match_target RefURL.parse "https://x.com/" m = Some (link_url l)
                 /\ l = link_of_match m (link_url l))
              ((extractLinksFromText RefURL.parse
                  (Ref.matching [ ("/about", Some "About") ]) "<a>" "https://x.com/").1
               ++ (extractLinksFromText RefURL.parse
                     (Ref.matching [ ("/about", Some "About") ]) "<a>" "https://x.com/").2).
Proof.
  eexists. split; [vm_compute; reflexivity|].
  apply (extracted_links_provenance RefURL.parse quick_text Ref.twoLinks
           (Ref.matching [ ("/about", Some "About") ]) "<a>" "https://x.com/").
  vm_compute. reflexivity.
Defined.

(* ================================================================== *)
(** * The candidates of the crawl *)
(* ================================================================== *)

Lemma same_host_step_cases (URLp : UrlParser) (baseUrl : string) (links : list string)
    (h : string) :
  same_host_step URLp baseUrl links h = links
  \/ exists u, candidate_of URLp baseUrl h u
               /\ same_host_step URLp baseUrl links h = set_add u links.
Proof.
  unfold same_host_step, candidate_of, skipped_href.
  destruct (JS.truthy h); cbn [negb andb orb]; [|left; reflexivity].
  destruct (JS.startsWith h "#"); cbn [negb andb orb]; [left; reflexivity|].
  destruct (JS.startsWith h "javascript:"); cbn [negb andb orb]; [left; reflexivity|].
  destruct (JS.startsWith h "mailto:"); cbn [negb andb orb]; [left; reflexivity|].
  destruct (URLp h (Some baseUrl)) as [pu|]; [|left; reflexivity].
  destruct (URLp (href pu) None) as [urlObj|]; [|left; reflexivity].
  destruct (URLp baseUrl None) as [bu|]; [|left; reflexivity].
  destruct (String.eqb (hostname urlObj) (hostname bu)); [|left; reflexivity].
  right. exists (href pu). split; [|reflexivity]. split; [reflexivity|]. eauto.
Qed.

Lemma fold_same_host_provenance {A} (URLp : UrlParser) (baseUrl : string)
    (target : A -> option string) (P : string -> Prop) (xs : list A) :
  forall links,
    (forall x h u, x ∈ xs -> target x = Some h -> candidate_of URLp baseUrl h u -> P u) ->
    Forall P links ->
    Forall P (fold_left (fun links x => match target x with
                                        | Some h => same_host_step URLp baseUrl links h
                                        | None => links
                                        end) xs links).
Proof.
  induction xs as [|x xs IH]; intros links Hnew Hlinks; cbn [fold_left]; [exact Hlinks|].
  apply IH; [intros y h u Hy; apply Hnew; right; exact Hy|].
  destruct (target x) as [h|] eqn:Hx; [|exact Hlinks].
  destruct (same_host_step_cases URLp baseUrl links h) as [->|(u & Hu & ->)];
    [exact Hlinks|].
  unfold set_add. destruct (bool_decide (u ∈ links)); [exact Hlinks|].
  apply Forall_app. split; [exact Hlinks|]. constructor; [|constructor].
  eapply Hnew; [left|exact Hx|exact Hu].
Qed.

(** The candidates of the crawl: pairwise distinct, at most twenty, all on
    the host of the page, and each the resolved target of an anchor of the
    page (of a match of the anchor pattern when the page cannot be parsed)
    that is not empty and is no fragment, script or mail link. *)
Theorem crawl_candidates (URLp : UrlParser) (load : string -> Result Document)
    (rx : RegexEngine) (html baseUrl : string) :
  let links := extractLinksFromHtml URLp load rx html baseUrl in
  NoDup links /\ length links <= 20
  /\ Forall (fun u => same_hostname URLp u baseUrl) links
  /\ Forall (fun u =>
               exists h,
                 candidate_of URLp baseUrl h u
                 /\ match load html with
                    | Ok doc => exists el, el ∈ Sel.query Sel.a_href doc /\ attr "href" el = Some h
                    | Throw _ => exists m, m ∈ rx PatAnchorOpen html /\ m.1 = h
                    end) links.
Proof.
  cbn zeta.
  destruct (extractLinksFromHtml_inv URLp baseUrl load rx html) as (Hnd & Hlen & Hhost).
  split; [exact Hnd|]. split; [exact Hlen|]. split; [exact Hhost|].
  unfold extractLinksFromHtml, JS.slice0. apply Forall_take.
  destruct (load html) as [doc|e].
  - apply (fold_same_host_provenance URLp baseUrl (attr "href")); [|constructor].
    intros el h u Hel Hh Hu. exists h. split; [exact Hu|]. eauto.
  - apply (fold_same_host_provenance URLp baseUrl (fun m : RegexMatch => Some m.1));
      [|constructor].
    intros m h u Hm [= <-] Hu. exists m.1. split; [exact Hu|]. eauto.
Qed.

(** The budget of the crawl on eleven pages, the main page linking to the
    ten others and not to itself. *)
Lemma crawl_budget_witness :
  exists st w',
    FormValidation.crawl RefURL.parse (Ref.answering 200 "OK" "<html>") (Ref.constant 0)
      (Ref.loading Ref.innerPage) Ref.noMatch "https://x.com/" start = (Ok st, w')
    /\ FormValidation.crawledPages st = FormValidation.maxPages.
Proof.
  eapply (crawl_budget RefURL.parse (Ref.answering 200 "OK" "<html>") (Ref.constant 0)
            (Ref.loading Ref.innerPage) Ref.noMatch "https://x.com/" start).
  - vm_compute. reflexivity.
  - vm_compute. repeat constructor.
  - refine (bool_decide_eq_true_1 _ _). vm_compute. reflexivity.
Defined.

(* ================================================================== *)
(** * The User-Agent of the resilient fetch *)
(* ================================================================== *)

(** [USER_AGENTS[Math.floor(Math.random() * USER_AGENTS.length)]] is never
    [undefined]. *)
Lemma agent_drawn (rnd : nat -> Q) (n : nat) :
  unit_interval rnd ->
  exists ua,
    index USER_AGENTS (Qfloor (rnd n * inject_Z (Z.of_nat (length USER_AGENTS)))) = Some ua
    /\ ua ∈ USER_AGENTS.
Proof.
  intros Hrnd.
  destruct (random_below_range rnd (Z.of_nat (length USER_AGENTS))
              (mkWorld [] n []) Hrnd ltac:(cbn; lia)) as (k & Hrun & Hk).
  assert (Heq : Ok (Qfloor (rnd n * inject_Z (Z.of_nat (length USER_AGENTS)))) = Ok k)
    by exact (f_equal fst Hrun).
  assert (Hk' : Qfloor (rnd n * inject_Z (Z.of_nat (length USER_AGENTS))) = k)
    by congruence.
  rewrite Hk'. clear Hrun Heq Hk'. unfold index.
  destruct (Z.ltb_spec k 0); [lia|].
  destruct (nth_error USER_AGENTS (Z.to_nat k)) as [ua|] eqn:Hua.
  - exists ua. split; [reflexivity|]. apply list_elem_of_In. eapply nth_error_In, Hua.
  - apply nth_error_None in Hua. lia.
Qed.

Section FetchAgents.

Variable URLp : UrlParser.
Variable net : Transport.
Variable rnd : nat -> Q.
Variable url : string.
Hypothesis Hrnd : unit_interval rnd.

Lemma tryStrategy_agents (attempt : nat) (strategy : Strategy) (w : World) :
  exists it w',
    tryStrategy URLp net rnd url attempt strategy w = (Ok it, w')
    /\ sends (fun r => req_url r = url /\ known_agent r) 1 w w'
    /\ sleeps (jitter rnd 2000 1000) (if 0 <? attempt then 1 else 0) w w'.
Proof.
  assert (Hknown : forall n s,
            known_agent
              (mkRequest url
                 match s with
                 | mobile =>
                     mkHeaders (Some "Mozilla/5.0 (iPhone; CPU iPhone OS 17_1 like Mac OS X) AppleWebKit/605.1.15 (KHTML, like Gecko) Version/17.1 Mobile/15E148 Safari/604.1")
                               (Some mobile)
                 | crawler =>
                     mkHeaders (Some "Mozilla/5.0 (compatible; Googlebot/2.1; +http://www.google.com/bot.html)")
                               (Some crawler)
                 | standard =>
                     mkHeaders (index USER_AGENTS
                                  (Qfloor (rnd n * inject_Z (Z.of_nat (length USER_AGENTS)))))
                               (Some standard)
                 end
                 false)
            /\ known_agent
                 (mkRequest url
                    match s with
                    | mobile =>
                        mkHeaders (Some "Mozilla/5.0 (iPhone; CPU iPhone OS 17_1 like Mac OS X) AppleWebKit/605.1.15 (KHTML, like Gecko) Version/17.1 Mobile/15E148 Safari/604.1")
                                  (Some mobile)
                    | crawler =>
                        mkHeaders (Some "Mozilla/5.0 (compatible; Googlebot/2.1; +http://www.google.com/bot.html)")
                                  (Some crawler)
                    | standard =>
                        mkHeaders (index USER_AGENTS
                                     (Qfloor (rnd n * inject_Z (Z.of_nat (length USER_AGENTS)))))
                                  (Some standard)
                    end
                    true)).
  { intros n s. destruct (agent_drawn rnd n Hrnd) as (ua & Hua & Hin).
    destruct s; split; unfold known_agent; cbn [req_headers user_agent profile];
      first [ solve [eexists; split; [reflexivity|reflexivity]]
            | solve [exists ua; split; [exact Hua|exact Hin]] ]. }
  destruct (tryStrategy_effects URLp net rnd url attempt strategy w)
    as (it & w' & Hrun & (new & Hnew & Hlen & Hall) & Hd).
  exists it, w'. split; [exact Hrun|]. split; [|exact Hd].
  exists new. split; [exact Hnew|]. split; [exact Hlen|].
  destruct new as [|r [|r' new]]; [constructor| |cbn in Hlen; lia].
  constructor; [|constructor]. split; [apply Forall_inv in Hall; exact Hall|].
  revert Hrun Hnew. run_io.
  destruct (0 <? attempt); cbn -[USER_AGENTS index pretty Qfloor];
    (destruct (URLp url None) as [u|];
     [match goal with |- context [net _ ?r0] => destruct (net (length (requests w)) r0) end|]);
    cbn -[USER_AGENTS index pretty Qfloor];
    repeat match goal with
           | |- context [if ?b then _ else _] => destruct b; cbn -[USER_AGENTS index pretty Qfloor]
           end;
    intros [= _ <-]; cbn [requests];
    intros Heq;
    first [ apply (f_equal (@length Request)) in Heq; cbn in Heq; lia
          | injection Heq as <-; apply Hknown ].
Qed.

End FetchAgents.

(** With a random source in [0, 1), every request of the resilient fetch
    carries a User-Agent: one of the six configured browser agents under
    the standard strategy (the random index never leaves the array), the
    fixed phone agent under the mobile strategy and the fixed crawler agent
    under the crawler strategy. *)
Theorem fetch_user_agents (URLp : UrlParser) (net : Transport) (rnd : nat -> Q)
    (url : string) (maxRetries : nat) (w : World)
    (Hrnd : unit_interval rnd) :
  exists res w' new,
    fetchWithStrategies URLp net rnd url maxRetries w = (res, w')
    /\ requests w' = new ++ requests w
    /\ Forall known_agent new.
Proof.
  destruct (fetchWithStrategies_sends URLp net rnd url
              (fun r => req_url r = url /\ known_agent r)
              (tryStrategy_agents URLp net rnd url Hrnd) maxRetries w)
    as (res & w' & Hrun & (new & Hnew & _ & Hall) & _).
  exists res, w', new. split; [exact Hrun|]. split; [exact Hnew|].
  eapply Forall_impl; [exact Hall|]. intros r [_ Hr]. exact Hr.
Qed.

(** Nine refused requests, three under each strategy. *)
Lemma fetch_user_agents_witness :
  exists res w' new,
    fetchWithStrategies RefURL.parse (Ref.answering 403 "Forbidden" "") (Ref.constant (1 # 2))
      "https://x.com" 3 start = (res, w')
    /\ requests w' = new ++ requests start
    /\ Forall known_agent new.
Proof.
  apply (fetch_user_agents RefURL.parse (Ref.answering 403 "Forbidden" "")
           (Ref.constant (1 # 2)) "https://x.com" 3 start).
  intros n. split; [apply Qle_bool_imp_le; reflexivity|reflexivity].
Defined.

(* ================================================================== *)
(** * Trimming and the normalisation of the submitted URL *)
(* ================================================================== *)

Lemma rev_app_list (s t : string) :
  list_ascii_of_string (String.rev_app s t)
  = rev_append (list_ascii_of_string s) (list_ascii_of_string t).
Proof.
  revert t. induction s as [|c s IH]; intros t; [reflexivity|].
  cbn [String.rev_app list_ascii_of_string rev_append]. rewrite IH. reflexivity.
Qed.

Lemma rev_list (s : string) :
  list_ascii_of_string (String.rev s) = rev (list_ascii_of_string s).
Proof. unfold String.rev. rewrite rev_app_list, rev_append_rev, app_nil_r. reflexivity. Qed.

Lemma string_rev_involutive (s : string) : String.rev (String.rev s) = s.
Proof.
  rewrite <- (string_of_list_ascii_of_string (String.rev (String.rev s))).
  rewrite !rev_list, rev_involutive. apply string_of_list_ascii_of_string.
Qed.

Lemma list_of_append (s t : string) :
  list_ascii_of_string (s +:+ t) = list_ascii_of_string s ++ list_ascii_of_string t.
Proof.
  induction s as [|c s IH]; [reflexivity|].
  change (String c s +:+ t) with (String c (s +:+ t)).
  cbn [list_ascii_of_string app]. rewrite IH. reflexivity.
Qed.

Lemma string_rev_app (s t : string) : String.rev (s +:+ t) = String.rev t +:+ String.rev s.
Proof.
  rewrite <- (string_of_list_ascii_of_string (String.rev (s +:+ t))).
  rewrite <- (string_of_list_ascii_of_string (String.rev t +:+ String.rev s)).
  f_equal. rewrite rev_list, !list_of_append, !rev_list. apply rev_app_distr.
Qed.

Lemma length_append (s t : string) :
  String.length (s +:+ t) = String.length s + String.length t.
Proof.
  induction s as [|c s IH]; [reflexivity|].
  change (String c s +:+ t) with (String c (s +:+ t)). cbn [String.length]. lia.
Qed.

(** [trimStart] removes a prefix. *)
Lemma trimStart_suffix (s : string) : exists ws, s = ws +:+ JS.trimStart s.
Proof.
  induction s as [|c s [ws IH]]; [exists ""; reflexivity|].
  cbn [JS.trimStart]. destruct (JS.is_ws c).
  - exists (String c ws).
    change (String c ws +:+ JS.trimStart s) with (String c (ws +:+ JS.trimStart s)).
    rewrite <- IH. reflexivity.
  - exists "". reflexivity.
Qed.

Lemma trimStart_idempotent (s : string) : JS.trimStart (JS.trimStart s) = JS.trimStart s.
Proof.
  induction s as [|c s IH]; [reflexivity|].
  cbn [JS.trimStart]. destruct (JS.is_ws c) eqn:Hc; [exact IH|].
  cbn [JS.trimStart]. rewrite Hc. reflexivity.
Qed.

(** A string that does not begin with white space keeps this property
    when a suffix is removed. *)
Lemma trimStart_prefix (r t : string) :
  JS.trimStart (r +:+ t) = r +:+ t -> JS.trimStart r = r.
Proof.
  destruct r as [|c r]; [reflexivity|].
  change (String c r +:+ t) with (String c (r +:+ t)). cbn [JS.trimStart].
  destruct (JS.is_ws c); [|reflexivity].
  intros H. pose proof (trimStart_suffix (r +:+ t)) as [ws Hws].
  apply (f_equal String.length) in H. apply (f_equal String.length) in Hws.
  cbn [String.length] in H. rewrite !length_append in *. lia.
Qed.

Lemma trim_trimmed (s : string) : trimmed (JS.trim s).
Proof.
  unfold trimmed, JS.trim. rewrite string_rev_involutive, trimStart_idempotent.
  split; [|reflexivity].
  destruct (trimStart_suffix (String.rev (JS.trimStart s))) as [ws Hws].
  apply (f_equal String.rev) in Hws. rewrite string_rev_involutive, string_rev_app in Hws.
  apply (trimStart_prefix _ (String.rev ws)). rewrite <- Hws. apply trimStart_idempotent.
Qed.

Lemma trimmed_trim (s : string) : trimmed s -> JS.trim s = s.
Proof.
  intros [H1 H2]. unfold JS.trim. rewrite H1, H2. apply string_rev_involutive.
Qed.

(** Prepending a scheme to a trimmed string leaves it trimmed. *)
Lemma trimmed_https (s : string) : trimmed s -> trimmed ("https://" +:+ s).
Proof.
  intros [H1 H2]. split; [reflexivity|].
  rewrite string_rev_app. destruct (String.rev s) as [|c r] eqn:Hr; [reflexivity|].
  change (String c r +:+ String.rev "https://") with (String c (r +:+ String.rev "https://")).
  cbn [JS.trimStart] in H2 |- *. destruct (JS.is_ws c); [|reflexivity].
  exfalso. pose proof (trimStart_suffix r) as [ws Hws].
  apply (f_equal String.length) in H2. apply (f_equal String.length) in Hws.
  cbn [String.length] in H2. rewrite !length_append in *. lia.
Qed.

(** The handlers' normalisation yields a trimmed string, which it leaves
    alone. *)
Lemma withScheme_trimmed (url : string) : trimmed (withScheme url).
Proof.
  unfold withScheme. cbv zeta.
  destruct (negb _ && negb _); [apply trimmed_https|]; apply trim_trimmed.
Qed.

Lemma withScheme_scheme (url : string) :
  JS.startsWith (withScheme url) "http://" = true
  \/ JS.startsWith (withScheme url) "https://" = true.
Proof.
  unfold withScheme. cbv zeta.
  destruct (JS.startsWith (JS.trim url) "http://") eqn:H1; cbn [negb andb]; [left; exact H1|].
  destruct (JS.startsWith (JS.trim url) "https://") eqn:H2; cbn [negb andb]; [right; exact H2|].
  right. unfold JS.startsWith. apply prefix_append, prefix_refl.
Qed.

Lemma withScheme_idempotent (url : string) : withScheme (withScheme url) = withScheme url.
Proof.
  unfold withScheme at 1. cbv zeta.
  rewrite (trimmed_trim _ (withScheme_trimmed url)).
  destruct (withScheme_scheme url) as [-> | ->]; cbn [negb andb]; [reflexivity|].
  rewrite andb_false_r. reflexivity.
Qed.


(** The normalisation of the submitted URL that the quick links, the full
    analysis and the form validation share is idempotent: its result has no
    white space at either end, begins with http:// or https://, and is left
    alone by a second pass. *)
Theorem normalisation_idempotent (url : string) :
  withScheme (withScheme url) = withScheme url
  /\ JS.trim (withScheme url) = withScheme url
  /\ (JS.startsWith (withScheme url) "http://" = true
      \/ JS.startsWith (withScheme url) "https://" = true).
Proof.
  split; [apply withScheme_idempotent|].
  split; [apply trimmed_trim, withScheme_trimmed|apply withScheme_scheme].
Qed.


(* ================================================================== *)
(** * Properties of the page *)
(* ================================================================== *)

Lemma validateUrl_accepts (URLp : UrlParser) (inputUrl validatedUrl : string) :
  UI.validateUrl URLp inputUrl = Some validatedUrl ->
  withScheme validatedUrl = validatedUrl
  /\ UI.validateUrl URLp validatedUrl = Some validatedUrl
  /\ JS.truthy validatedUrl = true
  /\ (JS.startsWith validatedUrl "http://" = true
      \/ JS.startsWith validatedUrl "https://" = true)
  /\ exists u, URLp validatedUrl None = Some u /\ 3 <= String.length (hostname u).
Proof.
  intros Hvalid. unfold UI.validateUrl, new_URL in Hvalid. cbv zeta in Hvalid.
  destruct (URLp (withScheme inputUrl) None) as [u|] eqn:Hu; [|discriminate].
  destruct (negb _ || _) eqn:Hhost; [discriminate|]. injection Hvalid as <-.
  apply orb_false_iff in Hhost as [_ Hlen]. apply Nat.ltb_ge in Hlen.
  split; [apply withScheme_idempotent|]. split.
  - unfold UI.validateUrl, new_URL. cbv zeta. rewrite withScheme_idempotent, Hu.
    destruct (negb _ || _) eqn:Hhost; [|reflexivity].
    apply orb_true_iff in Hhost as [Hh|Hh].
    + destruct (hostname u); [cbn in Hlen; lia|discriminate].
    + apply Nat.ltb_lt in Hh. lia.
  - split; [|split; [apply withScheme_scheme|eauto]].
    destruct (withScheme_scheme inputUrl) as [H|H];
      destruct (withScheme inputUrl); first [discriminate H|reflexivity].
Qed.

(** A URL that passes the page's validation is a fixed point of the
    validation and of the handlers' normalisation (the handlers fetch what
    the page validated), it begins with a scheme, it parses, and its host
    name has at least three characters. *)
Theorem validated_url_fixed (URLp : UrlParser) (inputUrl validatedUrl : string)
    (Hvalid : UI.validateUrl URLp inputUrl = Some validatedUrl) :
  withScheme validatedUrl = validatedUrl
  /\ UI.validateUrl URLp validatedUrl = Some validatedUrl
  /\ JS.truthy validatedUrl = true
  /\ (JS.startsWith validatedUrl "http://" = true
      \/ JS.startsWith validatedUrl "https://" = true)
  /\ exists u, URLp validatedUrl None = Some u /\ 3 <= String.length (hostname u).
Proof. exact (validateUrl_accepts URLp inputUrl validatedUrl Hvalid). Qed.

Lemma validated_url_fixed_witness :
  withScheme "https://example.com" = "https://example.com"
  /\ UI.validateUrl RefURL.parse "https://example.com" = Some "https://example.com"
  /\ JS.truthy "https://example.com" = true
  /\ (JS.startsWith "https://example.com" "http://" = true
      \/ JS.startsWith "https://example.com" "https://" = true)
  /\ exists u, RefURL.parse "https://example.com" None = Some u
               /\ 3 <= String.length (hostname u).
Proof.
  apply (validated_url_fixed RefURL.parse "  example.com " "https://example.com").
  vm_compute. reflexivity.
Defined.

(** The outcome of an analysis started with a URL that passes the
    validation: the page is no longer loading, the progress is reset, and
    exactly one of the two is set: the results (what the API returned for
    the validated URL, with the overview tab selected and no error
    message), or a non-empty error message without results. *)
Theorem analysis_outcome (URLp : UrlParser) (server : string -> string -> Result UI.Data)
    (type : UI.AnalysisType) (st : UI.State) (validatedUrl : string)
    (Hvalid : UI.validateUrl URLp (UI.url st) = Some validatedUrl) :
  let st' := UI.handleAnalysis URLp server type st in
  UI.url st' = UI.url st
  /\ UI.loading st' = false /\ UI.loadingType st' = "" /\ UI.progress st' = 0%Q
  /\ ((UI.error_ st' = ""
       /\ exists data, server (UI.endpoint type) validatedUrl = Ok data
                       /\ UI.shows_error data = false
                       /\ UI.results st' = Some data
                       /\ UI.activeTab st' = "overview")
      \/ (UI.error_ st' <> "" /\ UI.results st' = None
          /\ UI.activeTab st' = UI.activeTab st)).
Proof.
  cbn zeta. unfold UI.handleAnalysis. rewrite Hvalid.
  destruct (validateUrl_accepts URLp _ _ Hvalid) as (_ & _ & -> & _). cbn [negb].
  destruct (server (UI.endpoint type) validatedUrl) as [data|err]; cbv zeta.
  - destruct (UI.shows_error data) eqn:Hshow.
    + cbn. repeat split. right. repeat split.
      unfold UI.shows_error in Hshow.
      apply andb_true_iff in Hshow as [Hshow _]. apply andb_true_iff in Hshow as [Hshow _].
      destruct (UI.error data) as [[|c msg]|]; cbn in *; congruence.
    + destruct (bool_decide _ || bool_decide _); cbn; repeat split; left;
        (split; [reflexivity|]); exists data; auto.
  - cbn. repeat split. right. repeat split. discriminate.
Qed.

(** An analysis of example.com against an API that answers with a list of
    links. *)
Lemma analysis_outcome_witness :
  let server : string -> string -> Result UI.Data :=
    fun _ _ => Ok (UI.mkData None (Some []) None) in
  let st := UI.mkState "example.com" false "" "" None "overview" 0 in
  let st' := UI.handleAnalysis RefURL.parse server UI.quick st in
  UI.url st' = UI.url st
  /\ UI.loading st' = false /\ UI.loadingType st' = "" /\ UI.progress st' = 0%Q
  /\ ((UI.error_ st' = ""
       /\ exists data, server (UI.endpoint UI.quick) "https://example.com" = Ok data
                       /\ UI.shows_error data = false
                       /\ UI.results st' = Some data
                       /\ UI.activeTab st' = "overview")
      \/ (UI.error_ st' <> "" /\ UI.results st' = None
          /\ UI.activeTab st' = UI.activeTab st)).
Proof.
  apply (analysis_outcome RefURL.parse (fun _ _ => Ok (UI.mkData None (Some []) None))
           UI.quick (UI.mkState "example.com" false "" "" None "overview" 0)
           "https://example.com").
  vm_compute. reflexivity.
Defined.

(** The page and the API agree on what is an error: for every request,
    the page shows the error message of a handler's reply exactly when the
    reply carries nothing but an error, and shows results otherwise.  The
    error fallbacks of the quick links and of the form validation, which
    carry an error field next to their placeholder data, are shown as
    results. *)
Theorem replies_shown (URLp : UrlParser) (net : Transport) (rnd : nat -> Q)
    (load : string -> Result Document) (rx : RegexEngine) (rq : ApiRequest) (w : World) :
  UI.shows_error (UI.view_quick (QuickLinks.POST URLp net rnd load rx rq w).1)
  = is_error (QuickLinks.POST URLp net rnd load rx rq w).1
  /\ UI.shows_error (UI.view_full (FullAnalysis.POST URLp net load rq w).1)
     = is_error (FullAnalysis.POST URLp net load rq w).1
  /\ UI.shows_error (UI.view_deep (DeepAnalysis.POST URLp net load rq w).1)
     = is_error (DeepAnalysis.POST URLp net load rq w).1
  /\ UI.shows_error (UI.view_form (FormValidation.POST URLp net rnd load rx rq w).1)
     = is_error (FormValidation.POST URLp net rnd load rx rq w).1.
Proof.
  destruct (json_url rq) as [url|] eqn:Hjson;
    [|unfold QuickLinks.POST, FullAnalysis.POST, DeepAnalysis.POST, FormValidation.POST;
      rewrite Hjson; repeat split].
  destruct (JS.truthy url) eqn:Htruthy;
    [|unfold QuickLinks.POST, FullAnalysis.POST, DeepAnalysis.POST, FormValidation.POST;
      rewrite Hjson, Htruthy; repeat split].
  split; [|split; [|split]].
  - destruct (quick_links_reply URLp net rnd load rx rq url w Hjson Htruthy)
      as (b & w' & -> & _).
    cbn [fst UI.view_quick is_error]. unfold UI.shows_error.
    cbn [UI.error UI.internal_links UI.forms_found].
    rewrite bool_decide_eq_true_2 by (eexists; reflexivity).
    cbn [negb]. rewrite andb_false_r. reflexivity.
  - destruct (full_analysis_reply URLp net load rq url w Hjson Htruthy)
      as (reply & w' & -> & _ & _ & Hreply).
    destruct reply as [code b|code msg]; cbn [fst UI.view_full is_error];
      [unfold UI.shows_error; reflexivity|].
    destruct Hreply as [_ Hmsg]. unfold UI.shows_error. cbn. rewrite Hmsg. reflexivity.
  - destruct (URLp url None) as [target|] eqn:Hurl;
      [|unfold DeepAnalysis.POST; rewrite Hjson, Htruthy, Hurl; reflexivity].
    destruct (deep_analysis_reply URLp net load rq url target w Hjson Htruthy Hurl)
      as (reply & w' & -> & _ & Hreply).
    destruct reply as [code b|code msg]; cbn [fst UI.view_deep is_error]; [reflexivity|].
    destruct Hreply as (_ & Hmsg & _). unfold UI.shows_error. cbn. rewrite Hmsg. reflexivity.
  - destruct (form_validation_reply URLp net rnd load rx rq url w Hjson Htruthy)
      as (b & w' & -> & _ & Hshape).
    cbn [fst UI.view_form is_error]. unfold UI.shows_error.
    cbn [UI.error UI.internal_links UI.forms_found].
    destruct Hshape as [(st & -> & _)|[_ [(est & -> & _)|(e & ->)]]]; reflexivity.
Qed.


(* ================================================================== *)
(** * Properties of the element counts *)
(* ================================================================== *)

Lemma total_from (f : DeepElements.Elements -> nat) (pages : list DeepElements.Elements) :
  forall acc, fold_left (fun sum page => sum + f page) pages acc
              = acc + DeepElements.total f pages.
Proof.
  unfold DeepElements.total.
  induction pages as [|p pages IH]; intros acc; cbn [fold_left]; [lia|].
  rewrite IH, (IH (0 + f p)). lia.
Qed.

Lemma total_cons (f : DeepElements.Elements -> nat) (p : DeepElements.Elements)
    (pages : list DeepElements.Elements) :
  DeepElements.total f (p :: pages) = f p + DeepElements.total f pages.
Proof. unfold DeepElements.total at 1. cbn [fold_left]. rewrite total_from. lia. Qed.

Lemma total_le (f g : DeepElements.Elements -> nat) (pages : list DeepElements.Elements) :
  Forall (fun p => f p <= g p) pages ->
  DeepElements.total f pages <= DeepElements.total g pages.
Proof.
  induction 1 as [|p pages Hp _ IH]; [reflexivity|]. rewrite !total_cons. lia.
Qed.

Lemma pages_with_le (f : DeepElements.Elements -> nat) (pages : list DeepElements.Elements) :
  DeepElements.pages_with f pages <= length pages
  /\ DeepElements.pages_with f pages <= DeepElements.total f pages
  /\ (DeepElements.pages_with f pages = 0 <-> DeepElements.total f pages = 0).
Proof.
  unfold DeepElements.pages_with.
  induction pages as [|p pages (IH1 & IH2 & IH3)]; [cbn; repeat split; lia|].
  rewrite total_cons. cbn [List.filter length].
  destruct (Nat.ltb_spec 0 (f p)); cbn [length]; repeat split; lia.
Qed.

(** The element counts are consistent, whatever cheerio selects: on every
    page there are at most as many calculators as forms, and the banner
    count lies between the number of elements the banner selectors match
    and that number plus the number of images (an image can be counted
    on top of the selectors); in the summary there are at most as many
    calculators as forms, and the pages with forms (images) are at most the
    analysed pages, at most the forms (images) in total, and none exactly
    when there is no form (image) at all. *)
Theorem element_counts_consistent (select : DeepElements.Selector -> Document -> list Elem)
    (find : DeepElements.Selector -> Elem -> list Elem) (docs : list Document) :
  let pages := map (DeepElements.elements select find) docs in
  let s := DeepElements.summary pages in
  Forall2 (fun doc p =>
             DeepElements.calculators p <= DeepElements.forms p
             /\ length (select DeepElements.SelBanners doc) <= DeepElements.banners p
             /\ DeepElements.banners p
                <= length (select DeepElements.SelBanners doc) + DeepElements.images p)
          docs pages
  /\ DeepElements.total_calculators s <= DeepElements.total_forms s
  /\ DeepElements.pages_with_forms s <= length docs
  /\ DeepElements.pages_with_forms s <= DeepElements.total_forms s
  /\ (DeepElements.pages_with_forms s = 0 <-> DeepElements.total_forms s = 0)
  /\ DeepElements.pages_with_images s <= length docs
  /\ DeepElements.pages_with_images s <= DeepElements.total_images s
  /\ (DeepElements.pages_with_images s = 0 <-> DeepElements.total_images s = 0).
Proof.
  cbn zeta.
  assert (Hpage : forall doc,
            DeepElements.calculators (DeepElements.elements select find doc)
            <= DeepElements.forms (DeepElements.elements select find doc)
            /\ length (select DeepElements.SelBanners doc)
               <= DeepElements.banners (DeepElements.elements select find doc)
            /\ DeepElements.banners (DeepElements.elements select find doc)
               <= length (select DeepElements.SelBanners doc)
                  + DeepElements.images (DeepElements.elements select find doc)).
  { intros doc. unfold DeepElements.elements.
    cbn [DeepElements.calculators DeepElements.forms DeepElements.banners
         DeepElements.images].
    pose proof (List.filter_length_le (DeepElements.isCalculator find)
                  (select DeepElements.SelForms doc)).
    pose proof (List.filter_length_le DeepElements.isBannerImage
                  (select DeepElements.SelImages doc)).
    lia. }
  unfold DeepElements.summary.
  cbn [DeepElements.total_calculators DeepElements.total_forms DeepElements.total_images
       DeepElements.pages_with_forms DeepElements.pages_with_images].
  destruct (pages_with_le DeepElements.forms (map (DeepElements.elements select find) docs))
    as (Hf1 & Hf2 & Hf3).
  destruct (pages_with_le DeepElements.images (map (DeepElements.elements select find) docs))
    as (Hi1 & Hi2 & Hi3).
  rewrite length_map in Hf1, Hi1.
  split; [|split; [|tauto]].
  - clear -Hpage. induction docs as [|doc docs IH]; cbn [map]; constructor;
      [apply Hpage|exact IH].
  - apply total_le, List.Forall_map, List.Forall_forall. intros doc _. apply Hpage.
Qed.
